(** * Donor service: CSV ingestion, queries and statistics

    A shallow embedding of [src/services/donorService.js] together with the
    Mongoose schema of [src/models/donorModel.js].  A JavaScript string is
    modelled by the bytes of its UTF-8 encoding (a [string] of Rocq holds one
    byte per character), so that every Unicode text has a model; integers that
    the service computes with (time values, counters) are in [Z], the numbers
    that [parseInt] produces are integer-valued doubles, infinities or [NaN],
    and the document store is an explicit state that every operation
    threads. *)

From Stdlib Require Import ZArith List String Ascii Bool Lia QArith.
From Stdlib Require Import Sorting.Sorted Sorting.Permutation.
Import ListNotations.

Local Open Scope string_scope.
Local Open Scope Z_scope.

(* ================================================================== *)
(** ** JavaScript built-ins used by the service *)

(** The value of a byte. *)
Definition code (c : ascii) : Z := Z.of_N (N_of_ascii c).

(** *** White space

    [String.prototype.trim] strips, and [parseInt] skips, the characters
    WhiteSpace and LineTerminator of the language: U+0009 to U+000D, U+0020,
    U+00A0, U+1680, U+2000 to U+200A, U+2028, U+2029, U+202F, U+205F, U+3000
    and U+FEFF.  In UTF-8 they take one, two or three bytes. *)

(** U+0009 TAB, U+000A LF, U+000B VT, U+000C FF, U+000D CR, U+0020 SPACE *)
Definition whitespace1 (a : ascii) : bool :=
  ((9 <=? code a) && (code a <=? 13)) || (code a =? 32).

(** U+00A0 NO-BREAK SPACE: C2 A0 *)
Definition whitespace2 (a b : ascii) : bool :=
  (code a =? 194) && (code b =? 160).

(** U+1680: E1 9A 80.  U+2000 to U+200A: E2 80 80 to E2 80 8A.
    U+2028, U+2029, U+202F: E2 80 A8, E2 80 A9, E2 80 AF.  U+205F: E2 81 9F.
    U+3000: E3 80 80.  U+FEFF: EF BB BF. *)
Definition whitespace3 (a b c : ascii) : bool :=
  ((code a =? 225) && (code b =? 154) && (code c =? 128))
  || ((code a =? 226) && (code b =? 128)
      && (((128 <=? code c) && (code c <=? 138))
          || (code c =? 168) || (code c =? 169) || (code c =? 175)))
  || ((code a =? 226) && (code b =? 129) && (code c =? 159))
  || ((code a =? 227) && (code b =? 128) && (code c =? 128))
  || ((code a =? 239) && (code b =? 187) && (code c =? 191)).

(** The rest of [s] after the white-space character that it starts with;
    [None] when it starts with none. *)
Definition skip_whitespace (s : string) : option string :=
  match s with
  | EmptyString => None
  | String a r1 =>
      if whitespace1 a then Some r1
      else
        match r1 with
        | EmptyString => None
        | String b r2 =>
            if whitespace2 a b then Some r2
            else
              match r2 with
              | EmptyString => None
              | String c r3 => if whitespace3 a b c then Some r3 else None
              end
        end
  end.

(** [s.trimStart()] *)
Fixpoint trimStart (s : string) : string :=
  match s with
  | EmptyString => EmptyString
  | String a r1 =>
      if whitespace1 a then trimStart r1
      else
        match r1 with
        | EmptyString => s
        | String b r2 =>
            if whitespace2 a b then trimStart r2
            else
              match r2 with
              | EmptyString => s
              | String c r3 => if whitespace3 a b c then trimStart r3 else s
              end
        end
  end.

(** A string made of white-space characters only (the empty string is
    one). *)
Fixpoint all_whitespace (s : string) : bool :=
  match s with
  | EmptyString => true
  | String a r1 =>
      if whitespace1 a then all_whitespace r1
      else
        match r1 with
        | EmptyString => false
        | String b r2 =>
            if whitespace2 a b then all_whitespace r2
            else
              match r2 with
              | EmptyString => false
              | String c r3 => if whitespace3 a b c then all_whitespace r3 else false
              end
        end
  end.

(** [s.trimEnd()]: the string up to the point from which on white space
    only follows. *)
Fixpoint trimEnd (s : string) : string :=
  match s with
  | EmptyString => EmptyString
  | String a r => if all_whitespace s then EmptyString else String a (trimEnd r)
  end.

(** [s.trim()] *)
Definition trim (s : string) : string := trimEnd (trimStart s).

(** *** Case mapping *)

Definition upper_char (c : ascii) : ascii :=
  let n := code c in
  if (97 <=? n) && (n <=? 122) then ascii_of_N (Z.to_N (n - 32)) else c.

Definition lower_char (c : ascii) : ascii :=
  let n := code c in
  if (65 <=? n) && (n <=? 90) then ascii_of_N (Z.to_N (n + 32)) else c.

Fixpoint map_string (f : ascii -> ascii) (s : string) : string :=
  match s with
  | EmptyString => EmptyString
  | String c s' => String (f c) (map_string f s')
  end.

(** [s.toUpperCase()] and [s.toLowerCase()] for a string of ASCII characters,
    such as a blood-group label: the 26 letters are mapped, everything else is
    kept. *)
Definition toUpperCase (s : string) : string := map_string upper_char s.
Definition toLowerCase (s : string) : string := map_string lower_char s.

(** *** What "trimmed", "upper case" and "lower case" mean *)

(** [t] is [s] without a run of white space at its start and another at its
    end. *)
Definition surrounded_by_whitespace (s t : string) : Prop :=
  exists l r, s = (l ++ t ++ r)%string
              /\ all_whitespace l = true /\ all_whitespace r = true.

(** [s] does not start with a white-space character. *)
Definition starts_clean (s : string) : bool :=
  match skip_whitespace s with
  | Some _ => false
  | None => true
  end.

(** [s] ends with a white-space character: some suffix of [s] is exactly one
    such character. *)
Fixpoint ends_with_whitespace (s : string) : bool :=
  match s with
  | EmptyString => false
  | String _ r =>
      match skip_whitespace s with
      | Some EmptyString => true
      | _ => ends_with_whitespace r
      end
  end.

Definition ends_clean (s : string) : bool := negb (ends_with_whitespace s).

(** No lower-case (no upper-case) ASCII letter occurs in a string; a string
    of ASCII characters only. *)
Definition is_lower (c : ascii) : bool := (97 <=? code c) && (code c <=? 122).
Definition is_upper (c : ascii) : bool := (65 <=? code c) && (code c <=? 90).

Fixpoint no_char (p : ascii -> bool) (s : string) : bool :=
  match s with
  | EmptyString => true
  | String c r => negb (p c) && no_char p r
  end.

Definition is_ascii (s : string) : bool := no_char (fun c => 128 <=? code c) s.

(** The case mapping of the engine, on any text.  The tables of the Unicode
    standard that define it are not part of the program; what the service
    relies on is kept as laws: on ASCII text the mapping is the one of the 26
    letters, no letter of the other case is left among the ASCII characters
    of a result, and lower-casing neither adds nor removes white space at
    either end of a string. *)
Class CaseMapping : Type := {
  String_toUpperCase : string -> string;
  String_toLowerCase : string -> string;
  toUpperCase_of_ascii :
    forall s, is_ascii s = true -> String_toUpperCase s = toUpperCase s;
  toLowerCase_of_ascii :
    forall s, is_ascii s = true -> String_toLowerCase s = toLowerCase s;
  toUpperCase_leaves_no_lower :
    forall s, no_char is_lower (String_toUpperCase s) = true;
  toLowerCase_leaves_no_upper :
    forall s, no_char is_upper (String_toLowerCase s) = true;
  toLowerCase_keeps_start :
    forall s, starts_clean (String_toLowerCase s) = starts_clean s;
  toLowerCase_keeps_end :
    forall s, ends_clean (String_toLowerCase s) = ends_clean s
}.

(** The mapping of the 26 letters obeys these laws; it is the case mapping
    of an engine on ASCII text.  No byte of a white-space character is a
    letter, so lower-casing the letters leaves white space where it is. *)
#[global] Instance ascii_case_mapping : CaseMapping.
Proof.
  assert (L : forall c, code (lower_char c) = if is_upper c then code c + 32 else code c).
  { intros c. destruct c as [[] [] [] [] [] [] [] []]; reflexivity. }
  assert (E : forall k c, 128 <= k -> (code (lower_char c) =? k) = (code c =? k)).
  { intros k c Hk. rewrite L. unfold is_upper.
    destruct (Z.leb_spec 65 (code c)), (Z.leb_spec (code c) 90); cbn [andb];
      try reflexivity.
    destruct (Z.eqb_spec (code c + 32) k), (Z.eqb_spec (code c) k); lia || reflexivity. }
  assert (R1 : forall c, (128 <=? code (lower_char c)) = (128 <=? code c)).
  { intros c. destruct c as [[] [] [] [] [] [] [] []]; reflexivity. }
  assert (R2 : forall c, (code (lower_char c) <=? 138) = (code c <=? 138)).
  { intros c. destruct c as [[] [] [] [] [] [] [] []]; reflexivity. }
  assert (W1 : forall a, whitespace1 (lower_char a) = whitespace1 a).
  { intros a. destruct a as [[] [] [] [] [] [] [] []]; reflexivity. }
  assert (W2 : forall a b, whitespace2 (lower_char a) (lower_char b) = whitespace2 a b).
  { intros a b. unfold whitespace2. now rewrite !E by lia. }
  assert (W3 : forall a b c,
             whitespace3 (lower_char a) (lower_char b) (lower_char c) = whitespace3 a b c).
  { intros a b c. unfold whitespace3. now rewrite !E, R1, R2 by lia. }
  assert (SK : forall s, skip_whitespace (toLowerCase s)
                         = option_map toLowerCase (skip_whitespace s)).
  { intros s. unfold toLowerCase.
    destruct s as [|a [|b [|c t]]]; cbn [map_string skip_whitespace];
      rewrite ?W1, ?W2, ?W3;
      repeat match goal with
             | |- context [if ?b then _ else _] => destruct b
             end; reflexivity. }
  refine {| String_toUpperCase := toUpperCase; String_toLowerCase := toLowerCase |}.
  - reflexivity.
  - reflexivity.
  - induction s as [|c s IH]; [reflexivity|].
    cbn [toUpperCase map_string no_char]. unfold toUpperCase in IH. rewrite IH.
    destruct c as [[] [] [] [] [] [] [] []]; reflexivity.
  - induction s as [|c s IH]; [reflexivity|].
    cbn [toLowerCase map_string no_char]. unfold toLowerCase in IH. rewrite IH.
    destruct c as [[] [] [] [] [] [] [] []]; reflexivity.
  - intros s. unfold starts_clean. rewrite SK. now destruct (skip_whitespace s).
  - intros s. unfold ends_clean. f_equal.
    induction s as [|a s IH]; [reflexivity|].
    change (toLowerCase (String a s)) with (String (lower_char a) (toLowerCase s)).
    cbn [ends_with_whitespace].
    change (String (lower_char a) (toLowerCase s)) with (toLowerCase (String a s)).
    rewrite SK, IH. destruct (skip_whitespace (String a s)) as [[|x y]|]; reflexivity.
Defined.

(** *** Numbers

    A number that the service meets in an [age]: an integer-valued double,
    an infinity, or [NaN]. *)
Inductive Number : Type :=
| Int (z : Z)
| Infinity (negative : bool)
| NaN.

Coercion Int : Z >-> Number.

Definition negate (n : Number) : Number :=
  match n with
  | Int z => Int (- z)
  | Infinity b => Infinity (negb b)
  | NaN => NaN
  end.

(** The double nearest to the integer [m >= 0], ties to the even significand:
    [m] itself below [2^53]; above, the 53 leading bits of [m] rounded;
    [Infinity] when the rounded value is [2^1024] or more. *)
Definition round_to_double (m : Z) : Number :=
  if m <? 2 ^ 53 then Int m
  else
    let k := Z.log2 m - 52 in
    let q := m / 2 ^ k in
    let r := m mod 2 ^ k in
    let half := 2 ^ (k - 1) in
    let q' := if (half <? r) || ((r =? half) && Z.odd q) then q + 1 else q in
    if 2 ^ 1024 <=? q' * 2 ^ k then Infinity false else Int (q' * 2 ^ k).

(** Value of a character as a digit: [0-9], then [a-z] or [A-Z] for 10..35. *)
Definition digit_value (c : ascii) : option Z :=
  let n := code c in
  if (48 <=? n) && (n <=? 57) then Some (n - 48)
  else if (97 <=? n) && (n <=? 122) then Some (n - 87)
  else if (65 <=? n) && (n <=? 90) then Some (n - 55)
  else None.

(** The longest prefix of [s] made of digits below [radix], read as a number;
    [acc] is [None] as long as no digit has been read. *)
Fixpoint parse_digits (radix : Z) (s : string) (acc : option Z) : option Z :=
  match s with
  | EmptyString => acc
  | String c s' =>
      match digit_value c with
      | Some d =>
          if d <? radix
          then parse_digits radix s'
                 (Some match acc with None => d | Some a => a * radix + d end)
          else acc
      | None => acc
      end
  end.

(** The sign that a string starts with (whether it is a minus), and the
    rest of the string. *)
Definition read_sign (s : string) : bool * string :=
  match s with
  | String "-"%char r => (true, r)
  | String "+"%char r => (false, r)
  | _ => (false, s)
  end.

(** The radix that the start of a string tells, 16 after [0x] or [0X] and 10
    otherwise, and the rest of the string. *)
Definition read_radix (s : string) : Z * string :=
  match s with
  | String "0"%char (String "x"%char r) => (16, r)
  | String "0"%char (String "X"%char r) => (16, r)
  | _ => (10, s)
  end.

(** [parseInt(v)] with no radix argument, for [v] a string or [undefined]
    ([None]).  [undefined] is converted to the string ["undefined"] first.
    Leading white space is skipped, then a sign and a [0x] prefix are read;
    the digits that follow denote an integer, and the result is the double
    nearest to it, or [NaN] when no digit follows. *)
Definition parseInt (v : option string) : Number :=
  let inputString := match v with None => "undefined" | Some s => s end in
  let '(negative, s) := read_sign (trimStart inputString) in
  let '(radix, s) := read_radix s in
  match parse_digits radix s None with
  | None => NaN
  | Some m => if negative then negate (round_to_double m) else round_to_double m
  end.

(** [x || d] for a number [x]: [NaN] and [0] are falsy. *)
Definition num_or (x : Number) (d : Number) : Number :=
  match x with
  | NaN => d
  | Int n => if n =? 0 then d else x
  | Infinity _ => x
  end.

(** [x || d] for [x] a string or [undefined]: [undefined] and [''] are falsy. *)
Definition str_or (x : option string) (d : string) : string :=
  match x with
  | None => d
  | Some s => if String.eqb s "" then d else s
  end.

(** Truthiness of a string or [undefined], as tested by [!x] and [x ? a : b]. *)
Definition truthy (x : option string) : bool :=
  match x with
  | None => false
  | Some s => negb (String.eqb s "")
  end.

(* ================================================================== *)
(** ** Time values and the [Date] methods used by the eligibility filter

    A [Date] holds a time value: milliseconds since the epoch, UTC.  The
    functions below are the abstract operations of the language specification
    (Day, TimeWithinDay, YearFromTime, MonthFromTime, DateFromTime, MakeDay,
    MakeDate, LocalTime, UTC); months count from 0, days of the month from 1. *)

Definition msPerDay : Z := 86400000.

Definition Day (t : Z) : Z := t / msPerDay.
Definition TimeWithinDay (t : Z) : Z := t mod msPerDay.

(** Day number of the first day of month [m] (0..11) of year [y] in the
    proleptic Gregorian calendar; day 0 is 1 January 1970.  Years are counted
    from 1 March so that the leap day comes last. *)
Definition day_of_month_start (y m : Z) : Z :=
  let y' := if m <=? 1 then y - 1 else y in
  let era := y' / 400 in
  let yoe := y' - era * 400 in
  let mp := if m <=? 1 then m + 10 else m - 2 in
  let doy := (153 * mp + 2) / 5 in
  let doe := yoe * 365 + yoe / 4 - yoe / 100 + doy in
  era * 146097 + doe - 719468.

(** Year, month (0..11) and day of the month (1..31) of day number [z]. *)
Definition civil_of_day (z : Z) : Z * Z * Z :=
  let z := z + 719468 in
  let era := z / 146097 in
  let doe := z - era * 146097 in
  let yoe := (doe - doe / 1460 + doe / 36524 - doe / 146096) / 365 in
  let doy := doe - (365 * yoe + yoe / 4 - yoe / 100) in
  let mp := (5 * doy + 2) / 153 in
  let d := doy - (153 * mp + 2) / 5 + 1 in
  let m := if mp <? 10 then mp + 2 else mp - 10 in
  let y := yoe + era * 400 + (if m <=? 1 then 1 else 0) in
  (y, m, d).

Definition YearFromTime (t : Z) : Z := fst (fst (civil_of_day (Day t))).
Definition MonthFromTime (t : Z) : Z := snd (fst (civil_of_day (Day t))).
Definition DateFromTime (t : Z) : Z := snd (civil_of_day (Day t)).

(** [MakeDay(year, month, date)]: the day number of the first of the month,
    plus [date - 1]; [month] outside 0..11 carries into the year. *)
Definition MakeDay (year month date : Z) : Z :=
  let ym := year + month / 12 in
  let mn := month mod 12 in
  day_of_month_start ym mn + date - 1.

Definition MakeDate (day time : Z) : Z := day * msPerDay + time.

(** The host's time zone: the offset of local time from UTC, in milliseconds,
    looked up at a UTC time value and at a local one. *)
Record tzinfo : Type := {
  LocalTZA_at_utc : Z -> Z;
  LocalTZA_at_local : Z -> Z
}.

Definition LocalTime (tz : tzinfo) (t : Z) : Z := t + LocalTZA_at_utc tz t.
Definition UTC (tz : tzinfo) (t : Z) : Z := t - LocalTZA_at_local tz t.

(** [d.getDate()] for a date of time value [t] *)
Definition getDate (tz : tzinfo) (t : Z) : Z := DateFromTime (LocalTime tz t).

(** [d.setDate(dt)]: the new time value of the date (time values stay far
    inside the range that [TimeClip] accepts). *)
Definition setDate (tz : tzinfo) (t : Z) (dt : Z) : Z :=
  let lt := LocalTime tz t in
  let newDate :=
    MakeDate (MakeDay (YearFromTime lt) (MonthFromTime lt) dt) (TimeWithinDay lt) in
  UTC tz newDate.

(** A zone with a fixed offset, and UTC itself. *)
Definition fixed_zone (offset : Z) : tzinfo :=
  {| LocalTZA_at_utc := fun _ => offset; LocalTZA_at_local := fun _ => offset |}.
Definition utc_zone : tzinfo := fixed_zone 0.

(** A [Date] object: a time value, or [NaN] for an invalid date. *)
Inductive Date : Type :=
| DateValue (t : Z)
| InvalidDate.

(** A value that a caller may pass for a filter flag: [undefined], a boolean,
    or a string (query-string values arrive as strings). *)
Inductive JsValue : Type :=
| JUndefined
| JBool (b : bool)
| JString (s : string).

(** [v === s] for a string literal [s]: strict equality, no conversion. *)
Definition strict_eq_string (v : JsValue) (s : string) : bool :=
  match v with
  | JString s' => String.eqb s' s
  | _ => false
  end.

(** The text of an error.  What the service writes itself is known word for
    word; a text that Mongoose or the server composes is named by what it
    reports: the paths that failed validation (of a document, of an update),
    the path whose value could not be cast, the index that a write violated.
    [Prefixed p m] is such a text with [p] before it. *)
Inductive Message : Type :=
| Text (s : string)
| ValidationFailed (paths : list string)
| UpdateValidationFailed (paths : list string)
| CastFailed (path : string)
| DuplicateKey (index : string)
| Prefixed (prefix : string) (m : Message).

(** An error object: its [name], its [code] when it has one, its [message]. *)
Record JsError : Type := {
  err_name : string;
  err_code : option Z;
  err_message : Message
}.

(** [new Error(message)] *)
Definition new_Error (message : string) : JsError :=
  {| err_name := "Error"; err_code := None; err_message := Text message |}.

(** A text with [prefix] before it. *)
Definition prefix_message (prefix : string) (m : Message) : Message :=
  match m with
  | Text s => Text (prefix ++ s)
  | _ => Prefixed prefix m
  end.

(** [new Error(`prefix${error.message}`)] *)
Definition new_Error_from (prefix : string) (error : JsError) : JsError :=
  {| err_name := "Error"; err_code := None;
     err_message := prefix_message prefix (err_message error) |}.

(** [error.code === 11000] *)
Definition is_duplicate_key (error : JsError) : bool :=
  match err_code error with
  | Some c => c =? 11000
  | None => false
  end.

(** Outcome of an [async] service method: the value it resolves with, or the
    error it throws. *)
Inductive Outcome (A : Type) : Type :=
| Returned (a : A)
| Thrown (e : JsError).
Arguments Returned {A} a.
Arguments Thrown {A} e.

(* ================================================================== *)
(** ** Data model *)

(** A row as the CSV parser emits it: every column is a string, or absent. *)
Module Row.
Record t : Type := mk {
  name : option string;
  age : option string;
  blood_group : option string;
  contact_number : option string;
  email : option string;
  address : option string;
  last_donation_date : option string
}.
End Row.


(** The plain object handed to [Donor.create]; [None] is an absent (or
    [null]) property. *)
Module DonorData.
Record t : Type := mk {
  name : option string;
  age : option Number;
  blood_group : option string;
  contact_number : option string;
  email : option string;
  address : option string;
  last_donation_date : option Date;
  latitude : option Q;
  longitude : option Q
}.
End DonorData.

(** A stored document.  [_id] is the ObjectId the store assigned, read as a
    number.  The schema declares no [createdAt] path and sets no [timestamps]
    option, so a document has no creation timestamp of its own. *)
Module Doc.
Record t : Type := mk {
  _id : N;
  name : string;
  age : Number;
  blood_group : string;
  contact_number : string;
  email : string;
  address : string;
  last_donation_date : option Z;
  latitude : option Q;
  longitude : option Q
}.
End Doc.

(* ================================================================== *)
(** ** The [Donor] model: schema, validation and store operations *)

(** The repository defines the schema twice; the two differ in whether
    [latitude] and [longitude] are declared (both required when they are).
    No variant sets [lowercase] on [email] or [uppercase] on [blood_group]. *)
Record Schema : Type := { declares_geo : bool }.

(** [src/models/donorModel.js] *)
Definition donorSchema : Schema := {| declares_geo := true |}.
(** The second definition of the schema, without geocoordinates. *)
Definition donorSchema_without_geo : Schema := {| declares_geo := false |}.

Record Store : Type := {
  docs : list Doc.t;      (* the collection, in insertion order *)
  next_id : N             (* the next ObjectId to hand out *)
}.

Definition empty_store : Store := {| docs := []; next_id := 0%N |}.

(** [required: true] on a String path: the value must be a non-empty string. *)
Definition required_string (path : string) (v : option string) : list string :=
  if truthy v then [] else [path].

(** [required: true] on a Number path. *)
Definition required_number {A : Type} (path : string) (v : option A) : list string :=
  match v with Some _ => [] | None => [path] end.

(** A Number path does not take [NaN]: the cast fails. *)
Definition cast_number (path : string) (v : option Number) : list string :=
  match v with Some NaN => [path] | _ => [] end.

(** The paths that fail validation.  [name] is validated after its
    [trim: true] setter ran; [NaN] fails the cast of [age], and an invalid
    date the cast of [last_donation_date]. *)
Definition invalid_paths (sch : Schema) (d : DonorData.t) : list string :=
  required_string "name" (option_map trim (DonorData.name d))
  ++ required_number "age" (DonorData.age d)
  ++ cast_number "age" (DonorData.age d)
  ++ required_string "blood_group" (DonorData.blood_group d)
  ++ required_string "contact_number" (DonorData.contact_number d)
  ++ required_string "email" (DonorData.email d)
  ++ required_string "address" (DonorData.address d)
  ++ match DonorData.last_donation_date d with
     | Some InvalidDate => ["last_donation_date"]
     | _ => []
     end
  ++ (if declares_geo sch
      then required_number "latitude" (DonorData.latitude d)
           ++ required_number "longitude" (DonorData.longitude d)
      else []).

(** Mongoose's error for a document that fails validation. *)
Definition ValidationError (paths : list string) : JsError :=
  {| err_name := "ValidationError";
     err_code := None;
     err_message := ValidationFailed paths |}.

(** The server's duplicate-key error, raised by the unique index on [email]. *)
Definition DuplicateKeyError : JsError :=
  {| err_name := "MongoServerError";
     err_code := Some 11000;
     err_message := DuplicateKey "email_1" |}.

(** Mongoose's error for a value that cannot be cast to the type of [path]. *)
Definition CastError (path : string) : JsError :=
  {| err_name := "CastError";
     err_code := None;
     err_message := CastFailed path |}.

Definition from_option {A : Type} (d : A) (o : option A) : A :=
  match o with Some a => a | None => d end.

(** The document that a validated object becomes. *)
Definition to_doc (sch : Schema) (id : N) (d : DonorData.t) : Doc.t :=
  {| Doc._id := id;
     Doc.name := trim (from_option "" (DonorData.name d));
     Doc.age := from_option (Int 0) (DonorData.age d);
     Doc.blood_group := from_option "" (DonorData.blood_group d);
     Doc.contact_number := from_option "" (DonorData.contact_number d);
     Doc.email := from_option "" (DonorData.email d);
     Doc.address := from_option "" (DonorData.address d);
     Doc.last_donation_date :=
       match DonorData.last_donation_date d with
       | Some (DateValue t) => Some t
       | _ => None
       end;
     Doc.latitude := if declares_geo sch then DonorData.latitude d else None;
     Doc.longitude := if declares_geo sch then DonorData.longitude d else None |}.

(** [Donor.create(data)]: validate against the schema, then insert; the insert
    fails on the unique index when a stored document has the same [email]
    (compared as stored: the index has no collation). *)
Definition Donor_create (sch : Schema) (st : Store) (d : DonorData.t)
  : Store * (Doc.t + JsError) :=
  match invalid_paths sch d with
  | (_ :: _) as paths => (st, inr (ValidationError paths))
  | [] =>
      let doc := to_doc sch (next_id st) d in
      if existsb (fun x => String.eqb (Doc.email x) (Doc.email doc)) (docs st)
      then (st, inr DuplicateKeyError)
      else ({| docs := docs st ++ [doc]; next_id := N.succ (next_id st) |}, inl doc)
  end.

(** The query documents that the service builds. *)
#[warnings="-register-all"] Inductive Query : Type :=
| BloodGroupIs (v : string)        (* { blood_group: v } *)
| LastDonationIsNull               (* { last_donation_date: null } *)
| LastDonationLte (d : Z)          (* { last_donation_date: { $lte: d } } *)
| QOr (qs : list Query).           (* { $or: [...] } *)

Fixpoint matches (q : Query) (d : Doc.t) : bool :=
  match q with
  | BloodGroupIs v => String.eqb (Doc.blood_group d) v
  | LastDonationIsNull =>
      match Doc.last_donation_date d with None => true | Some _ => false end
  | LastDonationLte th =>
      match Doc.last_donation_date d with None => false | Some t => t <=? th end
  | QOr qs => existsb (fun q' => matches q' d) qs
  end.

(** A query object is the conjunction of its entries. *)
Definition matches_all (qs : list Query) (d : Doc.t) : bool :=
  forallb (fun q => matches q d) qs.

(** The value of the [createdAt] path of a document: no document has it. *)
Definition createdAt (d : Doc.t) : option Z := None.

(** Order of sort keys: a missing value sorts below every date. *)
Definition key_leb (a b : option Z) : bool :=
  match a, b with
  | None, _ => true
  | Some _, None => false
  | Some x, Some y => x <=? y
  end.

(** [.sort({ key: -1 })]: descending by key; documents with equal keys keep
    the order in which the collection holds them. *)
Fixpoint insert_desc (key : Doc.t -> option Z) (d : Doc.t) (l : list Doc.t) : list Doc.t :=
  match l with
  | [] => [d]
  | x :: r => if key_leb (key x) (key d) then d :: l else x :: insert_desc key d r
  end.

Definition sort_desc (key : Doc.t -> option Z) (l : list Doc.t) : list Doc.t :=
  fold_right (insert_desc key) [] l.

(** [Donor.find(query)]; [fault] is the error of the driver when the call
    fails (connection lost, ...). *)
Definition Donor_find (fault : option JsError) (st : Store) (query : list Query)
  : list Doc.t + JsError :=
  match fault with
  | Some e => inr e
  | None => inl (filter (matches_all query) (docs st))
  end.

Definition Donor_countDocuments (fault : option JsError) (st : Store) : Z + JsError :=
  match fault with
  | Some e => inr e
  | None => inl (Z.of_nat (List.length (docs st)))
  end.

(** The value of [$avg]: a rational (the sum and the quotient that the
    server computes in doubles are idealised by the exact ones), an infinity,
    or [NaN]. *)
Inductive Average : Type :=
| Mean (q : Q)
| MeanInfinity (negative : bool)
| MeanNaN.

Coercion Mean : Q >-> Average.

(** One output document of the aggregation: a blood group with the number
    of its records and their average age. *)
Module Group.
Record t : Type := mk {
  _id : string;
  count : Z;
  avgAge : Average
}.
End Group.

(** The sum of two numbers, exact on the integers; an infinity absorbs every
    integer, two infinities of opposite sign give [NaN], and so does [NaN]
    with anything. *)
Definition number_add (x y : Number) : Number :=
  match x, y with
  | NaN, _ => NaN
  | _, NaN => NaN
  | Int a, Int b => Int (a + b)
  | Infinity a, Int _ => Infinity a
  | Int _, Infinity b => Infinity b
  | Infinity a, Infinity b => if Bool.eqb a b then Infinity a else NaN
  end.

(** The [$group] stage keeps, per key, the running [$sum: 1] and the sum
    of the ages that [$avg] divides by their number at the end; a key enters
    the list when its first document is read. *)
Fixpoint accumulate (g : string) (a : Number) (acc : list (string * (Z * Number)))
  : list (string * (Z * Number)) :=
  match acc with
  | [] => [(g, (1, a))]
  | (k, (c, sum)) :: r =>
      if String.eqb k g then (k, (c + 1, number_add sum a)) :: r
      else (k, (c, sum)) :: accumulate g a r
  end.

Definition group_stage (ds : list Doc.t) : list (string * (Z * Number)) :=
  fold_left (fun acc d => accumulate (Doc.blood_group d) (Doc.age d) acc) ds [].

Definition finish_group (e : string * (Z * Number)) : Group.t :=
  let '(k, (c, sum)) := e in
  {| Group._id := k; Group.count := c;
     Group.avgAge :=
       match sum with
       | Int sm => Mean (Qred (sm # Z.to_pos c))
       | Infinity b => MeanInfinity b
       | NaN => MeanNaN
       end |}.

(** The [$sort: { _id: 1 }] stage: ascending by label, strings compared
    byte by byte. *)
Fixpoint insert_asc (g : Group.t) (l : list Group.t) : list Group.t :=
  match l with
  | [] => [g]
  | x :: r =>
      if String.leb (Group._id g) (Group._id x) then g :: l
      else x :: insert_asc g r
  end.

Definition sort_stage (l : list Group.t) : list Group.t :=
  fold_right insert_asc [] l.

(** [Donor.aggregate([{ $group: ... }, { $sort: { _id: 1 } }])] *)
Definition Donor_aggregate (fault : option JsError) (st : Store)
  : list Group.t + JsError :=
  match fault with
  | Some e => inr e
  | None => inl (sort_stage (map finish_group (group_stage (docs st))))
  end.

(** The records of blood group [g], how many they are, their ages, and the
    sum of those of their ages that are integers. *)
Definition in_group (g : string) (d : Doc.t) : bool := String.eqb (Doc.blood_group d) g.

Definition count_of (g : string) (ds : list Doc.t) : Z :=
  Z.of_nat (List.length (filter (in_group g) ds)).

Definition ages_of (g : string) (ds : list Doc.t) : list Number :=
  map Doc.age (filter (in_group g) ds).

Definition int_value (n : Number) : Z :=
  match n with Int z => z | _ => 0 end.

Definition sum_of (g : string) (ds : list Doc.t) : Z :=
  fold_right Z.add 0 (map int_value (ages_of g ds)).

Definition is_int (n : Number) : Prop :=
  match n with Int _ => True | _ => False end.

Section ById.

(** The cast of an identifier string to an ObjectId; [None] when the
    string is not a well-formed key. *)
Variable castObjectId : string -> option N.

(** [Donor.findById(id)]: a cast failure rejects with a [CastError]. *)
Definition Donor_findById (st : Store) (id : string) : option Doc.t + JsError :=
  match castObjectId id with
  | None => inr (CastError "_id")
  | Some oid => inl (find (fun d => N.eqb (Doc._id d) oid) (docs st))
  end.

(** [Donor.findByIdAndDelete(id)]: removes the document and returns it. *)
Definition Donor_findByIdAndDelete (st : Store) (id : string)
  : Store * (option Doc.t + JsError) :=
  match castObjectId id with
  | None => (st, inr (CastError "_id"))
  | Some oid =>
      match find (fun d => N.eqb (Doc._id d) oid) (docs st) with
      | None => (st, inl None)
      | Some d =>
          ({| docs := filter (fun x => negb (N.eqb (Doc._id x) oid)) (docs st);
              next_id := next_id st |}, inl (Some d))
      end
  end.

(* ---------------------------------------------------------------- *)
(** *** [getDonorById] and [deleteDonor] *)

(** The [catch] block shared by both: a [CastError] becomes
    'Invalid donor ID format', anything else is thrown again. *)
Definition catch_cast_error {A : Type} (error : JsError) : Outcome A :=
  if String.eqb (err_name error) "CastError"
  then Thrown (new_Error "Invalid donor ID format")
  else Thrown error.

Definition getDonorById (st : Store) (donorId : string) : Outcome Doc.t :=
  match Donor_findById st donorId with
  | inr error => catch_cast_error error
  | inl None => catch_cast_error (new_Error "Donor not found")
  | inl (Some donor) => Returned donor
  end.

Definition deleteDonor (st : Store) (donorId : string) : Store * Outcome Doc.t :=
  match Donor_findByIdAndDelete st donorId with
  | (st', inr error) => (st', catch_cast_error error)
  | (st', inl None) => (st', catch_cast_error (new_Error "Donor not found"))
  | (st', inl (Some donor)) => (st', Returned donor)
  end.

End ById.

(** The cast of a 24-digit hexadecimal string, the textual form of an
    ObjectId. *)
Fixpoint hex_value (s : string) (acc : N) : option N :=
  match s with
  | EmptyString => Some acc
  | String c s' =>
      match digit_value c with
      | Some d => if d <? 16 then hex_value s' (acc * 16 + Z.to_N d)%N else None
      | None => None
      end
  end.

Definition castObjectId_hex24 (s : string) : option N :=
  if Nat.eqb (String.length s) 24 then hex_value s 0%N else None.

(* ------------------------------------------------------------------ *)
(** *** [createDonor] *)

Definition createDonor (sch : Schema) (st : Store) (donorData : DonorData.t)
  : Store * Outcome Doc.t :=
  match Donor_create sch st donorData with
  | (st', inl donor) => (st', Returned donor)
  | (st', inr error) =>
      if is_duplicate_key error
      then (st', Thrown (new_Error "Email already exists"))
      else (st', Thrown error)
  end.

(* ------------------------------------------------------------------ *)
(** *** [getAllDonors] *)

Record Filters : Type := {
  f_blood_group : option string;
  f_isEligible : JsValue
}.

(** [const d = new Date(); d.setDate(d.getDate() - 90)] at time [now] *)
Definition ninetyDaysAgo (tz : tzinfo) (now : Z) : Z :=
  setDate tz now (getDate tz now - 90).

(** The query object built from the filters.  The filter value stands for a
    blood-group label, ASCII text, and is put in upper case as such. *)
Definition build_query (tz : tzinfo) (now : Z) (filters : Filters) : list Query :=
  (if truthy (f_blood_group filters)
   then [BloodGroupIs (toUpperCase (from_option "" (f_blood_group filters)))]
   else [])
  ++
  (if strict_eq_string (f_isEligible filters) "true"
   then [QOr [LastDonationIsNull; LastDonationLte (ninetyDaysAgo tz now)]]
   else []).

(** [select('-__v')] drops the version key, which the model of a document
    does not carry. *)
Definition getAllDonors (tz : tzinfo) (now : Z) (fault : option JsError)
    (st : Store) (filters : Filters) : Outcome (list Doc.t) :=
  match Donor_find fault st (build_query tz now filters) with
  | inl donors => Returned (sort_desc createdAt donors)
  | inr error => Thrown (new_Error_from "Error fetching donors: " error)
  end.

(** A record is inside the eligibility window that ends at [threshold]: it
    has no last donation date, or one not later than [threshold]. *)
Definition donated_by (threshold : Z) (d : Doc.t) : bool :=
  match Doc.last_donation_date d with
  | None => true
  | Some t => t <=? threshold
  end.

(** The window in plain terms: never donated, or donated at least 90 days of
    24 hours before [now]. *)
Definition eligible (now : Z) (d : Doc.t) : bool :=
  donated_by (now - 90 * msPerDay) d.

(** The blood-group restriction in plain terms: none without a filter value,
    else equality with the upper-cased filter value. *)
Definition blood_group_selected (bg : option string) (d : Doc.t) : bool :=
  match bg with
  | None => true
  | Some v => if String.eqb v "" then true else String.eqb (Doc.blood_group d) (toUpperCase v)
  end.

(* ------------------------------------------------------------------ *)
(** *** [getDonorStatistics] *)

Module Statistics.
Record t : Type := mk {
  total : Z;
  byBloodGroup : list Group.t
}.
End Statistics.

Definition getDonorStatistics (fault_aggregate fault_count : option JsError)
    (st : Store) : Outcome Statistics.t :=
  match Donor_aggregate fault_aggregate st with
  | inr error =>
      Thrown (new_Error_from "Error fetching statistics: " error)
  | inl stats =>
      match Donor_countDocuments fault_count st with
      | inr error =>
          Thrown (new_Error_from "Error fetching statistics: " error)
      | inl n => Returned {| Statistics.total := n; Statistics.byBloodGroup := stats |}
      end
  end.

(* ================================================================== *)
(** ** [importDonorsFromCSV] *)

(** An entry of the report's [errors] array. *)
Inductive ErrorEntry : Type :=
| ParseError (line : Z) (data : Row.t) (error : string)
| FailedInsert (data : DonorData.t) (error : Message)
| DuplicateEntry (email : option string) (error : string).

Module Report.
Record t : Type := mk {
  total : Z;
  successful : Z;
  duplicates : Z;
  failed : Z;
  errors : list ErrorEntry
}.
End Report.

(** The [results] object of the insertion loop. *)
Module Results.
Record t : Type := mk {
  successful : list Doc.t;
  failed : list ErrorEntry;
  duplicates : list ErrorEntry
}.
Definition empty : t := mk [] [] [].
End Results.

(** The promise that the method returns: settled at most once. *)
Inductive Promise : Type :=
| Pending
| Resolved (report : Report.t)
| Rejected (error : JsError).

Definition resolve (report : Report.t) (p : Promise) : Promise :=
  match p with Pending => Resolved report | _ => p end.

Definition reject (error : JsError) (p : Promise) : Promise :=
  match p with Pending => Rejected error | _ => p end.

(** What the streams emit.  The handlers of the method are registered on the
    CSV parser, the stream that [pipe] returns; the file stream that feeds it
    has no listener of the method's own. *)
Inductive Event : Type :=
| ParserData (row : Row.t)
| ParserEnd
| ParserError (message : string)
| FileError (message : string).

(** [Date.parse]: the time value of a date string, [None] when the string is
    not a date (which formats are read is left to the engine). *)
Class DateParser : Type := {
  Date_parse : string -> option Z
}.

(** The store behind [Donor.create], as the import sees it: any state, and
    any function from a state and an object to the next state and either the
    stored document or the error thrown. *)
Class DonorModel (DB : Type) : Type := {
  create : DB -> DonorData.t -> DB * (Doc.t + JsError)
}.

(** The Mongoose model of a schema is such a store. *)
#[global] Instance mongoose_model (sch : Schema) : DonorModel Store := {
  create := Donor_create sch
}.

(** A parser for the date-only form [YYYY-MM-DD] (read as UTC midnight); it
    reads nothing else. *)
Fixpoint all_digits (s : string) : bool :=
  match s with
  | EmptyString => true
  | String c r => (48 <=? code c) && (code c <=? 57) && all_digits r
  end.

Definition digits_value (s : string) : option Z :=
  if all_digits s then parse_digits 10 s None else None.

Definition parse_date_only (s : string) : option Z :=
  if negb (Nat.eqb (String.length s) 10) then None
  else
    match digits_value (substring 0 4 s), substring 4 1 s,
          digits_value (substring 5 2 s), substring 7 1 s,
          digits_value (substring 8 2 s) with
    | Some y, "-", Some m, "-", Some d =>
        if (1 <=? m) && (m <=? 12) && (1 <=? d) && (d <=? 31)
        then Some (MakeDate (MakeDay y (m - 1) d) 0)
        else None
    | _, _, _, _, _ => None
    end.

#[global] Instance date_only_parser : DateParser := {
  Date_parse := parse_date_only
}.

(** An object has a name and an email. *)
Definition has_name_and_email (d : DonorData.t) : bool :=
  truthy (DonorData.name d) && truthy (DonorData.email d).

Section Ingestion.

Context `{DP : DateParser} `{CM : CaseMapping} {DB : Type} `{DM : DonorModel DB}.

(** [new Date(s)] *)
Definition new_Date (s : string) : Date :=
  match Date_parse s with
  | Some t => DateValue t
  | None => InvalidDate
  end.

(** The object built from a row ("Clean and transform CSV data"). *)
Definition transform (row : Row.t) : DonorData.t :=
  {| DonorData.name := Some (str_or (option_map trim (Row.name row)) "");
     DonorData.age := Some (num_or (parseInt (Row.age row)) (Int 0));
     DonorData.blood_group :=
       Some (str_or (option_map (fun s => String_toUpperCase (trim s))
                                (Row.blood_group row)) "");
     DonorData.contact_number :=
       Some (str_or (option_map trim (Row.contact_number row)) "");
     DonorData.email :=
       Some (str_or (option_map (fun s => String_toLowerCase (trim s))
                                (Row.email row)) "");
     DonorData.address := Some (str_or (option_map trim (Row.address row)) "");
     DonorData.last_donation_date :=
       if truthy (Row.last_donation_date row)
       then Some (new_Date (from_option "" (Row.last_donation_date row)))
       else None;
     DonorData.latitude := None;
     DonorData.longitude := None |}.

(** The variables of the method's closure, the promise, the store, and the
    log of the objects passed to [Donor.create] so far.  [uncaught] collects
    the errors emitted where nothing listens for them. *)
Record ImportState : Type := {
  donors : list DonorData.t;
  errors : list ErrorEntry;
  lineNumber : Z;
  promise : Promise;
  db : DB;
  create_calls : list DonorData.t;
  uncaught : list string
}.

(** The ['data'] handler.  Nothing in the transformation throws on a row of
    strings, so the [catch] branch of the handler is never taken. *)
Definition on_data (row : Row.t) (s : ImportState) : ImportState :=
  let lineNumber' := lineNumber s + 1 in
  let donor := transform row in
  if negb (truthy (DonorData.name donor)) || negb (truthy (DonorData.email donor))
  then {| donors := donors s;
          errors := errors s ++
            [ParseError lineNumber' row "Missing required fields (name or email)"];
          lineNumber := lineNumber';
          promise := promise s; db := db s;
          create_calls := create_calls s; uncaught := uncaught s |}
  else {| donors := donors s ++ [donor];
          errors := errors s;
          lineNumber := lineNumber';
          promise := promise s; db := db s;
          create_calls := create_calls s; uncaught := uncaught s |}.

(** The loop [for (const donorData of donors)]: one awaited [Donor.create]
    per object, its outcome pushed on one of the three arrays. *)
Fixpoint insert_each (ds : list DonorData.t) (st : DB) (calls : list DonorData.t)
    (results : Results.t) : DB * list DonorData.t * Results.t :=
  match ds with
  | [] => (st, calls, results)
  | donorData :: rest =>
      let '(st', outcome) := create st donorData in
      let results' :=
        match outcome with
        | inl donor =>
            Results.mk (Results.successful results ++ [donor])
                       (Results.failed results) (Results.duplicates results)
        | inr error =>
            if is_duplicate_key error
            then
              Results.mk (Results.successful results) (Results.failed results)
                (Results.duplicates results ++
                   [DuplicateEntry (DonorData.email donorData) "Email already exists"])
            else
              Results.mk (Results.successful results)
                (Results.failed results ++
                   [FailedInsert donorData (err_message error)])
                (Results.duplicates results)
        end in
      insert_each rest st' (calls ++ [donorData]) results'
  end.

(** The ['end'] handler.  Every error of [Donor.create] is caught inside the
    loop, so the outer [catch] (which would reject with the error) is never
    taken; the [console.log] lines have no part in the result.  The handler
    is taken as one step: a stream that has ended emits nothing while the
    handler awaits the store. *)
Definition on_end (s : ImportState) : ImportState :=
  if Nat.eqb (List.length (donors s)) 0
  then {| donors := donors s; errors := errors s; lineNumber := lineNumber s;
          promise := reject (new_Error "No valid donor records found in CSV") (promise s);
          db := db s; create_calls := create_calls s; uncaught := uncaught s |}
  else
    let '(st', calls', results) :=
      insert_each (donors s) (db s) (create_calls s) Results.empty in
    let report :=
      {| Report.total := Z.of_nat (List.length (donors s));
         Report.successful := Z.of_nat (List.length (Results.successful results));
         Report.duplicates := Z.of_nat (List.length (Results.duplicates results));
         Report.failed := Z.of_nat (List.length (Results.failed results));
         Report.errors :=
           errors s ++ Results.failed results ++ Results.duplicates results |} in
    {| donors := donors s; errors := errors s; lineNumber := lineNumber s;
       promise := resolve report (promise s);
       db := st'; create_calls := calls'; uncaught := uncaught s |}.

(** The ['error'] handler. *)
Definition on_error (message : string) (s : ImportState) : ImportState :=
  {| donors := donors s; errors := errors s; lineNumber := lineNumber s;
     promise := reject (new_Error ("CSV reading error: " ++ message)) (promise s);
     db := db s; create_calls := create_calls s; uncaught := uncaught s |}.

(** Delivery of one event.  An ['error'] emitted by the file stream finds no
    listener: the emitter throws it, and no handler of the method runs. *)
Definition dispatch (s : ImportState) (ev : Event) : ImportState :=
  match ev with
  | ParserData row => on_data row s
  | ParserEnd => on_end s
  | ParserError message => on_error message s
  | FileError message =>
      {| donors := donors s; errors := errors s; lineNumber := lineNumber s;
         promise := promise s; db := db s; create_calls := create_calls s;
         uncaught := uncaught s ++ [message] |}
  end.

Definition initial_state (st : DB) : ImportState :=
  {| donors := []; errors := []; lineNumber := 1; promise := Pending;
     db := st; create_calls := []; uncaught := [] |}.

(** [importDonorsFromCSV(filePath)]: [file_exists] is the answer of
    [fs.existsSync(filePath)], [events] what the streams emit afterwards. *)
Definition importDonorsFromCSV (file_exists : bool) (filePath : string)
    (events : list Event) (st : DB) : ImportState :=
  if negb file_exists
  then {| donors := []; errors := []; lineNumber := 1;
          promise := Rejected (new_Error ("CSV file not found at path: " ++ filePath));
          db := st; create_calls := []; uncaught := [] |}
  else fold_left dispatch events (initial_state st).

(** The events of a stream that delivers [rows] and then finishes with [fin]. *)
Definition stream_of (rows : list Row.t) (fin : list Event) : list Event :=
  map ParserData rows ++ fin.

(* ------------------------------------------------------------------ *)
(** *** What the import is expected to compute, stated on the list of rows *)

(** A row passes the check of the ['data'] handler: its transformed name and
    email are both non-empty. *)
Definition row_valid (row : Row.t) : bool :=
  truthy (DonorData.name (transform row)) && truthy (DonorData.email (transform row)).

(** The candidate set, in row order. *)
Definition candidates (rows : list Row.t) : list DonorData.t :=
  map transform (filter row_valid rows).

(** The parse errors of the rows that follow line [line]. *)
Fixpoint parse_errors (line : Z) (rows : list Row.t) : list ErrorEntry :=
  match rows with
  | [] => []
  | row :: rest =>
      (if row_valid row then []
       else [ParseError (line + 1) row "Missing required fields (name or email)"])
      ++ parse_errors (line + 1) rest
  end.

(** One [create] call per object, in order; each object with its outcome. *)
Fixpoint create_all (ds : list DonorData.t) (st : DB)
  : DB * list (DonorData.t * (Doc.t + JsError)) :=
  match ds with
  | [] => (st, [])
  | d :: rest =>
      let '(st', o) := create st d in
      let '(st'', os) := create_all rest st' in
      (st'', (d, o) :: os)
  end.

Inductive Class : Type := Successful | Duplicate | Failed.

Definition classify (o : Doc.t + JsError) : Class :=
  match o with
  | inl _ => Successful
  | inr e => if is_duplicate_key e then Duplicate else Failed
  end.

Definition Class_eqb (a b : Class) : bool :=
  match a, b with
  | Successful, Successful | Duplicate, Duplicate | Failed, Failed => true
  | _, _ => false
  end.

Definition count_class (c : Class) (os : list (DonorData.t * (Doc.t + JsError))) : Z :=
  Z.of_nat (List.length (filter (fun o => Class_eqb (classify (snd o)) c) os)).

Definition failed_entry (o : DonorData.t * (Doc.t + JsError)) : list ErrorEntry :=
  match snd o with
  | inl _ => []
  | inr e =>
      match classify (snd o) with
      | Failed => [FailedInsert (fst o) (err_message e)]
      | _ => []
      end
  end.

Definition duplicate_entry (o : DonorData.t * (Doc.t + JsError)) : list ErrorEntry :=
  match classify (snd o) with
  | Duplicate => [DuplicateEntry (DonorData.email (fst o)) "Email already exists"]
  | _ => []
  end.

Definition successful_doc (o : DonorData.t * (Doc.t + JsError)) : list Doc.t :=
  match snd o with
  | inl doc => [doc]
  | inr _ => []
  end.

End Ingestion.

Arguments ImportState : clear implicits.

(* ================================================================== *)
(** ** Sample data *)

(** A CSV file of four rows: a donor, a row without a name, a second row for
    the first donor's email in another case, and a row without a blood
    group and with a non-numeric age. *)
Definition sample_ann : Row.t :=
  Row.mk (Some "  Ann Perera ") (Some "34") (Some "a+") (Some " 0771234567")
         (Some "Ann@Example.org ") (Some "Kandy") (Some "2024-02-29").
Definition sample_nameless : Row.t :=
  Row.mk (Some "   ") (Some "41") (Some "B-") (Some "0712223334")
         (Some "nobody@example.org") (Some "Galle") None.
Definition sample_ann_again : Row.t :=
  Row.mk (Some "Ann P.") (Some "35") (Some "A+") (Some "0771234567")
         (Some "ann@example.ORG") (Some "Kandy") (Some "").
Definition sample_no_group : Row.t :=
  Row.mk (Some "Raj") (Some "abc") None (Some "0755556667")
         (Some "raj@example.org") (Some "Jaffna") None.

Definition sample_rows : list Row.t :=
  [sample_ann; sample_nameless; sample_ann_again; sample_no_group].

(** U+00A0 NO-BREAK SPACE and U+FEFF ZERO WIDTH NO-BREAK SPACE, and a row
    whose name is a no-break space. *)
Definition nbsp : string :=
  String (ascii_of_nat 194) (String (ascii_of_nat 160) EmptyString).
Definition bom : string :=
  String (ascii_of_nat 239) (String (ascii_of_nat 187) (String (ascii_of_nat 191) EmptyString)).

Definition sample_nbsp_name : Row.t :=
  Row.mk (Some nbsp) (Some "29") (Some "O+") (Some "0700000000")
         (Some "nobody@example.org") (Some "Colombo") None.

(** Two donors as [createDonor] receives them, the documents they become (Ann
    first), and the store that holds both. *)
Definition sample_now : Z := 1767268800000.          (* 2026-01-01T12:00:00Z *)

Definition sample_data_ann : DonorData.t :=
  DonorData.mk (Some "Ann Perera") (Some (Int 34)) (Some "A+") (Some "0771234567")
               (Some "ann@example.org") (Some "Kandy")
               (Some (DateValue 1709164800000)) (Some (7 # 1)) (Some (80 # 1)).
Definition sample_data_raj : DonorData.t :=
  DonorData.mk (Some "Raj") (Some (Int 52)) (Some "O-") (Some "0755556667")
               (Some "raj@example.org") (Some "Jaffna")
               (Some (DateValue (sample_now - 10 * msPerDay)))
               (Some (9 # 1)) (Some (80 # 1)).

Definition sample_doc_ann : Doc.t := to_doc donorSchema 0 sample_data_ann.
Definition sample_doc_raj : Doc.t := to_doc donorSchema 1 sample_data_raj.

Definition sample_store : Store :=
  {| docs := [sample_doc_ann; sample_doc_raj]; next_id := 2 |}.

(** A zone one hour ahead of UTC, two hours ahead in summer time, which ends
    at 01:00 UTC on 25 October 2026; and a noon shortly after. *)
Definition sample_dst_zone : tzinfo :=
  {| LocalTZA_at_utc := fun t => if t <? 1792890000000 then 7200000 else 3600000;
     LocalTZA_at_local := fun t => if t <? 1792897200000 then 7200000 else 3600000 |}.
Definition sample_now_winter : Z := 1793534400000.   (* 2026-11-01T12:00:00Z *)

(** Ann once more, her email in another case. *)
Definition sample_data_ann_upper : DonorData.t :=
  DonorData.mk (Some "Ann Perera") (Some (Int 34)) (Some "A+") (Some "0771234567")
               (Some "ANN@Example.org") (Some "Kandy")
               (Some (DateValue 1709164800000)) (Some (7 # 1)) (Some (80 # 1)).

(** Three records for the statistics: B- aged 50, then A+ aged 30 and 40. *)
Definition sample_stats_store : Store :=
  {| docs :=
       [Doc.mk 0 "Raj" 50 "B-" "0755556667" "raj@example.org" "Jaffna" None None None;
        Doc.mk 1 "Ann Perera" 30 "A+" "0771234567" "ann@example.org" "Kandy" None None None;
        Doc.mk 2 "Mala" 40 "A+" "0723334445" "mala@example.org" "Matara" None None None];
     next_id := 3 |}.

(* ================================================================== *)
(** ** Predicates used to state and prove the properties *)






(** The character of a decimal digit, the string of a sequence of digits
    and the number that the sequence denotes. *)
Definition digit_char (d : Z) : ascii := ascii_of_N (Z.to_N (48 + d)).

Fixpoint digit_string (ds : list Z) : string :=
  match ds with
  | [] => EmptyString
  | d :: r => String (digit_char d) (digit_string r)
  end.





(** A predicate that holds at every point of a block of [2 ^ depth]
    consecutive integers, checked by halving the block. *)
Fixpoint all_in_block (depth : nat) (lo : Z) (p : Z -> bool) : bool :=
  match depth with
  | O => p lo
  | S k => if all_in_block k lo p then all_in_block k (lo + 2 ^ Z.of_nat k) p else false
  end.

(** Within a 400-year era, the year of the era lies in 0..399 and the day of
    the year in 0..365. *)
Definition era_day_ok (doe : Z) : bool :=
  let yoe := (doe - doe / 1460 + doe / 36524 - doe / 146096) / 365 in
  let doy := doe - (365 * yoe + yoe / 4 - yoe / 100) in
  (146097 <=? doe) ||
  ((0 <=? yoe) && (yoe <=? 399) && (0 <=? doy) && (doy <=? 365)).

(** The sum of a sequence of numbers, taken from the left. *)
Definition number_sum (l : list Number) : Number := fold_left number_add l (Int 0).

(** What the accumulator holds once the records [pre] have been read: one
    entry per blood group met, with the number and the sum of the ages of its
    records. *)
Definition groups_of (pre : list Doc.t) (acc : list (string * (Z * Number))) : Prop :=
  NoDup (map fst acc)
  /\ (forall k c sm, In (k, (c, sm)) acc ->
        0 < c /\ c = count_of k pre /\ sm = number_sum (ages_of k pre))
  /\ (forall d, In d pre -> In (Doc.blood_group d) (map fst acc)).

(** What a sequence of numbers adds up to, told from what occurs in it:
    [NaN] when it holds [NaN] or both infinities, the infinity that it holds
    otherwise, and the sum of its integers when it holds nothing else. *)
Definition holds (n : Number) (l : list Number) : bool :=
  existsb (fun x => match x, n with
                    | NaN, NaN => true
                    | Infinity a, Infinity b => Bool.eqb a b
                    | Int a, Int b => a =? b
                    | _, _ => false
                    end) l.

Definition expected_sum (l : list Number) : Number :=
  if holds NaN l || (holds (Infinity false) l && holds (Infinity true) l) then NaN
  else if holds (Infinity false) l then Infinity false
  else if holds (Infinity true) l then Infinity true
  else Int (fold_right Z.add 0 (map int_value l)).

(** Order of two aggregation outputs by label: at most, and strictly below. *)
Definition label_leb (a b : Group.t) : Prop := String.leb (Group._id a) (Group._id b) = true.
Definition label_ltb (a b : Group.t) : Prop := String.ltb (Group._id a) (Group._id b) = true.

(* ================================================================== *)
(** ** The rest of the service: [updateDonor] and [getDonorsByBloodGroup] *)

(** The paths of an update that fail validation ([runValidators: true]):
    update validators run on the paths that the update sets, and only on
    those.  [None] is a path that the update does not mention. *)
Definition updated_string (path : string) (v : option string) : list string :=
  match v with
  | None => []
  | Some _ => required_string path v
  end.

Definition invalid_update_paths (u : DonorData.t) : list string :=
  updated_string "name" (option_map trim (DonorData.name u))
  ++ updated_string "blood_group" (DonorData.blood_group u)
  ++ updated_string "contact_number" (DonorData.contact_number u)
  ++ updated_string "email" (DonorData.email u)
  ++ updated_string "address" (DonorData.address u).

(** The paths of an update whose value cannot be cast to the type of the
    path: [NaN] for [age], an invalid date for [last_donation_date].  The
    update is cast before it is validated, and a value that cannot be cast
    rejects the call with a [CastError]. *)
Definition uncastable_paths (u : DonorData.t) : list string :=
  cast_number "age" (DonorData.age u)
  ++ match DonorData.last_donation_date u with
     | Some InvalidDate => ["last_donation_date"]
     | _ => []
     end.

Definition UpdateValidationError (paths : list string) : JsError :=
  {| err_name := "ValidationError";
     err_code := None;
     err_message := UpdateValidationFailed paths |}.

(** The document after the update: every path that the update sets is
    replaced ([name] through its [trim] setter; geocoordinates only where the
    schema declares them), the others and [_id] are kept. *)
Definition apply_update (sch : Schema) (u : DonorData.t) (d : Doc.t) : Doc.t :=
  {| Doc._id := Doc._id d;
     Doc.name := match DonorData.name u with Some s => trim s | None => Doc.name d end;
     Doc.age := from_option (Doc.age d) (DonorData.age u);
     Doc.blood_group := from_option (Doc.blood_group d) (DonorData.blood_group u);
     Doc.contact_number := from_option (Doc.contact_number d) (DonorData.contact_number u);
     Doc.email := from_option (Doc.email d) (DonorData.email u);
     Doc.address := from_option (Doc.address d) (DonorData.address u);
     Doc.last_donation_date :=
       match DonorData.last_donation_date u with
       | Some (DateValue t) => Some t
       | _ => Doc.last_donation_date d
       end;
     Doc.latitude :=
       match DonorData.latitude u with
       | Some v => if declares_geo sch then Some v else Doc.latitude d
       | None => Doc.latitude d
       end;
     Doc.longitude :=
       match DonorData.longitude u with
       | Some v => if declares_geo sch then Some v else Doc.longitude d
       | None => Doc.longitude d
       end |}.

(** The collection with its first document of identifier [oid] replaced. *)
Fixpoint replace_by_id (oid : N) (d' : Doc.t) (l : list Doc.t) : list Doc.t :=
  match l with
  | [] => []
  | x :: r =>
      if N.eqb (Doc._id x) oid then d' :: r else x :: replace_by_id oid d' r
  end.

Section UpdateById.

Variable castObjectId : string -> option N.

(** [Donor.findByIdAndUpdate(id, update, { new: true, runValidators: true })]:
    the identifier and the update are cast, the update validated, the
    document looked up and written; the write fails on the unique index when another document has the
    new [email].  The result is the document after the update, or [null]. *)
Definition Donor_findByIdAndUpdate (sch : Schema) (st : Store) (id : string)
    (update : DonorData.t) : Store * (option Doc.t + JsError) :=
  match castObjectId id with
  | None => (st, inr (CastError "_id"))
  | Some oid =>
      match uncastable_paths update with
      | path :: _ => (st, inr (CastError path))
      | [] =>
          match invalid_update_paths update with
          | (_ :: _) as paths => (st, inr (UpdateValidationError paths))
          | [] =>
              match find (fun d => N.eqb (Doc._id d) oid) (docs st) with
              | None => (st, inl None)
              | Some d =>
                  let d' := apply_update sch update d in
                  if existsb (fun x => negb (N.eqb (Doc._id x) oid)
                                       && String.eqb (Doc.email x) (Doc.email d'))
                             (docs st)
                  then (st, inr DuplicateKeyError)
                  else ({| docs := replace_by_id oid d' (docs st);
                           next_id := next_id st |}, inl (Some d'))
              end
          end
      end
  end.

(** The [catch] block of [updateDonor]. *)
Definition catch_update_error {A : Type} (error : JsError) : Outcome A :=
  if String.eqb (err_name error) "CastError"
  then Thrown (new_Error "Invalid donor ID format")
  else if is_duplicate_key error
  then Thrown (new_Error "Email already exists")
  else Thrown error.

Definition updateDonor (sch : Schema) (st : Store) (donorId : string)
    (updateData : DonorData.t) : Store * Outcome Doc.t :=
  match Donor_findByIdAndUpdate sch st donorId updateData with
  | (st', inr error) => (st', catch_update_error error)
  | (st', inl None) => (st', catch_update_error (new_Error "Donor not found"))
  | (st', inl (Some donor)) => (st', Returned donor)
  end.

End UpdateById.

(** [getDonorsByBloodGroup(bloodGroup)], for a label of ASCII characters *)
Definition getDonorsByBloodGroup (fault : option JsError) (st : Store)
    (bloodGroup : string) : Outcome (list Doc.t) :=
  match Donor_find fault st [BloodGroupIs (toUpperCase bloodGroup)] with
  | inl donors => Returned donors
  | inr error =>
      Thrown (new_Error_from "Error fetching donors by blood group: " error)
  end.

(* ================================================================== *)
(** ** The controllers behind the routes *)

(** The body of a JSON response. *)
Inductive Body : Type :=
| DonorBody (donor : Doc.t)
| DonorsBody (donors : list Doc.t)
| MessageBody (message : string) (error : option JsError).

Record Response : Type := {
  status : Z;
  body : Body
}.

Module Controller.

(** [getAllDonors(req, res)]: [Donor.find()] with no condition; the request
    is not read. *)
Definition getAllDonors (fault : option JsError) (st : Store) : Response :=
  match Donor_find fault st [] with
  | inl donors => {| status := 200; body := DonorsBody donors |}
  | inr error =>
      {| status := 500; body := MessageBody "Error fetching donors" (Some error) |}
  end.

(** [getDonorById(req, res)] with [req.params.id = id] *)
Definition getDonorById (castObjectId : string -> option N) (st : Store) (id : string)
  : Response :=
  match Donor_findById castObjectId st id with
  | inl (Some donor) => {| status := 200; body := DonorBody donor |}
  | inl None => {| status := 404; body := MessageBody "Donor not found" None |}
  | inr error =>
      {| status := 500; body := MessageBody "Error fetching donor" (Some error) |}
  end.

End Controller.

(* ================================================================== *)
(** ** Well-formed stores and normal forms *)

(** What the indexes of the collection guarantee: identifiers are unique and
    below the next one to hand out, and emails are unique. *)
Definition store_ok (st : Store) : Prop :=
  NoDup (map Doc._id (docs st))
  /\ NoDup (map Doc.email (docs st))
  /\ Forall (fun d => (Doc._id d < next_id st)%N) (docs st).

(** The sum of the counts, and of the ages, over the aggregation output. *)
Definition total_count (gs : list Group.t) : Z :=
  fold_right Z.add 0 (map Group.count gs).

(** A report is consistent: its three counts add up to its total, which is
    positive, and its [errors] array holds at least the failed and the
    duplicate entries. *)
Definition report_ok (r : Report.t) : Prop :=
  Report.total r = Report.successful r + Report.duplicates r + Report.failed r
  /\ 0 < Report.total r
  /\ Report.failed r + Report.duplicates r <= Z.of_nat (List.length (Report.errors r)).

(** The import run against the Mongoose model of a schema. *)
Definition importIntoCollection `{DP : DateParser} `{CM : CaseMapping} (sch : Schema)
    (file_exists : bool) (filePath : string) (events : list Event) (st : Store)
  : ImportState Store :=
  @importDonorsFromCSV DP CM Store (mongoose_model sch) file_exists filePath events st.

(** The form of a record that the import stored: [email] trimmed, lower-cased
    and not empty; [blood_group] without a lower-case letter; [name] trimmed
    and not empty; no geocoordinates. *)
Definition imported_form (doc : Doc.t) : Prop :=
  no_char is_upper (Doc.email doc) = true
  /\ starts_clean (Doc.email doc) = true
  /\ ends_clean (Doc.email doc) = true
  /\ Doc.email doc <> ""
  /\ no_char is_lower (Doc.blood_group doc) = true
  /\ Doc.name doc <> ""
  /\ starts_clean (Doc.name doc) = true
  /\ ends_clean (Doc.name doc) = true
  /\ Doc.latitude doc = None
  /\ Doc.longitude doc = None.

(** What a document stored by the import is made of: a row that passed the
    handler's check and the schema's validation. *)
Definition stored_from_row `{DP : DateParser} `{CM : CaseMapping} (sch : Schema)
    (doc : Doc.t) : Prop :=
  exists row id, row_valid row = true
                 /\ invalid_paths sch (transform row) = []
                 /\ doc = to_doc sch id (transform row).

(** What holds of the state of an import against the collection [st0],
    whatever the streams emit: the candidates come from rows that passed the
    check, and the collection is [st0] followed by documents made from such
    rows. *)
Definition collection_grows `{DP : DateParser} `{CM : CaseMapping} (sch : Schema)
    (st0 : Store) (s : ImportState Store) : Prop :=
  Forall (fun d => exists row, row_valid row = true /\ d = transform row) (donors s)
  /\ (store_ok st0 -> store_ok (db s))
  /\ exists added, docs (db s) = (docs st0 ++ added)%list
                   /\ Forall (stored_from_row sch) added.

(** An update whose values can be cast: its [age], when it sets one, is a
    number, and its date, when it sets one, is a date. *)
Definition castable (u : DonorData.t) : Prop :=
  DonorData.age u <> Some NaN /\ DonorData.last_donation_date u <> Some InvalidDate.

(** An update that sets [name] to white space, or another required string
    to the empty string. *)
Definition empties_a_required_string (u : DonorData.t) : Prop :=
  (exists s, DonorData.name u = Some s /\ trim s = "")
  \/ DonorData.blood_group u = Some ""
  \/ DonorData.contact_number u = Some ""
  \/ DonorData.email u = Some ""
  \/ DonorData.address u = Some "".

(** An update that sets no path. *)
Definition no_update : DonorData.t :=
  DonorData.mk None None None None None None None None None.

(** The sum of the counts that the [$group] stage holds. *)
Definition raw_total (acc : list (string * (Z * Number))) : Z :=
  fold_right Z.add 0 (map (fun e => fst (snd e)) acc).

(* ================================================================== *)
(** * Properties *)
(** ** The built-ins on some inputs *)

Example parseInt_leading_digits : parseInt (Some " 42abc") = Int 42.
Proof. reflexivity. Qed.

Example parseInt_abc : parseInt (Some "abc") = NaN.
Proof. reflexivity. Qed.

Example parseInt_hexadecimal : parseInt (Some "-0x1F") = Int (-31).
Proof. reflexivity. Qed.

Example parseInt_undefined : parseInt None = NaN.
Proof. reflexivity. Qed.

Example parseInt_after_no_break_space : parseInt (Some (nbsp ++ "7")) = Int 7.
Proof. reflexivity. Qed.

(** [2^53 + 1] lies half way between two doubles and goes to the even one;
    [2^53 + 3] goes up. *)
Example parseInt_above_2_53 :
  parseInt (Some "9007199254740993") = Int 9007199254740992
  /\ parseInt (Some "9007199254740995") = Int 9007199254740996.
Proof. split; reflexivity. Qed.

(** 310 digits denote a number beyond the doubles. *)
Example parseInt_of_310_digits :
  parseInt (Some (digit_string (repeat 9 310))) = Infinity false
  /\ parseInt (Some ("-" ++ digit_string (repeat 9 310))) = Infinity true.
Proof. split; vm_compute; reflexivity. Qed.

Example trim_both_ends : trim "  a b  " = "a b".
Proof. reflexivity. Qed.

Example trim_unicode_whitespace : trim (bom ++ " a b" ++ nbsp) = "a b".
Proof. reflexivity. Qed.

Example trim_no_break_space : trim nbsp = "".
Proof. reflexivity. Qed.

Example toUpperCase_letters_only : toUpperCase " ab+ " = " AB+ ".
Proof. reflexivity. Qed.

Example civil_of_day_epoch : civil_of_day 0 = (1970, 0, 1).
Proof. reflexivity. Qed.

Example civil_of_day_leap_day : civil_of_day 19782 = (2024, 1, 29).
Proof. reflexivity. Qed.

Example civil_of_day_before_epoch : civil_of_day (-1) = (1969, 11, 31).
Proof. reflexivity. Qed.

Example parse_date_only_leap_day :
  parse_date_only "2024-02-29" = Some (19782 * msPerDay).
Proof. reflexivity. Qed.

Example parse_date_only_other_form : parse_date_only "29/02/2024" = None.
Proof. reflexivity. Qed.

(** ** Calendar arithmetic *)


Lemma all_in_block_spec depth : forall lo p,
  all_in_block depth lo p = true ->
  forall z, lo <= z < lo + 2 ^ Z.of_nat depth -> p z = true.
Proof.
  induction depth as [|k IH]; intros lo p H z Hz.
  - simpl in *. replace z with lo by lia. exact H.
  - cbn [all_in_block] in H.
    destruct (all_in_block k lo p) eqn:E; [|discriminate].
    rewrite Nat2Z.inj_succ, Z.pow_succ_r in Hz by lia.
    destruct (Z_lt_le_dec z (lo + 2 ^ Z.of_nat k)).
    + apply (IH lo); [exact E|lia].
    + apply (IH (lo + 2 ^ Z.of_nat k)); [exact H|lia].
Qed.


Lemma era_day_ok_all : forall doe, 0 <= doe < 146097 -> era_day_ok doe = true.
Proof.
  intros doe H.
  destruct (Z_lt_le_dec doe 131072).
  - apply (all_in_block_spec 17 0); [vm_compute; reflexivity|].
    change (2 ^ Z.of_nat 17) with 131072. lia.
  - apply (all_in_block_spec 14 131072); [vm_compute; reflexivity|].
    change (2 ^ Z.of_nat 14) with 16384. lia.
Qed.

(** [MakeDay] applied to the year and month of a day, and to its day of the
    month shifted by [k], is that day shifted by [k]. *)
Lemma MakeDay_civil_of_day (z k : Z) :
  MakeDay (fst (fst (civil_of_day z))) (snd (fst (civil_of_day z)))
          (snd (civil_of_day z) + k) = z + k.
Proof.
  unfold civil_of_day, MakeDay, day_of_month_start.
  set (z' := z + 719468).
  set (era := z' / 146097).
  set (doe := z' - era * 146097).
  assert (Hdoe : 0 <= doe < 146097).
  { subst doe era. pose proof (Z.mod_pos_bound z' 146097 ltac:(lia)).
    rewrite Z.mod_eq in H by lia. lia. }
  pose proof (era_day_ok_all doe Hdoe) as Hok. unfold era_day_ok in Hok.
  set (yoe := (doe - doe / 1460 + doe / 36524 - doe / 146096) / 365) in *.
  set (doy := doe - (365 * yoe + yoe / 4 - yoe / 100)) in *.
  assert (Hr : 0 <= yoe <= 399 /\ 0 <= doy <= 365) by lia.
  destruct Hr as [Hy Hd]. clear Hok.
  set (mp := (5 * doy + 2) / 153).
  assert (Hmp : 0 <= mp <= 11).
  { subst mp. split.
    - apply Z.div_pos; lia.
    - apply Z.lt_succ_r. apply Z.div_lt_upper_bound; lia. }
  cbn [fst snd].
  set (m := if mp <? 10 then mp + 2 else mp - 10).
  assert (Hm : 0 <= m <= 11) by (subst m; destruct (mp <? 10) eqn:E; lia).
  rewrite (Z.div_small m 12), (Z.mod_small m 12) by lia.
  rewrite Z.add_0_r.
  assert (Hy' : (if m <=? 1 then yoe + era * 400 + (if m <=? 1 then 1 else 0) - 1
                 else yoe + era * 400 + (if m <=? 1 then 1 else 0)) = yoe + era * 400).
  { destruct (m <=? 1); lia. }
  rewrite Hy'.
  assert (Hmp' : (if m <=? 1 then m + 10 else m - 2) = mp).
  { subst m. destruct (mp <? 10) eqn:E.
    - destruct (mp + 2 <=? 1) eqn:E2; lia.
    - destruct (mp - 10 <=? 1) eqn:E2; lia. }
  rewrite Hmp'.
  assert (He : (yoe + era * 400) / 400 = era).
  { rewrite Z.div_add by lia. rewrite Z.div_small by lia. lia. }
  rewrite He.
  replace (yoe + era * 400 - era * 400) with yoe by lia.
  assert (Edoy : doy = doe - (365 * yoe + yoe / 4 - yoe / 100)) by reflexivity.
  assert (Edoe : doe = z' - era * 146097) by reflexivity.
  assert (Ez : z' = z + 719468) by reflexivity.
  clearbody mp doy doe z'.
  generalize dependent (yoe / 4). generalize dependent (yoe / 100).
  generalize dependent ((153 * mp + 2) / 5). intros. lia.
Qed.

Lemma MakeDay_shift (t k : Z) :
  MakeDay (YearFromTime t) (MonthFromTime t) (DateFromTime t + k) = Day t + k.
Proof. apply MakeDay_civil_of_day. Qed.

(** Setting the day of the month to [getDate() + k] moves the local time by
    [k] days and converts it back with the offset in force there. *)
Lemma setDate_getDate (tz : tzinfo) (t k : Z) :
  setDate tz t (getDate tz t + k)
  = UTC tz (LocalTime tz t + k * msPerDay).
Proof.
  unfold setDate, getDate. rewrite MakeDay_shift.
  f_equal. unfold MakeDate, Day, TimeWithinDay.
  pose proof (Z.div_mod (LocalTime tz t) msPerDay ltac:(unfold msPerDay; lia)).
  lia.
Qed.

Lemma ninetyDaysAgo_eq (tz : tzinfo) (now : Z) :
  ninetyDaysAgo tz now
  = now - 90 * msPerDay
    + (LocalTZA_at_utc tz now
       - LocalTZA_at_local tz (LocalTime tz now - 90 * msPerDay)).
Proof.
  unfold ninetyDaysAgo.
  replace (getDate tz now - 90) with (getDate tz now + (-90)) by lia.
  rewrite setDate_getDate. unfold UTC.
  replace (LocalTime tz now + -90 * msPerDay) with (LocalTime tz now - 90 * msPerDay) by lia.
  unfold LocalTime. lia.
Qed.

(* ================================================================== *)
(** ** Strings *)



Lemma skip_whitespace_append (s r x : string) :
  skip_whitespace s = Some r -> skip_whitespace (s ++ x) = Some (r ++ x)%string.
Proof.
  destruct s as [|a [|b [|c t]]]; cbn [skip_whitespace append].
  - discriminate.
  - destruct (whitespace1 a); [|discriminate]. intros [= <-].
    destruct x; reflexivity.
  - destruct (whitespace1 a); [now intros [= <-]|].
    destruct (whitespace2 a b); [|discriminate]. intros [= <-].
    destruct x; reflexivity.
  - destruct (whitespace1 a); [now intros [= <-]|].
    destruct (whitespace2 a b); [now intros [= <-]|].
    destruct (whitespace3 a b c); [|discriminate]. now intros [= <-].
Qed.

Lemma skip_whitespace_shorter (s r : string) :
  skip_whitespace s = Some r -> (String.length r < String.length s)%nat.
Proof.
  destruct s as [|a [|b [|c t]]]; cbn [skip_whitespace String.length];
    repeat match goal with
           | |- context [if ?b then _ else _] => destruct b
           end;
    intros [= <-]; cbn [String.length]; lia.
Qed.

(** [trimStart] drops one white-space character after the other. *)
Lemma trimStart_step (s : string) :
  trimStart s = match skip_whitespace s with
                | Some r => trimStart r
                | None => s
                end.
Proof.
  destruct s as [|a [|b [|c t]]]; cbn [skip_whitespace]; [reflexivity| | |].
  - cbn [trimStart]. destruct (whitespace1 a); reflexivity.
  - change (trimStart (String a (String b "")))
      with (if whitespace1 a then trimStart (String b "")
            else if whitespace2 a b then trimStart "" else String a (String b "")).
    destruct (whitespace1 a); [reflexivity|]. destruct (whitespace2 a b); reflexivity.
  - change (trimStart (String a (String b (String c t))))
      with (if whitespace1 a then trimStart (String b (String c t))
            else if whitespace2 a b then trimStart (String c t)
            else if whitespace3 a b c then trimStart t
            else String a (String b (String c t))).
    destruct (whitespace1 a); [reflexivity|]. destruct (whitespace2 a b); [reflexivity|].
    destruct (whitespace3 a b c); reflexivity.
Qed.

Lemma by_length (P : string -> Prop) :
  (forall s, (forall r, (String.length r < String.length s)%nat -> P r) -> P s) ->
  forall s, P s.
Proof.
  intros Hstep s.
  assert (H : forall n r, (String.length r < n)%nat -> P r).
  { induction n as [|n IH]; intros r Hr; [lia|].
    apply Hstep. intros r' Hr'. apply IH. lia. }
  apply (H (S (String.length s))). lia.
Qed.

Lemma trimStart_starts_clean (s : string) : starts_clean (trimStart s) = true.
Proof.
  induction s as [s IH] using by_length.
  rewrite trimStart_step. destruct (skip_whitespace s) as [r|] eqn:Es.
  - apply IH. now apply skip_whitespace_shorter.
  - unfold starts_clean. now rewrite Es.
Qed.

(** A string of white space is empty or starts with a white-space character
    that a string of white space follows. *)
Lemma all_whitespace_step (s : string) :
  all_whitespace s = match s, skip_whitespace s with
                     | EmptyString, _ => true
                     | _, Some r => all_whitespace r
                     | _, None => false
                     end.
Proof.
  destruct s as [|a [|b [|c t]]]; cbn [skip_whitespace]; [reflexivity| | |].
  - cbn [all_whitespace]. destruct (whitespace1 a); reflexivity.
  - change (all_whitespace (String a (String b "")))
      with (if whitespace1 a then all_whitespace (String b "")
            else if whitespace2 a b then all_whitespace "" else false).
    destruct (whitespace1 a); [reflexivity|]. destruct (whitespace2 a b); reflexivity.
  - change (all_whitespace (String a (String b (String c t))))
      with (if whitespace1 a then all_whitespace (String b (String c t))
            else if whitespace2 a b then all_whitespace (String c t)
            else if whitespace3 a b c then all_whitespace t
            else false).
    destruct (whitespace1 a); [reflexivity|]. destruct (whitespace2 a b); [reflexivity|].
    destruct (whitespace3 a b c); reflexivity.
Qed.

Lemma all_whitespace_skip (s r : string) :
  skip_whitespace s = Some r -> all_whitespace s = all_whitespace r.
Proof.
  intros Hs. rewrite (all_whitespace_step s).
  destruct s; [discriminate|]. now rewrite Hs.
Qed.

Lemma skip_whitespace_one (s r : string) :
  skip_whitespace s = Some r ->
  exists w, s = (w ++ r)%string /\ skip_whitespace w = Some "".
Proof.
  destruct s as [|a [|b [|c t]]]; cbn [skip_whitespace]; [discriminate| | |].
  - destruct (whitespace1 a) eqn:E1; [|discriminate]. intros [= <-].
    exists (String a ""). cbn. now rewrite E1.
  - destruct (whitespace1 a) eqn:E1.
    + intros [= <-]. exists (String a ""). cbn. now rewrite E1.
    + destruct (whitespace2 a b) eqn:E2; [|discriminate]. intros [= <-].
      exists (String a (String b "")). cbn. now rewrite E1, E2.
  - destruct (whitespace1 a) eqn:E1.
    + intros [= <-]. exists (String a ""). cbn. now rewrite E1.
    + destruct (whitespace2 a b) eqn:E2.
      * intros [= <-]. exists (String a (String b "")). cbn. now rewrite E1, E2.
      * destruct (whitespace3 a b c) eqn:E3; [|discriminate]. intros [= <-].
        exists (String a (String b (String c ""))). cbn. now rewrite E1, E2, E3.
Qed.

Lemma append_assoc (a b c : string) : ((a ++ b) ++ c = a ++ (b ++ c))%string.
Proof. induction a as [|x a IH]; cbn [append]; [reflexivity|now rewrite IH]. Qed.


Lemma trimStart_spec (s : string) :
  exists l, s = (l ++ trimStart s)%string /\ all_whitespace l = true.
Proof.
  induction s as [s IH] using by_length.
  rewrite trimStart_step. destruct (skip_whitespace s) as [r|] eqn:Es.
  - destruct (skip_whitespace_one _ _ Es) as (w & -> & Hw).
    destruct (IH r) as (l & Hr & Hl); [now apply skip_whitespace_shorter|].
    exists (w ++ l)%string. split.
    + rewrite append_assoc. now rewrite <- Hr.
    + rewrite (all_whitespace_skip (w ++ l) l); [exact Hl|].
      now apply (skip_whitespace_append w "" l).
  - now exists "".
Qed.

Lemma trimEnd_spec (s : string) :
  exists r, s = (trimEnd s ++ r)%string /\ all_whitespace r = true.
Proof.
  induction s as [|a s (r & Hs & Hr)]; [now exists ""|].
  cbn [trimEnd]. destruct (all_whitespace (String a s)) eqn:Ea.
  - now exists (String a s).
  - exists r. cbn [append]. now rewrite <- Hs.
Qed.

Lemma trimEnd_ends_clean (s : string) : ends_clean (trimEnd s) = true.
Proof.
  unfold ends_clean. apply negb_true_iff.
  induction s as [|a s IH]; [reflexivity|].
  cbn [trimEnd]. destruct (all_whitespace (String a s)) eqn:Ea; [reflexivity|].
  cbn [ends_with_whitespace].
  destruct (skip_whitespace (String a (trimEnd s))) as [[|x y]|] eqn:Es;
    [|exact IH|exact IH].
  exfalso. destruct (trimEnd_spec s) as (r & Hs & Hr).
  pose proof (skip_whitespace_append _ _ r Es) as Hskip.
  cbn [append] in Hskip. rewrite <- Hs in Hskip.
  rewrite (all_whitespace_skip _ _ Hskip), Hr in Ea. discriminate.
Qed.

Lemma trimEnd_starts_clean (s : string) :
  starts_clean s = true -> starts_clean (trimEnd s) = true.
Proof.
  unfold starts_clean. intros Hs.
  destruct (skip_whitespace (trimEnd s)) as [y|] eqn:Es; [|reflexivity].
  destruct (trimEnd_spec s) as (r & Hr & _).
  apply (skip_whitespace_append _ _ r) in Es. rewrite <- Hr in Es.
  now rewrite Es in Hs.
Qed.

(** [trim] removes white space from both ends of a string and nothing else. *)
Lemma trim_spec (s : string) :
  surrounded_by_whitespace s (trim s)
  /\ starts_clean (trim s) = true /\ ends_clean (trim s) = true.
Proof.
  unfold trim.
  destruct (trimStart_spec s) as (l & Hs & Hl).
  destruct (trimEnd_spec (trimStart s)) as (r & Hs' & Hr).
  split; [|split].
  - exists l, r. repeat split; [|exact Hl|exact Hr]. now rewrite <- Hs'.
  - apply trimEnd_starts_clean, trimStart_starts_clean.
  - apply trimEnd_ends_clean.
Qed.

Lemma str_or_trim (f : string -> string) (x : option string) :
  f "" = "" ->
  str_or (option_map f x) "" = f (from_option "" x).
Proof.
  intros Hf. destruct x as [s|]; cbn; [|now rewrite Hf].
  destruct (String.eqb_spec (f s) ""); congruence.
Qed.



(* ================================================================== *)
(** ** Case mapping of the ASCII letters *)



Lemma upper_char_not_lower (c : ascii) : is_lower (upper_char c) = false.
Proof. destruct c as [[] [] [] [] [] [] [] []]; reflexivity. Qed.

Lemma toUpperCase_no_lower (s : string) : no_char is_lower (toUpperCase s) = true.
Proof.
  induction s as [|c s IH]; [reflexivity|].
  cbn [toUpperCase map_string no_char]. now rewrite upper_char_not_lower.
Qed.





(* ================================================================== *)
(** ** [parseInt] *)

















(* ================================================================== *)
(** ** The CSV import *)

Lemma String_toUpperCase_empty `{CM : CaseMapping} : String_toUpperCase "" = "".
Proof. now rewrite toUpperCase_of_ascii. Qed.

Lemma String_toLowerCase_empty `{CM : CaseMapping} : String_toLowerCase "" = "".
Proof. now rewrite toLowerCase_of_ascii. Qed.

Section IngestionProperties.

Context `{DP : DateParser} `{CM : CaseMapping} {DB : Type} `{DM : DonorModel DB}.

(** The object built from a row has every property of the schema but the
    geocoordinates. *)
Lemma transform_name_some (row : Row.t) :
  exists s, DonorData.name (transform row) = Some s.
Proof. eexists. reflexivity. Qed.

Lemma truthy_false_iff (s : string) : truthy (Some s) = false <-> s = "".
Proof.
  unfold truthy. destruct (String.eqb_spec s ""); simpl; split; congruence.
Qed.

Lemma row_valid_false_iff (row : Row.t) :
  row_valid row = false <->
  DonorData.name (transform row) = Some "" \/ DonorData.email (transform row) = Some "".
Proof.
  unfold row_valid. rewrite andb_false_iff.
  cbn [transform DonorData.name DonorData.email].
  rewrite !truthy_false_iff. split; intros [H|H]; [left|right|left|right]; congruence.
Qed.



(** *** The data phase: what the ['data'] handler has accumulated after the
    rows of a stream. *)
Lemma on_data_valid (row : Row.t) (s : ImportState DB) :
  row_valid row = true ->
  on_data row s
  = {| donors := donors s ++ [transform row]; errors := errors s;
       lineNumber := lineNumber s + 1;
       promise := promise s; db := db s;
       create_calls := create_calls s; uncaught := uncaught s |}.
Proof.
  unfold row_valid, on_data. intros Hv. apply andb_true_iff in Hv as [-> ->].
  reflexivity.
Qed.

Lemma on_data_invalid (row : Row.t) (s : ImportState DB) :
  row_valid row = false ->
  on_data row s
  = {| donors := donors s;
       errors := errors s ++
         [ParseError (lineNumber s + 1) row "Missing required fields (name or email)"];
       lineNumber := lineNumber s + 1;
       promise := promise s; db := db s;
       create_calls := create_calls s; uncaught := uncaught s |}.
Proof.
  unfold row_valid, on_data. intros Hv. rewrite <- negb_andb, Hv. reflexivity.
Qed.

Lemma data_phase (rows : list Row.t) : forall s : ImportState DB,
  fold_left dispatch (map ParserData rows) s
  = {| donors := donors s ++ candidates rows;
       errors := errors s ++ parse_errors (lineNumber s) rows;
       lineNumber := lineNumber s + Z.of_nat (List.length rows);
       promise := promise s; db := db s;
       create_calls := create_calls s; uncaught := uncaught s |}.
Proof.
  induction rows as [|row rows IH]; intros s.
  - cbn. rewrite !app_nil_r, Z.add_0_r. destruct s; reflexivity.
  - cbn [map fold_left]. rewrite IH. clear IH.
    unfold candidates. cbn [filter parse_errors List.length dispatch].
    rewrite Nat2Z.inj_succ.
    destruct (row_valid row) eqn:Hv.
    + rewrite (on_data_valid _ _ Hv).
      cbn [donors errors lineNumber promise db create_calls uncaught map app].
      rewrite <- app_assoc. cbn [app]. f_equal. lia.
    + rewrite (on_data_invalid _ _ Hv).
      cbn [donors errors lineNumber promise db create_calls uncaught map app].
      rewrite <- app_assoc. cbn [app]. f_equal. lia.
Qed.

(** *** The insertion loop *)
Lemma insert_each_spec (ds : list DonorData.t) :
  forall (st : DB) (calls : list DonorData.t) (results : Results.t),
  insert_each ds st calls results
  = (fst (create_all ds st),
     (calls ++ ds)%list,
     Results.mk
       (Results.successful results ++ flat_map successful_doc (snd (create_all ds st)))%list
       (Results.failed results ++ flat_map failed_entry (snd (create_all ds st)))%list
       (Results.duplicates results ++ flat_map duplicate_entry (snd (create_all ds st)))%list).
Proof.
  induction ds as [|d ds IH]; intros st calls results.
  - cbn. rewrite !app_nil_r. destruct results; reflexivity.
  - cbn [insert_each create_all].
    destruct (create st d) as [st' o] eqn:Ec.
    rewrite IH. destruct (create_all ds st') as [st'' os] eqn:Ea.
    cbn [fst snd flat_map]. rewrite <- app_assoc. cbn [app].
    f_equal. 
    destruct o as [doc|e].
    + cbn [Results.successful Results.failed Results.duplicates].
      unfold successful_doc at 2, failed_entry at 2, duplicate_entry at 2.
      cbn [snd fst classify app]. rewrite <- app_assoc. reflexivity.
    + unfold successful_doc at 2, failed_entry at 2, duplicate_entry at 2.
      cbn [snd fst classify].
      destruct (is_duplicate_key e);
        cbn [Results.successful Results.failed Results.duplicates app];
        rewrite <- ?app_assoc; reflexivity.
Qed.

Lemma create_all_objects (ds : list DonorData.t) : forall st : DB,
  map fst (snd (create_all ds st)) = ds.
Proof.
  induction ds as [|d ds IH]; intros st; [reflexivity|].
  cbn [create_all]. destruct (create st d) as [st' o].
  specialize (IH st'). destruct (create_all ds st') as [st'' os].
  cbn [snd map fst] in *. congruence.
Qed.

Lemma create_all_length (ds : list DonorData.t) (st : DB) :
  List.length (snd (create_all ds st)) = List.length ds.
Proof. rewrite <- (create_all_objects ds st) at 2. now rewrite length_map. Qed.

(** *** Counting the three classes *)
Lemma successful_count (os : list (DonorData.t * (Doc.t + JsError))) :
  Z.of_nat (List.length (flat_map successful_doc os)) = count_class Successful os.
Proof.
  unfold count_class. f_equal.
  induction os as [|[d [doc|e]] os IH]; cbn [flat_map filter]; [reflexivity| |].
  - unfold successful_doc at 1. cbn. now rewrite IH.
  - unfold successful_doc at 1. cbn [snd classify app].
    destruct (is_duplicate_key e); cbn; exact IH.
Qed.

Lemma duplicate_count (os : list (DonorData.t * (Doc.t + JsError))) :
  Z.of_nat (List.length (flat_map duplicate_entry os)) = count_class Duplicate os.
Proof.
  unfold count_class. f_equal.
  induction os as [|[d [doc|e]] os IH]; cbn [flat_map filter]; [reflexivity| |].
  - unfold duplicate_entry at 1. cbn. exact IH.
  - unfold duplicate_entry at 1. cbn [snd classify app].
    destruct (is_duplicate_key e); cbn; now rewrite IH.
Qed.

Lemma failed_count (os : list (DonorData.t * (Doc.t + JsError))) :
  Z.of_nat (List.length (flat_map failed_entry os)) = count_class Failed os.
Proof.
  unfold count_class. f_equal.
  induction os as [|[d [doc|e]] os IH]; cbn [flat_map filter]; [reflexivity| |].
  - unfold failed_entry at 1. cbn. exact IH.
  - unfold failed_entry at 1. cbn [snd classify app].
    destruct (is_duplicate_key e); cbn; now rewrite IH.
Qed.

(** Every outcome falls in exactly one class, so the counts add up. *)
Lemma classes_partition (os : list (DonorData.t * (Doc.t + JsError))) :
  count_class Successful os + count_class Duplicate os + count_class Failed os
  = Z.of_nat (List.length os).
Proof.
  unfold count_class.
  induction os as [|o os IH]; [reflexivity|].
  cbn [filter List.length]. destruct (classify (snd o)); cbn [Class_eqb List.length]; lia.
Qed.

(** *** The end of the stream *)
Lemma on_end_no_candidate (s : ImportState DB) :
  donors s = [] ->
  on_end s
  = {| donors := donors s; errors := errors s; lineNumber := lineNumber s;
       promise := reject (new_Error "No valid donor records found in CSV") (promise s);
       db := db s; create_calls := create_calls s; uncaught := uncaught s |}.
Proof. unfold on_end. intros ->. reflexivity. Qed.

Lemma on_end_candidates (s : ImportState DB) :
  donors s <> [] ->
  let outcomes := snd (create_all (donors s) (db s)) in
  on_end s
  = {| donors := donors s; errors := errors s; lineNumber := lineNumber s;
       promise :=
         resolve
           {| Report.total := Z.of_nat (List.length (donors s));
              Report.successful := count_class Successful outcomes;
              Report.duplicates := count_class Duplicate outcomes;
              Report.failed := count_class Failed outcomes;
              Report.errors :=
                errors s ++ flat_map failed_entry outcomes
                         ++ flat_map duplicate_entry outcomes |}
           (promise s);
       db := fst (create_all (donors s) (db s));
       create_calls := create_calls s ++ donors s;
       uncaught := uncaught s |}.
Proof.
  intros Hne outcomes. unfold on_end.
  destruct (donors s) as [|d ds] eqn:Ed; [congruence|].
  cbn [List.length Nat.eqb]. rewrite insert_each_spec.
  cbn [Results.successful Results.failed Results.duplicates Results.empty app].
  rewrite successful_count, duplicate_count, failed_count. reflexivity.
Qed.

Lemma donors_empty_or_not (s : ImportState DB) : donors s = [] \/ donors s <> [].
Proof. destruct (donors s); [now left|right; congruence]. Qed.

(** *** What holds after any sequence of events *)

Lemma transform_has_name_and_email (row : Row.t) :
  has_name_and_email (transform row) = row_valid row.
Proof. reflexivity. Qed.

Lemma dispatch_keeps_valid (s : ImportState DB) (ev : Event) :
  Forall (fun d => has_name_and_email d = true) (donors s) ->
  Forall (fun d => has_name_and_email d = true) (create_calls s) ->
  Forall (fun d => has_name_and_email d = true) (donors (dispatch s ev)) /\
  Forall (fun d => has_name_and_email d = true) (create_calls (dispatch s ev)).
Proof.
  intros Hd Hc. destruct ev as [row| |m|m]; cbn [dispatch].
  - destruct (row_valid row) eqn:Hv.
    + rewrite (on_data_valid _ _ Hv). cbn [donors create_calls]. split; [|exact Hc].
      apply Forall_app. split; [exact Hd|]. constructor; [exact Hv|constructor].
    + rewrite (on_data_invalid _ _ Hv). cbn [donors create_calls]. now split.
  - destruct (donors_empty_or_not s) as [Ed|Ed].
    + rewrite (on_end_no_candidate s Ed). cbn [donors create_calls]. now split.
    + rewrite on_end_candidates by exact Ed. cbn [donors create_calls].
      split; [exact Hd|]. apply Forall_app. now split.
  - now split.
  - now split.
Qed.

Lemma events_keep_valid (evs : list Event) : forall s : ImportState DB,
  Forall (fun d => has_name_and_email d = true) (donors s) ->
  Forall (fun d => has_name_and_email d = true) (create_calls s) ->
  Forall (fun d => has_name_and_email d = true) (create_calls (fold_left dispatch evs s)).
Proof.
  induction evs as [|ev evs IH]; intros s Hd Hc; [exact Hc|].
  cbn [fold_left]. destruct (dispatch_keeps_valid s ev Hd Hc). now apply IH.
Qed.

(** A recorded error stays recorded, and a report that resolves the promise
    afterwards carries it. *)
Lemma dispatch_keeps_error (e : ErrorEntry) (s : ImportState DB) (ev : Event) :
  In e (errors s) ->
  (forall r, promise s = Resolved r -> In e (Report.errors r)) ->
  In e (errors (dispatch s ev)) /\
  (forall r, promise (dispatch s ev) = Resolved r -> In e (Report.errors r)).
Proof.
  intros He Hr. destruct ev as [row| |m|m]; cbn [dispatch].
  - destruct (row_valid row) eqn:Hv.
    + rewrite (on_data_valid _ _ Hv). cbn [errors promise]. now split.
    + rewrite (on_data_invalid _ _ Hv). cbn [errors promise]. split; [|exact Hr].
      apply in_or_app. now left.
  - destruct (donors_empty_or_not s) as [Ed|Ed].
    + rewrite (on_end_no_candidate s Ed). cbn [errors promise]. split; [exact He|].
      intros r. destruct (promise s); cbn [reject]; try discriminate. apply Hr.
    + rewrite on_end_candidates by exact Ed. cbn [errors promise].
      split; [exact He|]. intros r.
      destruct (promise s) eqn:Ep; cbn [resolve]; try discriminate.
      * intros [= <-]. cbn [Report.errors]. apply in_or_app. now left.
      * apply Hr.
  - unfold on_error. cbn [errors promise]. split; [exact He|].
    intros r. destruct (promise s); cbn [reject]; try discriminate. apply Hr.
  - cbn [errors promise]. now split.
Qed.

Lemma events_keep_error (e : ErrorEntry) (evs : list Event) :
  forall s : ImportState DB,
  In e (errors s) ->
  (forall r, promise s = Resolved r -> In e (Report.errors r)) ->
  In e (errors (fold_left dispatch evs s)) /\
  (forall r, promise (fold_left dispatch evs s) = Resolved r -> In e (Report.errors r)).
Proof.
  induction evs as [|ev evs IH]; intros s He Hr; [now split|].
  cbn [fold_left]. destruct (dispatch_keeps_error e s ev He Hr). now apply IH.
Qed.

(** The store is written, and [create] called, by the ['end'] handler only. *)
Lemma dispatch_without_end (s : ImportState DB) (ev : Event) :
  ev <> ParserEnd ->
  create_calls (dispatch s ev) = create_calls s /\ db (dispatch s ev) = db s.
Proof.
  intros Hne. destruct ev as [row| |m|m]; cbn [dispatch]; [|congruence|now split|now split].
  destruct (row_valid row) eqn:Hv;
    [rewrite (on_data_valid _ _ Hv)|rewrite (on_data_invalid _ _ Hv)]; now split.
Qed.

Lemma creates_only_at_end (evs : list Event) : forall s : ImportState DB,
  ~ In ParserEnd evs ->
  create_calls (fold_left dispatch evs s) = create_calls s /\
  db (fold_left dispatch evs s) = db s.
Proof.
  induction evs as [|ev evs IH]; intros s Hno; [now split|].
  cbn [fold_left].
  destruct (dispatch_without_end s ev) as [Hc Hd].
  { intros ->. apply Hno. now left. }
  destruct (IH (dispatch s ev)) as [Hc' Hd'].
  { intros Hin. apply Hno. now right. }
  split; congruence.
Qed.

Lemma parse_errors_nth (rows : list Row.t) : forall (line : Z) (i : nat) (row : Row.t),
  nth_error rows i = Some row ->
  row_valid row = false ->
  In (ParseError (line + Z.of_nat i + 1) row "Missing required fields (name or email)")
     (parse_errors line rows).
Proof.
  induction rows as [|r rows IH]; intros line i row Hn Hv.
  - destruct i; discriminate.
  - destruct i as [|i]; cbn [nth_error] in Hn.
    + injection Hn as ->. cbn [parse_errors]. rewrite Hv. left.
      f_equal. cbn. lia.
    + cbn [parse_errors]. apply in_or_app. right.
      replace (line + Z.of_nat (S i) + 1) with ((line + 1) + Z.of_nat i + 1) by lia.
      now apply IH.
Qed.

Lemma candidates_valid (rows : list Row.t) :
  Forall (fun d => has_name_and_email d = true) (candidates rows).
Proof.
  unfold candidates. apply Forall_forall. intros d Hd.
  apply in_map_iff in Hd as (row & <- & Hr). apply filter_In in Hr as [_ Hv].
  exact Hv.
Qed.

(** The state when the rows of a stream have been delivered. *)
Lemma import_after_rows (filePath : string) (rows : list Row.t) (fin : list Event) (st : DB) :
  importDonorsFromCSV true filePath (stream_of rows fin) st
  = fold_left dispatch fin
      {| donors := candidates rows; errors := parse_errors 1 rows;
         lineNumber := 1 + Z.of_nat (List.length rows);
         promise := Pending; db := st; create_calls := []; uncaught := [] |}.
Proof.
  unfold importDonorsFromCSV, stream_of. cbn [negb].
  rewrite fold_left_app, data_phase. reflexivity.
Qed.

(** C1.  When the candidate set is not empty, the import calls [create] once
    per candidate, in row order, threading the store through the calls; every
    outcome falls in exactly one of the three classes; and the promise is
    resolved (never rejected) with the report: [total] the number of
    candidates, the three counts, and [errors] the parse errors followed by the
    failed entries followed by the duplicate entries.  A failed entry holds
    the candidate, that is the object built from the row, and the message of
    the error; a duplicate entry holds the email of the candidate. *)
Theorem import_resolves_with_report (filePath : string) (rows : list Row.t) (st : DB) :
  candidates rows <> [] ->
  let s := importDonorsFromCSV true filePath (stream_of rows [ParserEnd]) st in
  let outcomes := snd (create_all (candidates rows) st) in
  promise s
  = Resolved
      {| Report.total := Z.of_nat (List.length (candidates rows));
         Report.successful := count_class Successful outcomes;
         Report.duplicates := count_class Duplicate outcomes;
         Report.failed := count_class Failed outcomes;
         Report.errors :=
           parse_errors 1 rows ++ flat_map failed_entry outcomes
                               ++ flat_map duplicate_entry outcomes |}
  /\ create_calls s = candidates rows
  /\ map fst outcomes = candidates rows
  /\ db s = fst (create_all (candidates rows) st)
  /\ count_class Successful outcomes + count_class Duplicate outcomes
     + count_class Failed outcomes = Z.of_nat (List.length (candidates rows))
  /\ uncaught s = [].
Proof.
  intros Hne s outcomes. subst s.
  rewrite import_after_rows. cbn [fold_left dispatch].
  rewrite on_end_candidates by exact Hne.
  cbn [donors errors promise db create_calls uncaught resolve app].
  repeat split.
  - apply create_all_objects.
  - subst outcomes. rewrite classes_partition, create_all_length. reflexivity.
Qed.

(** C2.  A row whose transformed name or email is empty is recorded as a parse
    error with its line number (the header is line 1), the raw row and the
    reason; it is not a candidate, and [create] is never called for it: every
    object passed to [create] has a name and an email.  This holds whatever
    the stream emits after the rows. *)
Theorem invalid_row_is_reported_and_never_created
    (filePath : string) (rows : list Row.t) (fin : list Event) (st : DB)
    (i : nat) (row : Row.t) :
  nth_error rows i = Some row ->
  DonorData.name (transform row) = Some "" \/ DonorData.email (transform row) = Some "" ->
  let s := importDonorsFromCSV true filePath (stream_of rows fin) st in
  let entry :=
    ParseError (Z.of_nat i + 2) row "Missing required fields (name or email)" in
  In entry (errors s)
  /\ (forall report, promise s = Resolved report -> In entry (Report.errors report))
  /\ ~ In (transform row) (candidates rows)
  /\ ~ In (transform row) (create_calls s)
  /\ Forall (fun d => has_name_and_email d = true) (create_calls s).
Proof.
  intros Hn Hempty s entry. subst s.
  apply row_valid_false_iff in Hempty.
  rewrite import_after_rows.
  assert (Hentry : In entry (parse_errors 1 rows)).
  { subst entry. replace (Z.of_nat i + 2) with (1 + Z.of_nat i + 1) by lia.
    now apply parse_errors_nth. }
  assert (Hcalls : Forall (fun d => has_name_and_email d = true)
                     (create_calls (fold_left dispatch fin
                        {| donors := candidates rows; errors := parse_errors 1 rows;
                           lineNumber := 1 + Z.of_nat (List.length rows);
                           promise := Pending; db := st; create_calls := [];
                           uncaught := [] |}))).
  { apply events_keep_valid; cbn [donors create_calls];
      [apply candidates_valid|constructor]. }
  assert (Hnot : forall l, Forall (fun d => has_name_and_email d = true) l ->
                           ~ In (transform row) l).
  { intros l Hl Hin. rewrite Forall_forall in Hl. specialize (Hl _ Hin).
    rewrite transform_has_name_and_email in Hl. congruence. }
  destruct (events_keep_error entry fin
              {| donors := candidates rows; errors := parse_errors 1 rows;
                 lineNumber := 1 + Z.of_nat (List.length rows);
                 promise := Pending; db := st; create_calls := [];
                 uncaught := [] |}) as [He Hr].
  { exact Hentry. }
  { cbn [promise]. discriminate. }
  repeat split.
  - exact He.
  - exact Hr.
  - apply Hnot, candidates_valid.
  - apply Hnot, Hcalls.
  - exact Hcalls.
Qed.

(** C3.  When the stream has ended and the candidate set is empty (no row at
    all, or parse errors only), the promise is rejected with 'No valid donor
    records found in CSV', [create] has not been called and the store is as it
    was. *)
Theorem import_without_candidates_fails (filePath : string) (rows : list Row.t) (st : DB) :
  candidates rows = [] ->
  let s := importDonorsFromCSV true filePath (stream_of rows [ParserEnd]) st in
  promise s = Rejected (new_Error "No valid donor records found in CSV")
  /\ create_calls s = []
  /\ db s = st.
Proof.
  intros Hnone s. subst s.
  rewrite import_after_rows. cbn [fold_left dispatch].
  rewrite on_end_no_candidate by exact Hnone.
  cbn [promise create_calls db reject]. repeat split.
Qed.

(** X2.  An ['error'] emitted by the CSV parser after some rows rejects the
    promise with a CSV reading error, and nothing has been passed to
    [create]. *)
Lemma parser_error_rejects (filePath : string) (rows : list Row.t) (st : DB)
    (message : string) :
  let s := importDonorsFromCSV true filePath (stream_of rows [ParserError message]) st in
  promise s = Rejected (new_Error ("CSV reading error: " ++ message))
  /\ create_calls s = []
  /\ db s = st.
Proof.
  intros s. subst s. rewrite import_after_rows. cbn. repeat split.
Qed.

(** X1.  As long as the parser has not emitted ['end'], nothing is passed to
    [create] and the store is untouched, whatever else the streams emit. *)
Lemma nothing_persisted_before_end (filePath : string) (events : list Event) (st : DB) :
  ~ In ParserEnd events ->
  let s := importDonorsFromCSV true filePath events st in
  create_calls s = [] /\ db s = st.
Proof.
  intros Hno s. subst s. unfold importDonorsFromCSV. cbn [negb].
  now apply creates_only_at_end.
Qed.

(** C10.  When the file stream emits an ['error'] after some rows, no handler
    of the method runs: the promise stays pending (it is not rejected with a
    CSV reading error) and the error is left uncaught.  Nothing has been
    passed to [create] and the store is as it was. *)
Theorem file_stream_error_leaves_promise_pending
    (filePath : string) (rows : list Row.t) (st : DB) (message : string) :
  let s := importDonorsFromCSV true filePath (stream_of rows [FileError message]) st in
  promise s = Pending
  /\ uncaught s = [message]
  /\ create_calls s = []
  /\ db s = st.
Proof.
  intros s. subst s. rewrite import_after_rows. cbn. repeat split.
Qed.

End IngestionProperties.

(** The sample file imported into an empty store whose schema declares no
    geocoordinates: Ann is stored, the second row for her email is a
    duplicate, the row without a blood group fails validation, and the
    nameless row is a parse error on line 3. *)
Lemma import_resolves_with_report_witness :
  @candidates date_only_parser ascii_case_mapping sample_rows <> []
  /\ promise (@importDonorsFromCSV date_only_parser ascii_case_mapping Store
                (mongoose_model donorSchema_without_geo)
                true "donors.csv" (stream_of sample_rows [ParserEnd]) empty_store)
     = Resolved
         {| Report.total := 3;
            Report.successful := 1;
            Report.duplicates := 1;
            Report.failed := 1;
            Report.errors :=
              [ParseError 3 sample_nameless "Missing required fields (name or email)";
               FailedInsert (transform sample_no_group)
                            (ValidationFailed ["blood_group"]);
               DuplicateEntry (Some "ann@example.org") "Email already exists"] |}.
Proof.
  assert (Hne : @candidates date_only_parser ascii_case_mapping sample_rows <> [])
    by (vm_compute; discriminate).
  split; [exact Hne|].
  destruct (@import_resolves_with_report date_only_parser ascii_case_mapping Store
              (mongoose_model donorSchema_without_geo)
              "donors.csv" sample_rows empty_store Hne) as [Hp _].
  rewrite Hp. vm_compute. reflexivity.
Defined.

(** The failed entry of that report does not hold the row as the file has
    it, with the age "abc" and no blood group: it holds the object built from
    the row, with the age 0 and the empty blood group.  Likewise the duplicate
    entry holds the email in lower case, not as the row has it. *)
Lemma failed_entry_holds_the_candidate_not_the_row :
  sample_no_group
  = Row.mk (Some "Raj") (Some "abc") None (Some "0755556667")
           (Some "raj@example.org") (Some "Jaffna") None
  /\ Row.email sample_ann_again = Some "ann@example.ORG"
  /\ option_map Report.errors
       (match promise (@importDonorsFromCSV date_only_parser ascii_case_mapping Store
                         (mongoose_model donorSchema_without_geo)
                         true "donors.csv" (stream_of sample_rows [ParserEnd])
                         empty_store) with
        | Resolved report => Some report
        | _ => None
        end)
     = Some
         [ParseError 3 sample_nameless "Missing required fields (name or email)";
          FailedInsert
            (DonorData.mk (Some "Raj") (Some (Int 0)) (Some "") (Some "0755556667")
                          (Some "raj@example.org") (Some "Jaffna") None None None)
            (ValidationFailed ["blood_group"]);
          DuplicateEntry (Some "ann@example.org") "Email already exists"].
Proof. vm_compute. repeat split. Qed.

(** A row whose name is a no-break space has an empty name once trimmed: it
    is a parse error, and a file that holds nothing else is rejected. *)
Example no_break_space_name_is_rejected :
  promise (@importDonorsFromCSV date_only_parser ascii_case_mapping Store
             (mongoose_model donorSchema_without_geo)
             true "donors.csv" (stream_of [sample_nbsp_name] [ParserEnd]) empty_store)
  = Rejected (new_Error "No valid donor records found in CSV").
Proof. reflexivity. Qed.

Lemma invalid_row_is_reported_and_never_created_witness :
  nth_error sample_rows 1 = Some sample_nameless
  /\ DonorData.name (transform sample_nameless) = Some ""
  /\ In (ParseError 3 sample_nameless "Missing required fields (name or email)")
        (errors (@importDonorsFromCSV date_only_parser ascii_case_mapping Store
                   (mongoose_model donorSchema_without_geo)
                   true "donors.csv" (stream_of sample_rows [ParserEnd]) empty_store))
  /\ ~ In (transform sample_nameless)
          (create_calls (@importDonorsFromCSV date_only_parser ascii_case_mapping Store
                           (mongoose_model donorSchema_without_geo)
                           true "donors.csv" (stream_of sample_rows [ParserEnd])
                           empty_store)).
Proof.
  assert (Hn : nth_error sample_rows 1 = Some sample_nameless) by reflexivity.
  assert (He : DonorData.name (@transform date_only_parser ascii_case_mapping sample_nameless) = Some "")
    by reflexivity.
  destruct (@invalid_row_is_reported_and_never_created date_only_parser ascii_case_mapping Store
              (mongoose_model donorSchema_without_geo)
              "donors.csv" sample_rows [ParserEnd] empty_store 1%nat sample_nameless
              Hn (or_introl He)) as (Hin & _ & _ & Hnot & _).
  split; [exact Hn|]. split; [exact He|]. split; [exact Hin|exact Hnot].
Defined.

Lemma import_without_candidates_fails_witness :
  @candidates date_only_parser ascii_case_mapping [sample_nameless] = []
  /\ promise (@importDonorsFromCSV date_only_parser ascii_case_mapping Store (mongoose_model donorSchema)
                true "donors.csv" (stream_of [sample_nameless] [ParserEnd]) empty_store)
     = Rejected (new_Error "No valid donor records found in CSV")
  /\ db (@importDonorsFromCSV date_only_parser ascii_case_mapping Store (mongoose_model donorSchema)
           true "donors.csv" (stream_of [sample_nameless] [ParserEnd]) empty_store)
     = empty_store.
Proof.
  assert (Hnone : @candidates date_only_parser ascii_case_mapping [sample_nameless] = []) by reflexivity.
  destruct (@import_without_candidates_fails date_only_parser ascii_case_mapping Store
              (mongoose_model donorSchema) "donors.csv" [sample_nameless] empty_store
              Hnone) as (Hp & _ & Hdb).
  split; [exact Hnone|]. split; [exact Hp|exact Hdb].
Defined.

Lemma nothing_persisted_before_end_witness :
  ~ In ParserEnd (stream_of sample_rows [ParserError "unexpected end of input"])
  /\ db (@importDonorsFromCSV date_only_parser ascii_case_mapping Store (mongoose_model donorSchema)
           true "donors.csv"
           (stream_of sample_rows [ParserError "unexpected end of input"]) empty_store)
     = empty_store.
Proof.
  assert (Hno : ~ In ParserEnd
                    (stream_of sample_rows [ParserError "unexpected end of input"])).
  { cbn. intros H. repeat (destruct H as [H|H]; [discriminate|]). exact H. }
  split; [exact Hno|].
  exact (proj2 (@nothing_persisted_before_end date_only_parser ascii_case_mapping Store
                  (mongoose_model donorSchema) "donors.csv" _ empty_store Hno)).
Defined.

(** A row whose age is "abc" is accepted, and stored with age 0. *)
Example age_abc_is_stored_as_zero :
  let row := Row.mk (Some "Raj") (Some "abc") (Some "o+") (Some "0755556667")
                    (Some "raj@example.org") (Some "Jaffna") None in
  map Doc.age
      (docs (db (@importDonorsFromCSV date_only_parser ascii_case_mapping Store
                   (mongoose_model donorSchema_without_geo)
                   true "donors.csv" (stream_of [row] [ParserEnd]) empty_store)))
  = [Int 0].
Proof. reflexivity. Qed.

(* ================================================================== *)
(** ** Queries *)

(** No document has a [createdAt] value, so the sort of [getAllDonors]
    leaves a result as the collection holds it. *)
Lemma sort_desc_createdAt (l : list Doc.t) : sort_desc createdAt l = l.
Proof.
  unfold sort_desc. induction l as [|d l IH]; [reflexivity|].
  cbn [fold_right]. rewrite IH. destruct l; reflexivity.
Qed.

(** The sort itself is a sort: its result is a permutation of its input. *)
Lemma insert_desc_perm (key : Doc.t -> option Z) (d : Doc.t) (l : list Doc.t) :
  Permutation (d :: l) (insert_desc key d l).
Proof.
  induction l as [|x l IH]; cbn [insert_desc]; [reflexivity|].
  destruct (key_leb (key x) (key d)); [reflexivity|].
  rewrite perm_swap. now constructor.
Qed.

Lemma sort_desc_perm (key : Doc.t -> option Z) (l : list Doc.t) :
  Permutation l (sort_desc key l).
Proof.
  unfold sort_desc. induction l as [|d l IH]; cbn [fold_right]; [reflexivity|].
  rewrite <- insert_desc_perm. now constructor.
Qed.

Lemma key_leb_total (a b : option Z) : key_leb a b = false -> key_leb b a = true.
Proof.
  destruct a as [x|], b as [y|]; cbn; try congruence.
  rewrite Z.leb_gt, Z.leb_le. lia.
Qed.

Lemma insert_desc_HdRel (key : Doc.t -> option Z) (x d : Doc.t) (l : list Doc.t) :
  HdRel (fun a b => key_leb (key b) (key a) = true) x l ->
  key_leb (key d) (key x) = true ->
  HdRel (fun a b => key_leb (key b) (key a) = true) x (insert_desc key d l).
Proof.
  intros Hl Hd. destruct l as [|y l]; cbn [insert_desc]; [now constructor|].
  destruct (key_leb (key y) (key d)); constructor; [exact Hd|].
  now inversion Hl.
Qed.

(** On any key, its result is in descending order of the key. *)
Lemma sort_desc_sorted (key : Doc.t -> option Z) (l : list Doc.t) :
  Sorted (fun a b => key_leb (key b) (key a) = true) (sort_desc key l).
Proof.
  unfold sort_desc. induction l as [|d l IH]; cbn [fold_right]; [constructor|].
  induction IH as [|x r Hr IHr Hhd]; cbn [insert_desc]; [repeat constructor|].
  destruct (key_leb (key x) (key d)) eqn:Hle.
  - constructor; [now constructor|]. now constructor.
  - constructor; [exact IHr|].
    apply insert_desc_HdRel; [exact Hhd|]. now apply key_leb_total.
Qed.

Lemma getAllDonors_result (tz : tzinfo) (now : Z) (st : Store) (filters : Filters) :
  getAllDonors tz now None st filters
  = Returned (filter (matches_all (build_query tz now filters)) (docs st)).
Proof. unfold getAllDonors, Donor_find. now rewrite sort_desc_createdAt. Qed.

(** X4.  When no stored record matches the filters, the result is the empty
    sequence, returned and not thrown. *)
Lemma getAllDonors_empty_result (tz : tzinfo) (now : Z) (st : Store) (filters : Filters) :
  (forall d, In d (docs st) -> matches_all (build_query tz now filters) d = false) ->
  getAllDonors tz now None st filters = Returned [].
Proof.
  intros Hnone. rewrite getAllDonors_result. f_equal.
  induction (docs st) as [|d l IH]; [reflexivity|].
  cbn [filter]. rewrite Hnone by now left. apply IH. intros x Hx. apply Hnone. now right.
Qed.

Lemma getAllDonors_empty_result_witness :
  getAllDonors utc_zone sample_now None sample_store
    {| f_blood_group := Some "ab-"; f_isEligible := JUndefined |}
  = Returned [].
Proof.
  apply getAllDonors_empty_result.
  intros d [<-|[<-|[]]]; reflexivity.
Defined.

(** A failure of the store is thrown with the service's message. *)
Lemma getAllDonors_store_failure (tz : tzinfo) (now : Z) (e : JsError) (st : Store)
    (filters : Filters) :
  getAllDonors tz now (Some e) st filters
  = Thrown (new_Error_from "Error fetching donors: " e).
Proof. reflexivity. Qed.

Lemma blood_group_query (tz : tzinfo) (now : Z) (bg : option string) (v : JsValue)
    (d : Doc.t) :
  matches_all (build_query tz now {| f_blood_group := bg; f_isEligible := v |}) d
  = blood_group_selected bg d
    && (if strict_eq_string v "true"
        then match Doc.last_donation_date d with
             | None => true
             | Some t => t <=? ninetyDaysAgo tz now
             end
        else true).
Proof.
  unfold build_query, matches_all, blood_group_selected. cbn [f_blood_group f_isEligible].
  rewrite forallb_app. f_equal.
  - destruct bg as [s|]; cbn [truthy from_option]; [|reflexivity].
    destruct (String.eqb s ""); cbn; [reflexivity|]. now rewrite andb_true_r.
  - destruct (strict_eq_string v "true"); [|reflexivity].
    cbn. destruct (Doc.last_donation_date d); cbn; now rewrite ?orb_false_r, ?andb_true_r.
Qed.

(** C5.  With [isEligible] the string 'true', [getAllDonors] returns exactly
    the stored records (in the order of the collection) that pass the
    blood-group restriction and whose last donation date is null or not later
    than the threshold: the instant 90 calendar days back at the same local
    time of day, which is 90 days of 24 hours before now whenever the local
    time-zone offset is the same at both instants.  A record with a null date
    is included, one that donated after the threshold is not. *)
Theorem getAllDonors_eligible (tz : tzinfo) (now : Z) (st : Store) (bg : option string) :
  let threshold := UTC tz (LocalTime tz now - 90 * msPerDay) in
  let result :=
    filter (fun d => blood_group_selected bg d && donated_by threshold d) (docs st) in
  getAllDonors tz now None st {| f_blood_group := bg; f_isEligible := JString "true" |}
  = Returned result
  /\ (LocalTZA_at_local tz (LocalTime tz now - 90 * msPerDay) = LocalTZA_at_utc tz now ->
      threshold = now - 90 * msPerDay
      /\ result = filter (fun d => blood_group_selected bg d && eligible now d) (docs st))
  /\ (forall d, In d (docs st) -> blood_group_selected bg d = true ->
                Doc.last_donation_date d = None -> In d result)
  /\ (forall d t, Doc.last_donation_date d = Some t -> threshold < t -> ~ In d result)
  /\ (forall d t, In d (docs st) -> blood_group_selected bg d = true ->
                  Doc.last_donation_date d = Some t -> t <= threshold -> In d result).
Proof.
  intros threshold result.
  assert (Hago : ninetyDaysAgo tz now = threshold).
  { subst threshold. rewrite ninetyDaysAgo_eq. unfold UTC, LocalTime. lia. }
  split; [|split; [|split; [|split]]].
  - rewrite getAllDonors_result. f_equal. apply filter_ext. intros d.
    rewrite blood_group_query. cbn [strict_eq_string String.eqb].
    unfold donated_by. now rewrite Hago.
  - intros Htz.
    assert (Hth : threshold = now - 90 * msPerDay).
    { subst threshold. unfold UTC. rewrite Htz. unfold LocalTime. lia. }
    split; [exact Hth|]. subst result. unfold eligible. now rewrite Hth.
  - intros d Hd Hbg Hnull. apply filter_In. split; [exact Hd|].
    unfold donated_by. now rewrite Hbg, Hnull.
  - intros d t Ht Hlt Hin. apply filter_In in Hin as [_ Hin].
    apply andb_true_iff in Hin as [_ He]. unfold donated_by in He. rewrite Ht in He.
    apply Z.leb_le in He. lia.
  - intros d t Hd Hbg Ht Hle. apply filter_In. split; [exact Hd|].
    unfold donated_by. rewrite Hbg, Ht. cbn. now apply Z.leb_le.
Qed.

(** In UTC, at noon on 1 January 2026, with Ann who gave blood on 29 February
    2024 and Raj who gave blood ten days before. *)
Lemma getAllDonors_eligible_witness :
  LocalTZA_at_local utc_zone (LocalTime utc_zone sample_now - 90 * msPerDay)
  = LocalTZA_at_utc utc_zone sample_now
  /\ getAllDonors utc_zone sample_now None sample_store
       {| f_blood_group := Some "a+"; f_isEligible := JString "true" |}
     = Returned [sample_doc_ann]
  /\ UTC utc_zone (LocalTime utc_zone sample_now - 90 * msPerDay)
     = sample_now - 90 * msPerDay.
Proof.
  assert (Htz : LocalTZA_at_local utc_zone (LocalTime utc_zone sample_now - 90 * msPerDay)
                = LocalTZA_at_utc utc_zone sample_now) by reflexivity.
  split; [exact Htz|].
  destruct (getAllDonors_eligible utc_zone sample_now sample_store (Some "a+"))
    as (Hr & Hsame & _).
  split; [rewrite Hr; vm_compute; reflexivity|exact (proj1 (Hsame Htz))].
Defined.

(** The flag is compared with the string 'true': the boolean [true] selects
    nothing, and a donor who gave blood ten days ago is returned. *)
Lemma getAllDonors_boolean_true_is_not_a_filter :
  getAllDonors utc_zone sample_now None sample_store
    {| f_blood_group := None; f_isEligible := JBool true |}
  = Returned [sample_doc_ann; sample_doc_raj]
  /\ Doc.last_donation_date sample_doc_raj = Some (sample_now - 10 * msPerDay)
  /\ eligible sample_now sample_doc_raj = false.
Proof. vm_compute. repeat split. Qed.

(** Where the offset changes between the two instants, the threshold moves
    with it: across the end of summer time it lies 90 days and one hour
    back. *)
Lemma ninetyDaysAgo_across_offset_change :
  ninetyDaysAgo sample_dst_zone sample_now_winter
  = sample_now_winter - 90 * msPerDay - 3600000.
Proof. rewrite ninetyDaysAgo_eq. vm_compute. reflexivity. Qed.

(** C7.  Two donors created one after the other in an empty store, then
    listed: the result holds them in the order of their creation, the older
    first, and neither carries a creation timestamp to sort by. *)
Theorem getAllDonors_lists_oldest_first :
  let '(st1, first) := createDonor donorSchema empty_store sample_data_ann in
  let '(st2, second) := createDonor donorSchema st1 sample_data_raj in
  first = Returned sample_doc_ann
  /\ second = Returned sample_doc_raj
  /\ getAllDonors utc_zone sample_now None st2
       {| f_blood_group := None; f_isEligible := JUndefined |}
     = Returned [sample_doc_ann; sample_doc_raj]
  /\ (Doc._id sample_doc_ann < Doc._id sample_doc_raj)%N
  /\ createdAt sample_doc_ann = None
  /\ createdAt sample_doc_raj = None.
Proof. vm_compute. repeat split. Qed.

(* ================================================================== *)
(** ** Lookup and deletion by identifier *)

Section ByIdProperties.

Variable castObjectId : string -> option N.

Lemma catch_cast_error_CastError {A : Type} (path : string) :
  @catch_cast_error A (CastError path) = Thrown (new_Error "Invalid donor ID format").
Proof. reflexivity. Qed.

Lemma catch_cast_error_not_found {A : Type} :
  @catch_cast_error A (new_Error "Donor not found") = Thrown (new_Error "Donor not found").
Proof. reflexivity. Qed.

Lemma find_by_id_some (oid : N) (l : list Doc.t) (d : Doc.t) :
  In d l -> Doc._id d = oid ->
  exists d', find (fun x => N.eqb (Doc._id x) oid) l = Some d'
             /\ In d' l /\ Doc._id d' = oid.
Proof.
  intros Hin Hid.
  destruct (find (fun x => N.eqb (Doc._id x) oid) l) as [d'|] eqn:Ef.
  - exists d'. apply find_some in Ef as [Hin' He]. apply N.eqb_eq in He. now repeat split.
  - apply (find_none _ _ Ef) in Hin. apply N.eqb_neq in Hin. contradiction.
Qed.

Lemma find_by_id_none (oid : N) (l : list Doc.t) :
  (forall d, In d l -> Doc._id d <> oid) ->
  find (fun x => N.eqb (Doc._id x) oid) l = None.
Proof.
  intros Hno. destruct (find (fun x => N.eqb (Doc._id x) oid) l) as [d'|] eqn:Ef;
    [|reflexivity].
  apply find_some in Ef as [Hin He]. apply N.eqb_eq in He. now apply Hno in Hin.
Qed.

(** C9.  [getDonorById]: a well-formed identifier that a record has returns
    such a record; a well-formed identifier that no record has fails with
    'Donor not found'; an identifier that is not well formed fails with
    'Invalid donor ID format', a different error.  [deleteDonor] behaves alike;
    it removes the record it returns and leaves the store alone when it
    fails. *)
Theorem getDonorById_and_deleteDonor_outcomes (st : Store) (donorId : string) :
  (forall oid, castObjectId donorId = Some oid ->
     (forall d, In d (docs st) -> Doc._id d = oid ->
        exists d', getDonorById castObjectId st donorId = Returned d'
                   /\ In d' (docs st) /\ Doc._id d' = oid)
     /\ ((forall d, In d (docs st) -> Doc._id d <> oid) ->
         getDonorById castObjectId st donorId = Thrown (new_Error "Donor not found")))
  /\ (castObjectId donorId = None ->
      getDonorById castObjectId st donorId
      = Thrown (new_Error "Invalid donor ID format"))
  /\ new_Error "Invalid donor ID format" <> new_Error "Donor not found"
  /\ (forall oid, castObjectId donorId = Some oid ->
     (forall d, In d (docs st) -> Doc._id d = oid ->
        exists d', deleteDonor castObjectId st donorId
                   = ({| docs := filter (fun x => negb (N.eqb (Doc._id x) oid)) (docs st);
                         next_id := next_id st |}, Returned d')
                   /\ In d' (docs st) /\ Doc._id d' = oid)
     /\ ((forall d, In d (docs st) -> Doc._id d <> oid) ->
         deleteDonor castObjectId st donorId
         = (st, Thrown (new_Error "Donor not found"))))
  /\ (castObjectId donorId = None ->
      deleteDonor castObjectId st donorId
      = (st, Thrown (new_Error "Invalid donor ID format"))).
Proof.
  unfold getDonorById, deleteDonor, Donor_findById, Donor_findByIdAndDelete.
  split; [|split; [|split; [|split]]].
  - intros oid Hcast. rewrite Hcast. split.
    + intros d Hin Hid.
      destruct (find_by_id_some oid (docs st) d Hin Hid) as (d' & -> & Hin' & Hid').
      now exists d'.
    + intros Hno. now rewrite (find_by_id_none oid (docs st) Hno).
  - intros ->. reflexivity.
  - discriminate.
  - intros oid Hcast. rewrite Hcast. split.
    + intros d Hin Hid.
      destruct (find_by_id_some oid (docs st) d Hin Hid) as (d' & -> & Hin' & Hid').
      now exists d'.
    + intros Hno. now rewrite (find_by_id_none oid (docs st) Hno).
  - intros ->. reflexivity.
Qed.

End ByIdProperties.

(** Ann's identifier, an identifier that no record has, and a string that is
    no identifier, looked up in the sample store. *)
Lemma getDonorById_and_deleteDonor_outcomes_witness :
  getDonorById castObjectId_hex24 sample_store "000000000000000000000000"
  = Returned sample_doc_ann
  /\ getDonorById castObjectId_hex24 sample_store "0000000000000000000000ff"
     = Thrown (new_Error "Donor not found")
  /\ getDonorById castObjectId_hex24 sample_store "ann"
     = Thrown (new_Error "Invalid donor ID format")
  /\ deleteDonor castObjectId_hex24 sample_store "000000000000000000000000"
     = ({| docs := [sample_doc_raj]; next_id := 2 |}, Returned sample_doc_ann).
Proof.
  destruct (getDonorById_and_deleteDonor_outcomes castObjectId_hex24 sample_store
              "0000000000000000000000ff") as (Hwf & _).
  destruct (Hwf 255%N eq_refl) as [_ Habsent].
  destruct (getDonorById_and_deleteDonor_outcomes castObjectId_hex24 sample_store "ann")
    as (_ & Hbad & _).
  split; [reflexivity|]. split.
  - apply Habsent. intros d [<-|[<-|[]]]; discriminate.
  - split; [exact (Hbad eq_refl)|reflexivity].
Defined.

(* ================================================================== *)
(** ** Creation *)

Lemma Donor_create_success (sch : Schema) (st st' : Store) (d : DonorData.t) (doc : Doc.t) :
  Donor_create sch st d = (st', inl doc) ->
  invalid_paths sch d = []
  /\ doc = to_doc sch (next_id st) d
  /\ docs st' = (docs st ++ [doc])%list
  /\ (forall x, In x (docs st) -> Doc.email x <> Doc.email doc).
Proof.
  unfold Donor_create. destruct (invalid_paths sch d); [|discriminate].
  destruct (existsb _ (docs st)) eqn:Ex; [discriminate|].
  intros [= <- <-]. cbn [docs]. repeat split.
  intros x Hx Heq.
  rewrite <- not_true_iff_false in Ex. apply Ex.
  apply existsb_exists. exists x. split; [exact Hx|]. now apply String.eqb_eq.
Qed.

(** X3.  Two objects with the same email, character for character: when the
    first is created and the second is valid, the second fails with 'Email
    already exists' and the store stays as the first call left it. *)
Lemma createDonor_same_email_twice (sch : Schema) (st st1 : Store)
    (d1 d2 : DonorData.t) (doc1 : Doc.t) :
  createDonor sch st d1 = (st1, Returned doc1) ->
  invalid_paths sch d2 = [] ->
  DonorData.email d2 = DonorData.email d1 ->
  createDonor sch st1 d2 = (st1, Thrown (new_Error "Email already exists")).
Proof.
  unfold createDonor. intros H1 Hv Hemail.
  destruct (Donor_create sch st d1) as [st' [doc|e]] eqn:Ec.
  - injection H1 as -> ->.
    apply Donor_create_success in Ec as (_ & Hdoc & Hdocs & _).
    unfold Donor_create. rewrite Hv.
    assert (Hex : existsb (fun x => String.eqb (Doc.email x)
                     (Doc.email (to_doc sch (next_id st1) d2))) (docs st1) = true).
    { apply existsb_exists. exists doc1. split.
      - rewrite Hdocs. apply in_or_app. right. now left.
      - apply String.eqb_eq. rewrite Hdoc. cbn [to_doc Doc.email]. now rewrite Hemail. }
    rewrite Hex. reflexivity.
  - destruct (is_duplicate_key e); discriminate.
Qed.

Lemma createDonor_same_email_twice_witness :
  createDonor donorSchema empty_store sample_data_ann
  = ({| docs := [sample_doc_ann]; next_id := 1 |}, Returned sample_doc_ann)
  /\ createDonor donorSchema {| docs := [sample_doc_ann]; next_id := 1 |} sample_data_ann
     = ({| docs := [sample_doc_ann]; next_id := 1 |},
        Thrown (new_Error "Email already exists")).
Proof.
  assert (H1 : createDonor donorSchema empty_store sample_data_ann
               = ({| docs := [sample_doc_ann]; next_id := 1 |}, Returned sample_doc_ann))
    by reflexivity.
  split; [exact H1|].
  exact (createDonor_same_email_twice donorSchema empty_store _ sample_data_ann
           sample_data_ann sample_doc_ann H1 eq_refl eq_refl).
Defined.

(** C8.  Two objects whose emails differ in case only, created one after the
    other in an empty store: both calls succeed and both records are stored,
    each with its email as given. *)
Theorem createDonor_accepts_email_in_another_case :
  let '(st1, first) := createDonor donorSchema empty_store sample_data_ann in
  let '(st2, second) := createDonor donorSchema st1 sample_data_ann_upper in
  toLowerCase "ANN@Example.org" = toLowerCase "ann@example.org"
  /\ first = Returned sample_doc_ann
  /\ second = Returned (to_doc donorSchema 1 sample_data_ann_upper)
  /\ map Doc.email (docs st2) = ["ann@example.org"; "ANN@Example.org"].
Proof. vm_compute. repeat split. Qed.

(* ================================================================== *)
(** ** Statistics *)

Lemma count_of_snoc (k : string) (pre : list Doc.t) (d : Doc.t) :
  count_of k (pre ++ [d]) = count_of k pre + (if in_group k d then 1 else 0).
Proof.
  unfold count_of. rewrite filter_app, length_app. cbn [filter].
  destruct (in_group k d); cbn [List.length]; lia.
Qed.

Lemma sum_list_app (l1 l2 : list Z) :
  fold_right Z.add 0 (l1 ++ l2) = fold_right Z.add 0 l1 + fold_right Z.add 0 l2.
Proof. induction l1 as [|x l1 IH]; cbn [app fold_right]; lia. Qed.

Lemma ages_of_snoc (k : string) (pre : list Doc.t) (d : Doc.t) :
  ages_of k (pre ++ [d])
  = (ages_of k pre ++ (if in_group k d then [Doc.age d] else []))%list.
Proof.
  unfold ages_of. rewrite filter_app, map_app. cbn [filter].
  now destruct (in_group k d).
Qed.

Lemma number_sum_snoc (l : list Number) (a : Number) :
  number_sum (l ++ [a]) = number_add (number_sum l) a.
Proof. unfold number_sum. now rewrite fold_left_app. Qed.

Lemma number_add_zero (a : Number) : number_add (Int 0) a = a.
Proof. now destruct a. Qed.

Lemma holds_snoc (n : Number) (l : list Number) (a : Number) :
  holds n (l ++ [a]) = holds n l || holds n [a].
Proof. unfold holds. now rewrite existsb_app. Qed.

(** The sum taken from the left is the sum told from what the sequence
    holds: the order of the records has no part in it. *)
Lemma number_sum_expected (l : list Number) : number_sum l = expected_sum l.
Proof.
  induction l as [|a l IH] using rev_ind; [reflexivity|].
  rewrite number_sum_snoc, IH. unfold expected_sum.
  rewrite !holds_snoc, map_app, sum_list_app.
  destruct (holds NaN l), (holds (Infinity false) l), (holds (Infinity true) l),
    a as [z|[]|]; cbn; try reflexivity.
  f_equal. lia.
Qed.

Lemma holds_In (n : Number) (l : list Number) : holds n l = true <-> In n l.
Proof.
  unfold holds. rewrite existsb_exists. split.
  - intros (x & Hx & He). destruct x as [a|a|], n as [b|b|]; try discriminate.
    + apply Z.eqb_eq in He. now subst.
    + apply Bool.eqb_prop in He. now subst.
    + exact Hx.
  - intros Hin. exists n. split; [exact Hin|].
    destruct n as [b|b|]; [apply Z.eqb_refl|apply Bool.eqb_reflx|reflexivity].
Qed.

Lemma holds_not_In (n : Number) (l : list Number) : holds n l = false <-> ~ In n l.
Proof. rewrite <- holds_In. now destruct (holds n l). Qed.

Lemma expected_sum_integers (l : list Number) :
  Forall is_int l -> expected_sum l = Int (fold_right Z.add 0 (map int_value l)).
Proof.
  intros Hl. unfold expected_sum.
  assert (Hno : forall n, ~ is_int n -> holds n l = false).
  { intros n Hn. apply holds_not_In. intros Hin.
    rewrite Forall_forall in Hl. now apply Hl in Hin. }
  now rewrite !Hno by (cbn; tauto).
Qed.

Lemma expected_sum_NaN (l : list Number) :
  In NaN l \/ (In (Infinity false) l /\ In (Infinity true) l) -> expected_sum l = NaN.
Proof.
  rewrite <- !holds_In. unfold expected_sum.
  intros [->|[-> ->]]; [reflexivity|]. now rewrite orb_true_r.
Qed.

Lemma expected_sum_Infinity (l : list Number) (b : bool) :
  In (Infinity b) l -> ~ In (Infinity (negb b)) l -> ~ In NaN l ->
  expected_sum l = Infinity b.
Proof.
  rewrite <- holds_In, <- !holds_not_In. unfold expected_sum.
  intros Hb Hnb ->. destruct b; cbn [negb] in Hnb; rewrite Hb, Hnb; reflexivity.
Qed.

Lemma no_record_of_group (k : string) (pre : list Doc.t) :
  (forall d, In d pre -> Doc.blood_group d <> k) ->
  count_of k pre = 0 /\ ages_of k pre = [].
Proof.
  intros Hno. unfold count_of, ages_of.
  assert (Hf : filter (in_group k) pre = []).
  { induction pre as [|d pre IH]; [reflexivity|]. cbn [filter].
    unfold in_group at 1. destruct (String.eqb_spec (Doc.blood_group d) k) as [He|_].
    - exfalso. apply (Hno d); [now left|exact He].
    - apply IH. intros x Hx. apply Hno. now right. }
  rewrite Hf. now split.
Qed.

(** *** One step of the [$group] stage *)
Lemma accumulate_keys (g : string) (a : Number) (acc : list (string * (Z * Number))) :
  (In g (map fst acc) -> map fst (accumulate g a acc) = map fst acc)
  /\ (~ In g (map fst acc) -> map fst (accumulate g a acc) = (map fst acc ++ [g])%list).
Proof.
  induction acc as [|[k [c sm]] r [IHin IHout]]; cbn [accumulate map fst].
  - split; [intros []|reflexivity].
  - destruct (String.eqb_spec k g) as [->|Hne]; cbn [map fst].
    + split; [reflexivity|]. intros Hno. exfalso. apply Hno. now left.
    + split.
      * intros [He|Hin]; [congruence|]. now rewrite IHin.
      * intros Hno. cbn [app]. rewrite IHout; [reflexivity|].
        intros Hin. apply Hno. now right.
Qed.

Lemma accumulate_entries (g : string) (a : Number) (acc : list (string * (Z * Number))) :
  NoDup (map fst acc) ->
  forall k c sm, In (k, (c, sm)) (accumulate g a acc) ->
    (k <> g /\ In (k, (c, sm)) acc)
    \/ (k = g /\ exists c0 s0, In (g, (c0, s0)) acc /\ c = c0 + 1
                              /\ sm = number_add s0 a)
    \/ (k = g /\ ~ In g (map fst acc) /\ c = 1 /\ sm = a).
Proof.
  induction acc as [|[k0 [c0 s0]] r IH]; intros Hnd k c sm Hin.
  - destruct Hin as [[= <- <- <-]|[]]. right. right. now repeat split.
  - cbn [map fst] in Hnd. apply NoDup_cons_iff in Hnd as [Hk0 Hnd].
    cbn [accumulate] in Hin.
    destruct (String.eqb_spec k0 g) as [->|Hne].
    + destruct Hin as [[= <- <- <-]|Hin].
      * right. left. split; [reflexivity|]. exists c0, s0. split; [now left|now split].
      * left. split; [|now right].
        intros ->. apply Hk0. apply in_map_iff. now exists (g, (c, sm)).
    + destruct Hin as [[= <- <- <-]|Hin].
      * left. split; [exact Hne|now left].
      * destruct (IH Hnd k c sm Hin) as [[Hk Hi]|[[Hk (c1 & s1 & Hi & Hc & Hs)]|[Hk (Hno & Hc & Hs)]]].
        -- left. split; [exact Hk|now right].
        -- right. left. split; [exact Hk|]. exists c1, s1. split; [now right|now split].
        -- right. right. split; [exact Hk|]. split; [|now split].
           intros [He|Hi]; [now apply Hne|now apply Hno].
Qed.


Lemma accumulate_groups_of (pre : list Doc.t) (acc : list (string * (Z * Number)))
    (d : Doc.t) :
  groups_of pre acc ->
  groups_of (pre ++ [d]) (accumulate (Doc.blood_group d) (Doc.age d) acc).
Proof.
  intros (Hnd & Hent & Hkeys).
  destruct (accumulate_keys (Doc.blood_group d) (Doc.age d) acc) as [Kin Kout].
  destruct (in_dec string_dec (Doc.blood_group d) (map fst acc)) as [Hin|Hout].
  - split; [|split].
    + now rewrite Kin.
    + intros k c sm Hi. rewrite count_of_snoc, ages_of_snoc. unfold in_group.
      destruct (accumulate_entries _ _ _ Hnd k c sm Hi)
        as [[Hk Hi']|[[Hk (c1 & s1 & Hi' & Hc & Hs)]|[Hk (Hno & _)]]].
      * destruct (String.eqb_spec (Doc.blood_group d) k); [congruence|].
        destruct (Hent _ _ _ Hi') as (? & ? & ?). rewrite app_nil_r.
        split; [lia|]. split; [lia|assumption].
      * subst k. rewrite String.eqb_refl, number_sum_snoc.
        destruct (Hent _ _ _ Hi') as (? & ? & ?). split; [lia|].
        split; [lia|congruence].
      * contradiction.
    + intros x Hx. rewrite Kin by exact Hin.
      apply in_app_or in Hx as [Hx|[<-|[]]]; [now apply Hkeys|exact Hin].
  - split; [|split].
    + rewrite Kout by exact Hout. apply NoDup_app; [exact Hnd|repeat constructor; intros []|].
      intros x Hx [<-|[]]. contradiction.
    + intros k c sm Hi. rewrite count_of_snoc, ages_of_snoc. unfold in_group.
      destruct (accumulate_entries _ _ _ Hnd k c sm Hi)
        as [[Hk Hi']|[[Hk (c1 & s1 & Hi' & Hc & Hs)]|[Hk (Hno & Hc & Hs)]]].
      * destruct (String.eqb_spec (Doc.blood_group d) k); [congruence|].
        destruct (Hent _ _ _ Hi') as (? & ? & ?). rewrite app_nil_r.
        split; [lia|]. split; [lia|assumption].
      * exfalso. apply Hout. apply in_map_iff. now exists (Doc.blood_group d, (c1, s1)).
      * subst k. rewrite String.eqb_refl.
        destruct (no_record_of_group (Doc.blood_group d) pre) as [H0 H1].
        { intros x Hx He. apply Hout. rewrite <- He. now apply Hkeys. }
        rewrite H1. cbn [app]. unfold number_sum. cbn [fold_left].
        rewrite number_add_zero. split; [lia|]. split; [lia|assumption].
    + intros x Hx. rewrite Kout by exact Hout. apply in_or_app.
      apply in_app_or in Hx as [Hx|[<-|[]]]; [left; now apply Hkeys|right; now left].
Qed.

Lemma fold_groups_of (ds : list Doc.t) : forall pre acc,
  groups_of pre acc ->
  groups_of (pre ++ ds)
    (fold_left (fun acc d => accumulate (Doc.blood_group d) (Doc.age d) acc) ds acc).
Proof.
  induction ds as [|d ds IH]; intros pre acc Hg; cbn [fold_left].
  - now rewrite app_nil_r.
  - replace (pre ++ d :: ds)%list with ((pre ++ [d]) ++ ds)%list
      by (rewrite <- app_assoc; reflexivity).
    apply IH. now apply accumulate_groups_of.
Qed.

Lemma group_stage_groups_of (ds : list Doc.t) : groups_of ds (group_stage ds).
Proof.
  unfold group_stage. apply (fold_groups_of ds [] []).
  split; [constructor|split]; [intros ? ? ? []|intros ? []].
Qed.

(** *** The [$sort] stage *)

Lemma insert_asc_perm (g : Group.t) (l : list Group.t) :
  Permutation (g :: l) (insert_asc g l).
Proof.
  induction l as [|x l IH]; cbn [insert_asc]; [reflexivity|].
  destruct (String.leb (Group._id g) (Group._id x)); [reflexivity|].
  rewrite perm_swap. now constructor.
Qed.

Lemma sort_stage_perm (l : list Group.t) : Permutation l (sort_stage l).
Proof.
  unfold sort_stage. induction l as [|g l IH]; cbn [fold_right]; [reflexivity|].
  rewrite <- insert_asc_perm. now constructor.
Qed.

Lemma insert_asc_HdRel (x g : Group.t) (l : list Group.t) :
  HdRel label_leb x l -> label_leb x g -> HdRel label_leb x (insert_asc g l).
Proof.
  intros Hl Hg. destruct l as [|y l]; cbn [insert_asc]; [now constructor|].
  destruct (String.leb (Group._id g) (Group._id y)); constructor; [exact Hg|].
  now inversion Hl.
Qed.

Lemma insert_asc_sorted (g : Group.t) (l : list Group.t) :
  Sorted label_leb l -> Sorted label_leb (insert_asc g l).
Proof.
  induction l as [|x l IH]; intros Hs; cbn [insert_asc].
  - repeat constructor.
  - destruct (String.leb (Group._id g) (Group._id x)) eqn:Hle.
    + constructor; [exact Hs|]. now constructor.
    + inversion Hs as [|? ? Hs' Hhd]; subst. constructor; [now apply IH|].
      apply insert_asc_HdRel; [exact Hhd|].
      destruct (String.leb_total (Group._id g) (Group._id x)) as [H|H]; [congruence|exact H].
Qed.

Lemma sort_stage_sorted (l : list Group.t) : Sorted label_leb (sort_stage l).
Proof.
  unfold sort_stage. induction l as [|g l IH]; cbn [fold_right]; [constructor|].
  now apply insert_asc_sorted.
Qed.

Lemma leb_neq_ltb (a b : string) : String.leb a b = true -> a <> b -> String.ltb a b = true.
Proof.
  unfold String.leb, String.ltb. intros Hle Hne.
  destruct (String.compare a b) eqn:Hc; [|reflexivity|discriminate].
  apply String.compare_eq_iff in Hc. contradiction.
Qed.

Lemma sorted_distinct_strict (l : list Group.t) :
  Sorted label_leb l -> NoDup (map Group._id l) -> Sorted label_ltb l.
Proof.
  induction 1 as [|x l Hs IH Hhd]; intros Hnd; [constructor|].
  cbn [map] in Hnd. apply NoDup_cons_iff in Hnd as [Hx Hnd].
  constructor; [now apply IH|].
  destruct Hhd as [|y l Hxy]; constructor.
  apply leb_neq_ltb; [exact Hxy|]. intros He. apply Hx. left. now symmetry.
Qed.

Lemma finish_group_label (acc : list (string * (Z * Number))) :
  map Group._id (map finish_group acc) = map fst acc.
Proof.
  rewrite map_map. apply map_ext. intros [k [c sm]]. reflexivity.
Qed.

(** C6.  [getDonorStatistics] returns the number of stored records as
    [total] and, in [byBloodGroup], one entry per blood group that a record
    has, the entries in strictly ascending order of their labels, each with
    the number of records of its group and the average of their ages: the sum
    of the ages divided by their number when every age of the group is an
    integer, the infinity that occurs among them when one does, and [NaN]
    when both infinities or [NaN] occur.  For the records A+ aged 30 and 40
    and B- aged 50 that is A+ (2, 35) then B- (1, 50), and a total of 3. *)
Theorem getDonorStatistics_groups (st : Store) :
  exists groups,
    getDonorStatistics None None st
    = Returned {| Statistics.total := Z.of_nat (List.length (docs st));
                  Statistics.byBloodGroup := groups |}
    /\ Sorted label_ltb groups
    /\ NoDup (map Group._id groups)
    /\ (forall d, In d (docs st) ->
          exists g, In g groups /\ Group._id g = Doc.blood_group d)
    /\ (forall g, In g groups ->
          0 < Group.count g
          /\ Group.count g = count_of (Group._id g) (docs st)
          /\ (Forall is_int (ages_of (Group._id g) (docs st)) ->
              exists q, Group.avgAge g = Mean q
                        /\ (q == inject_Z (sum_of (Group._id g) (docs st))
                                 / inject_Z (Group.count g))%Q)
          /\ (forall b, In (Infinity b) (ages_of (Group._id g) (docs st)) ->
                        ~ In (Infinity (negb b)) (ages_of (Group._id g) (docs st)) ->
                        ~ In NaN (ages_of (Group._id g) (docs st)) ->
                        Group.avgAge g = MeanInfinity b)
          /\ (In NaN (ages_of (Group._id g) (docs st))
              \/ (In (Infinity false) (ages_of (Group._id g) (docs st))
                  /\ In (Infinity true) (ages_of (Group._id g) (docs st))) ->
              Group.avgAge g = MeanNaN))
    /\ getDonorStatistics None None sample_stats_store
       = Returned {| Statistics.total := 3;
                     Statistics.byBloodGroup :=
                       [Group.mk "A+" 2 (35 # 1); Group.mk "B-" 1 (50 # 1)] |}.
Proof.
  exists (sort_stage (map finish_group (group_stage (docs st)))).
  destruct (group_stage_groups_of (docs st)) as (Hnd & Hent & Hkeys).
  pose proof (sort_stage_perm (map finish_group (group_stage (docs st)))) as Hperm.
  assert (Hnd' : NoDup (map Group._id (sort_stage (map finish_group (group_stage (docs st)))))).
  { eapply Permutation_NoDup; [apply Permutation_map, Hperm|].
    now rewrite finish_group_label. }
  split; [reflexivity|]. split; [|split; [exact Hnd'|split; [|split]]].
  - apply sorted_distinct_strict; [apply sort_stage_sorted|exact Hnd'].
  - intros d Hd. specialize (Hkeys d Hd). rewrite <- finish_group_label in Hkeys.
    apply in_map_iff in Hkeys as (g & Hg & Hin). exists g. split; [|exact Hg].
    eapply Permutation_in; [exact Hperm|exact Hin].
  - intros g Hg. apply (Permutation_in _ (Permutation_sym Hperm)) in Hg.
    apply in_map_iff in Hg as ([k [c sm]] & <- & Hin).
    destruct (Hent k c sm Hin) as (Hpos & Hc & Hs).
    cbn [finish_group Group._id Group.count Group.avgAge].
    rewrite number_sum_expected in Hs.
    split; [exact Hpos|]. split; [exact Hc|]. split; [|split].
    + intros Hint. rewrite Hs, (expected_sum_integers _ Hint). eexists.
      split; [reflexivity|].
      rewrite Qred_correct, Qmake_Qdiv, Z2Pos.id by exact Hpos. reflexivity.
    + intros b Hb Hnb Hnan. now rewrite Hs, (expected_sum_Infinity _ b Hb Hnb Hnan).
    + intros Hnan. now rewrite Hs, (expected_sum_NaN _ Hnan).
  - vm_compute. reflexivity.
Qed.

(** A failure of either store call is thrown with the service's message. *)
Lemma getDonorStatistics_store_failure (e : JsError) (fault_count : option JsError)
    (st : Store) :
  getDonorStatistics (Some e) fault_count st
  = Thrown (new_Error_from "Error fetching statistics: " e).
Proof. reflexivity. Qed.

(* ================================================================== *)
(** ** More on the CSV import: accounting *)

Section IngestionAccounting.

Context `{DP : DateParser} `{CM : CaseMapping} {DB : Type} `{DM : DonorModel DB}.

Lemma dispatch_report_ok (s : ImportState DB) (ev : Event) :
  (forall r, promise s = Resolved r -> report_ok r) ->
  forall r, promise (dispatch s ev) = Resolved r -> report_ok r.
Proof.
  intros Hs r. destruct ev as [row| |m|m]; cbn [dispatch].
  - destruct (row_valid row) eqn:Hv;
      [rewrite (on_data_valid _ _ Hv)|rewrite (on_data_invalid _ _ Hv)]; apply Hs.
  - destruct (donors_empty_or_not s) as [Ed|Ed].
    + rewrite (on_end_no_candidate s Ed). cbn [promise].
      destruct (promise s) eqn:Ep; cbn [reject]; try discriminate. intros [= <-]. now apply Hs.
    + rewrite on_end_candidates by exact Ed. cbn [promise].
      destruct (promise s) eqn:Ep; cbn [resolve]; try discriminate.
      * intros [= <-]. unfold report_ok.
        cbn [Report.total Report.successful Report.duplicates Report.failed Report.errors].
        rewrite classes_partition, create_all_length.
        rewrite !length_app, <- failed_count, <- duplicate_count.
        split; [reflexivity|]. split; [|lia].
        destruct (donors s); [congruence|cbn [List.length]; lia].
      * intros [= <-]. now apply Hs.
  - unfold on_error. cbn [promise].
    destruct (promise s) eqn:Ep; cbn [reject]; try discriminate. intros [= <-]. now apply Hs.
  - apply Hs.
Qed.

Lemma events_report_ok (evs : list Event) : forall s : ImportState DB,
  (forall r, promise s = Resolved r -> report_ok r) ->
  forall r, promise (fold_left dispatch evs s) = Resolved r -> report_ok r.
Proof.
  induction evs as [|ev evs IH]; intros s Hs; [exact Hs|].
  cbn [fold_left]. apply IH. now apply dispatch_report_ok.
Qed.

(** X6.  Whatever the streams emit, a report that the import resolves with
    is consistent: [total] is positive and equals [successful + duplicates +
    failed], and [errors] holds at least [failed + duplicates] entries. *)
Theorem resolved_report_adds_up (file_exists : bool) (filePath : string)
    (events : list Event) (st : DB) (r : Report.t) :
  promise (importDonorsFromCSV file_exists filePath events st) = Resolved r ->
  report_ok r.
Proof.
  unfold importDonorsFromCSV. destruct file_exists; cbn [negb promise]; [|discriminate].
  apply events_report_ok. cbn [initial_state promise]. discriminate.
Qed.

Lemma rows_are_candidates_or_parse_errors (rows : list Row.t) : forall line : Z,
  (List.length (candidates rows) + List.length (parse_errors line rows))%nat
  = List.length rows.
Proof.
  unfold candidates. induction rows as [|row rows IH]; intros line; [reflexivity|].
  cbn [filter parse_errors]. specialize (IH (line + 1)).
  destruct (row_valid row); cbn [map List.length app] in *; lia.
Qed.

(** X7.  Every row is accounted for: when the import of a stream of rows
    resolves, the number of rows is the report's [total] plus the number of
    parse errors, which are the entries of [errors] beyond the failed and the
    duplicate ones. *)
Theorem every_row_is_accounted_for (filePath : string) (rows : list Row.t) (st : DB)
    (r : Report.t) :
  promise (importDonorsFromCSV true filePath (stream_of rows [ParserEnd]) st) = Resolved r ->
  Z.of_nat (List.length rows)
  = Report.total r
    + (Z.of_nat (List.length (Report.errors r)) - Report.failed r - Report.duplicates r)
  /\ Report.total r = Z.of_nat (List.length (candidates rows)).
Proof.
  rewrite import_after_rows. cbn [fold_left dispatch].
  assert (Hc : candidates rows = [] \/ candidates rows <> [])
    by (destruct (candidates rows); [left|right]; congruence).
  destruct Hc as [Hc|Hc].
  - rewrite on_end_no_candidate by exact Hc. cbn [promise reject]. discriminate.
  - rewrite on_end_candidates by exact Hc.
    cbn [promise donors errors db resolve]. intros [= <-].
    cbn [Report.total Report.successful Report.duplicates Report.failed Report.errors].
    rewrite !length_app, <- failed_count, <- duplicate_count.
    pose proof (rows_are_candidates_or_parse_errors rows 1) as Hacc.
    split; [lia|reflexivity].
Qed.

(** X8.  The import of a stream that delivers its rows and ends always
    settles, in one of three ways: rejected for the missing file (no handler
    having run), rejected for the lack of a valid record, or resolved with a
    report. *)
Theorem import_of_a_complete_stream_settles (file_exists : bool) (filePath : string)
    (rows : list Row.t) (st : DB) :
  let s := importDonorsFromCSV file_exists filePath (stream_of rows [ParserEnd]) st in
  (file_exists = false
   /\ promise s = Rejected (new_Error ("CSV file not found at path: " ++ filePath))
   /\ db s = st /\ create_calls s = [] /\ errors s = [])
  \/ (file_exists = true /\ candidates rows = []
      /\ promise s = Rejected (new_Error "No valid donor records found in CSV"))
  \/ (file_exists = true /\ candidates rows <> []
      /\ exists r, promise s = Resolved r).
Proof.
  intros s. subst s. destruct file_exists.
  - right. rewrite import_after_rows. cbn [fold_left dispatch].
    destruct (candidates rows) as [|c cs] eqn:Ec.
    + left. rewrite on_end_no_candidate by reflexivity. now repeat split.
    + right. rewrite on_end_candidates by (cbn [donors]; discriminate).
      cbn [promise resolve]. repeat split; [discriminate|]. eexists. reflexivity.
  - left. now repeat split.
Qed.

End IngestionAccounting.

Lemma resolved_report_adds_up_witness :
  exists r,
    promise (@importDonorsFromCSV date_only_parser ascii_case_mapping Store
               (mongoose_model donorSchema_without_geo) true "donors.csv"
               (stream_of sample_rows [ParserEnd]) empty_store) = Resolved r
    /\ report_ok r.
Proof.
  eexists. split; [vm_compute; reflexivity|].
  apply (@resolved_report_adds_up date_only_parser ascii_case_mapping Store
           (mongoose_model donorSchema_without_geo) true "donors.csv"
           (stream_of sample_rows [ParserEnd]) empty_store).
  vm_compute. reflexivity.
Defined.

Lemma every_row_is_accounted_for_witness :
  exists r,
    promise (@importDonorsFromCSV date_only_parser ascii_case_mapping Store
               (mongoose_model donorSchema_without_geo) true "donors.csv"
               (stream_of sample_rows [ParserEnd]) empty_store) = Resolved r
    /\ Report.total r = 3
    /\ Z.of_nat (List.length sample_rows)
       = Report.total r
         + (Z.of_nat (List.length (Report.errors r)) - Report.failed r
            - Report.duplicates r).
Proof.
  eexists. split; [vm_compute; reflexivity|]. split; [reflexivity|].
  apply (@every_row_is_accounted_for date_only_parser ascii_case_mapping Store
           (mongoose_model donorSchema_without_geo) "donors.csv" sample_rows empty_store).
  vm_compute. reflexivity.
Defined.

(* ================================================================== *)
(** ** The import against the Mongoose model *)

Lemma Donor_create_failure (sch : Schema) (st st' : Store) (d : DonorData.t) (e : JsError) :
  Donor_create sch st d = (st', inr e) -> st' = st.
Proof.
  unfold Donor_create. destruct (invalid_paths sch d); [|congruence].
  destruct (existsb _ (docs st)); congruence.
Qed.

Lemma Donor_create_inserted (sch : Schema) (st st' : Store) (d : DonorData.t)
    (doc : Doc.t) :
  Donor_create sch st d = (st', inl doc) ->
  invalid_paths sch d = []
  /\ doc = to_doc sch (next_id st) d
  /\ st' = {| docs := docs st ++ [doc]; next_id := N.succ (next_id st) |}
  /\ (forall x, In x (docs st) -> Doc.email x <> Doc.email doc).
Proof.
  unfold Donor_create. destruct (invalid_paths sch d); [|discriminate].
  destruct (existsb _ (docs st)) eqn:Ex; [discriminate|].
  intros [= <- <-]. repeat split.
  intros x Hx Heq. rewrite <- not_true_iff_false in Ex. apply Ex.
  apply existsb_exists. exists x. split; [exact Hx|]. now apply String.eqb_eq.
Qed.

Lemma NoDup_snoc {A : Type} (l : list A) (a : A) :
  NoDup l -> ~ In a l -> NoDup (l ++ [a]).
Proof.
  intros Hl Ha. apply NoDup_app; [exact Hl|repeat constructor; intros []|].
  intros x Hx [<-|[]]. contradiction.
Qed.

Lemma Donor_create_store_ok (sch : Schema) (st st' : Store) (d : DonorData.t)
    (r : Doc.t + JsError) :
  store_ok st -> Donor_create sch st d = (st', r) -> store_ok st'.
Proof.
  intros (Hid & Hem & Hlt) Hc. destruct r as [doc|e].
  - apply Donor_create_inserted in Hc as (_ & Hdoc & -> & Hnew).
    unfold store_ok. cbn [docs next_id]. rewrite !map_app. cbn [map].
    rewrite Forall_forall in Hlt.
    split; [|split].
    + apply NoDup_snoc; [exact Hid|]. intros Hin.
      apply in_map_iff in Hin as (x & Hx & Hin). apply Hlt in Hin.
      rewrite Hx, Hdoc in Hin. cbn [to_doc Doc._id] in Hin. lia.
    + apply NoDup_snoc; [exact Hem|]. intros Hin.
      apply in_map_iff in Hin as (x & Hx & Hin). now apply (Hnew x Hin).
    + apply Forall_app. split.
      * apply Forall_forall. intros x Hx. apply Hlt in Hx. lia.
      * constructor; [|constructor]. rewrite Hdoc. cbn [to_doc Doc._id]. lia.
  - apply Donor_create_failure in Hc. subst st'. now repeat split.
Qed.

Section MongooseImport.

Context `{DP : DateParser} `{CM : CaseMapping}.
Variable sch : Schema.

Lemma create_all_collection (ds : list DonorData.t) : forall st : Store,
  docs (fst (@create_all Store (mongoose_model sch) ds st))
  = (docs st ++ flat_map successful_doc (snd (@create_all Store (mongoose_model sch) ds st)))%list
  /\ (store_ok st -> store_ok (fst (@create_all Store (mongoose_model sch) ds st)))
  /\ Forall (fun doc => exists d id, In d ds /\ invalid_paths sch d = []
                                     /\ doc = to_doc sch id d)
            (flat_map successful_doc (snd (@create_all Store (mongoose_model sch) ds st))).
Proof.
  induction ds as [|d ds IH]; intros st.
  - cbn. rewrite app_nil_r. split; [reflexivity|]. split; [auto|constructor].
  - cbn [create_all]. change (@create Store (mongoose_model sch)) with (Donor_create sch).
    destruct (Donor_create sch st d) as [st' o] eqn:Ec.
    specialize (IH st'). destruct (create_all ds st') as [st'' os].
    cbn [fst snd flat_map] in *. destruct IH as (Hdocs & Hok & Hall).
    assert (Hall' : Forall (fun doc => exists d0 id, In d0 (d :: ds)
                       /\ invalid_paths sch d0 = [] /\ doc = to_doc sch id d0)
                      (flat_map successful_doc os)).
    { eapply Forall_impl; [|exact Hall]. intros doc (d0 & id & Hin & Hv & He).
      exists d0, id. repeat split; [now right|exact Hv|exact He]. }
    split; [|split].
    + rewrite Hdocs. destruct o as [doc|e].
      * apply Donor_create_inserted in Ec as (_ & _ & -> & _). cbn [docs].
        unfold successful_doc at 2. cbn [snd]. now rewrite <- app_assoc.
      * apply Donor_create_failure in Ec. subst st'. reflexivity.
    + intros Hst. apply Hok. eapply Donor_create_store_ok; eauto.
    + destruct o as [doc|e]; unfold successful_doc at 1; cbn [snd app]; [|exact Hall'].
      constructor; [|exact Hall'].
      apply Donor_create_inserted in Ec as (Hv & Hdoc & _ & _).
      exists d, (next_id st). repeat split; [now left|exact Hv|exact Hdoc].
Qed.

Lemma dispatch_collection_grows (st0 : Store) (s : ImportState Store) (ev : Event) :
  collection_grows sch st0 s ->
  collection_grows sch st0 (@dispatch DP CM Store (mongoose_model sch) s ev).
Proof.
  intros (Hd & Hok & added & Hdocs & Hadded).
  destruct ev as [row| |m|m]; cbn [dispatch].
  - destruct (row_valid row) eqn:Hv.
    + rewrite (on_data_valid _ _ Hv). split; [|split]; cbn [donors db]; [|exact Hok|eauto].
      apply Forall_app. split; [exact Hd|]. constructor; [|constructor]. now exists row.
    + rewrite (on_data_invalid _ _ Hv). split; [|split]; cbn [donors db]; eauto.
  - destruct (donors_empty_or_not s) as [Ed|Ed].
    + rewrite (on_end_no_candidate s Ed). split; [|split]; cbn [donors db]; eauto.
    + rewrite on_end_candidates by exact Ed. cbn [donors db].
      destruct (create_all_collection (donors s) (db s)) as (Hdocs' & Hok' & Hall).
      split; [exact Hd|]. cbn [db]. split; [auto|].
      exists (added ++ flat_map successful_doc
                (snd (@create_all Store (mongoose_model sch) (donors s) (db s))))%list.
      split; [rewrite Hdocs', Hdocs; now rewrite app_assoc|].
      apply Forall_app. split; [exact Hadded|].
      eapply Forall_impl; [|exact Hall]. intros doc (d & id & Hin & Hv & He).
      rewrite Forall_forall in Hd. destruct (Hd d Hin) as (row & Hrv & ->).
      now exists row, id.
  - split; [|split]; cbn [on_error donors db]; eauto.
  - split; [|split]; cbn [donors db]; eauto.
Qed.

Lemma events_collection_grows (st0 : Store) (evs : list Event) :
  forall s : ImportState Store,
  collection_grows sch st0 s ->
  collection_grows sch st0 (fold_left (@dispatch DP CM Store (mongoose_model sch)) evs s).
Proof.
  induction evs as [|ev evs IH]; intros s Hs; [exact Hs|].
  cbn [fold_left]. apply IH. now apply dispatch_collection_grows.
Qed.

Lemma import_collection_grows (file_exists : bool) (filePath : string)
    (events : list Event) (st : Store) :
  collection_grows sch st (importIntoCollection sch file_exists filePath events st).
Proof.
  unfold importIntoCollection, importDonorsFromCSV.
  assert (H0 : forall p, collection_grows sch st
            {| donors := []; errors := []; lineNumber := 1; promise := p;
               db := st; create_calls := []; uncaught := [] |}).
  { intros p. split; [constructor|]. split; [auto|].
    exists []. cbn [db]. rewrite app_nil_r. split; [reflexivity|constructor]. }
  destruct file_exists; cbn [negb]; [|apply H0].
  apply events_collection_grows. apply H0.
Qed.

Lemma stored_from_row_form (doc : Doc.t) : stored_from_row sch doc -> imported_form doc.
Proof.
  intros (row & id & Hrv & Hv & ->).
  unfold invalid_paths in Hv.
  repeat match type of Hv with (_ ++ _)%list = [] => apply app_eq_nil in Hv as [? Hv] end.
  cbn [transform DonorData.name DonorData.blood_group DonorData.email option_map] in *.
  unfold imported_form.
  cbn [to_doc transform Doc.email Doc.name Doc.blood_group Doc.latitude Doc.longitude
       DonorData.name DonorData.email DonorData.blood_group DonorData.latitude
       DonorData.longitude from_option].
  rewrite (str_or_trim (fun s => String_toLowerCase (trim s))) in *
    by apply String_toLowerCase_empty.
  rewrite (str_or_trim (fun s => String_toUpperCase (trim s))) in *
    by apply String_toUpperCase_empty.
  rewrite (str_or_trim trim) in * by reflexivity.
  destruct (trim_spec (from_option "" (Row.email row))) as (_ & Hs & He).
  destruct (trim_spec (trim (from_option "" (Row.name row)))) as (_ & Hs' & He').
  repeat split.
  - apply toLowerCase_leaves_no_upper.
  - now rewrite toLowerCase_keeps_start.
  - now rewrite toLowerCase_keeps_end.
  - intros Hempty. unfold required_string in *. rewrite Hempty in *. discriminate.
  - apply toUpperCase_leaves_no_lower.
  - intros Hempty. unfold required_string in *. rewrite Hempty in *. discriminate.
  - exact Hs'.
  - exact He'.
  - now destruct (declares_geo sch).
  - now destruct (declares_geo sch).
Qed.

(** X9.  Against the Mongoose model, whatever the streams emit, an import
    only appends to the collection: the documents held before stay where they
    were, unchanged, and a collection whose identifiers and emails were unique
    still has unique identifiers and emails afterwards. *)
Theorem import_only_appends (file_exists : bool) (filePath : string)
    (events : list Event) (st : Store) :
  store_ok st ->
  let s := importIntoCollection sch file_exists filePath events st in
  store_ok (db s)
  /\ exists added, docs (db s) = (docs st ++ added)%list.
Proof.
  intros Hok s.
  destruct (import_collection_grows file_exists filePath events st)
    as (_ & Hok' & added & Hdocs & _).
  split; [now apply Hok'|]. now exists added.
Qed.

(** X10.  Every document that an import adds to the collection has its email
    trimmed, in lower case and not empty, its blood group without a lower-case
    letter, its name trimmed and not empty, and no geocoordinates. *)
Theorem imported_documents_are_normalised (file_exists : bool) (filePath : string)
    (events : list Event) (st : Store) :
  exists added,
    docs (db (importIntoCollection sch file_exists filePath events st))
    = (docs st ++ added)%list
    /\ Forall imported_form added.
Proof.
  destruct (import_collection_grows file_exists filePath events st)
    as (_ & _ & added & Hdocs & Hadded).
  exists added. split; [exact Hdocs|].
  eapply Forall_impl; [|exact Hadded]. intros doc. apply stored_from_row_form.
Qed.

(** X11.  When the import of a stream of rows resolves, the collection has
    grown by exactly [successful] documents. *)
Theorem collection_grows_by_successful (filePath : string) (rows : list Row.t)
    (st : Store) (r : Report.t) :
  promise (importIntoCollection sch true filePath (stream_of rows [ParserEnd]) st)
  = Resolved r ->
  Z.of_nat (List.length
              (docs (db (importIntoCollection sch true filePath
                           (stream_of rows [ParserEnd]) st))))
  = Z.of_nat (List.length (docs st)) + Report.successful r.
Proof.
  unfold importIntoCollection. rewrite import_after_rows. cbn [fold_left dispatch].
  assert (Hc : candidates rows = [] \/ candidates rows <> [])
    by (destruct (candidates rows); [left|right]; congruence).
  destruct Hc as [Hc|Hc].
  - rewrite on_end_no_candidate by exact Hc. cbn [promise reject]. discriminate.
  - rewrite on_end_candidates by exact Hc. cbn [promise donors errors db resolve].
    intros [= <-]. cbn [Report.successful].
    destruct (create_all_collection (candidates rows) st) as (Hdocs & _ & _).
    rewrite Hdocs, length_app, <- successful_count. lia.
Qed.

Lemma create_all_email_present (ds : list DonorData.t) : forall (st : Store) (d : DonorData.t),
  In d ds -> invalid_paths sch d = [] ->
  exists doc, In doc (docs (fst (@create_all Store (mongoose_model sch) ds st)))
              /\ Doc.email doc = from_option "" (DonorData.email d).
Proof.
  induction ds as [|d0 ds IH]; intros st d Hin Hv; [destruct Hin|].
  cbn [create_all]. change (@create Store (mongoose_model sch)) with (Donor_create sch).
  destruct (Donor_create sch st d0) as [st' o] eqn:Ec.
  destruct (create_all_collection ds st') as (Hdocs & _ & _).
  specialize (IH st').
  destruct (create_all ds st') as [st'' os]. cbn [fst snd] in *.
  destruct Hin as [->|Hin]; [|now apply IH].
  assert (Hst' : exists doc, In doc (docs st')
                   /\ Doc.email doc = from_option "" (DonorData.email d)).
  { unfold Donor_create in Ec. rewrite Hv in Ec.
    destruct (existsb _ (docs st)) eqn:Ex.
    - injection Ec as <- _. apply existsb_exists in Ex as (x & Hx & He).
      apply String.eqb_eq in He. exists x. split; [exact Hx|]. now rewrite He.
    - injection Ec as <- _. exists (to_doc sch (next_id st) d). cbn [docs]. split.
      + apply in_or_app. right. now left.
      + reflexivity. }
  destruct Hst' as (doc & Hdoc & He). exists doc. split; [|exact He].
  rewrite Hdocs. apply in_or_app. now left.
Qed.

End MongooseImport.

Lemma transform_has_no_geocoordinates `{DP : DateParser} `{CM : CaseMapping} (row : Row.t) :
  In "latitude" (invalid_paths donorSchema (transform row)).
Proof.
  unfold invalid_paths. do 8 (apply in_or_app; right).
  cbn [declares_geo donorSchema]. apply in_or_app. left. cbn. now left.
Qed.

Lemma Donor_create_geo_required `{DP : DateParser} `{CM : CaseMapping} (st : Store) (row : Row.t) :
  exists e, Donor_create donorSchema st (transform row) = (st, inr e)
            /\ is_duplicate_key e = false.
Proof.
  unfold Donor_create.
  pose proof (transform_has_no_geocoordinates row) as Hin.
  destruct (invalid_paths donorSchema (transform row)) as [|p ps]; [destruct Hin|].
  eexists. split; reflexivity.
Qed.

Lemma create_all_geo_required `{DP : DateParser} `{CM : CaseMapping} (rows : list Row.t) (st : Store) :
  fst (@create_all Store (mongoose_model donorSchema) (map transform rows) st) = st
  /\ Forall (fun o => classify (snd o) = Failed)
            (snd (@create_all Store (mongoose_model donorSchema) (map transform rows) st)).
Proof.
  induction rows as [|row rows [IHst IHall]]; [split; [reflexivity|constructor]|].
  cbn [map create_all].
  change (@create Store (mongoose_model donorSchema)) with (Donor_create donorSchema).
  destruct (Donor_create_geo_required st row) as (e & -> & He).
  destruct (create_all (map transform rows) st) as [st'' os]. cbn [fst snd] in *.
  split; [exact IHst|]. constructor; [|exact IHall].
  cbn [snd classify]. now rewrite He.
Qed.

Lemma count_class_all_failed (os : list (DonorData.t * (Doc.t + JsError))) :
  Forall (fun o => classify (snd o) = Failed) os ->
  count_class Successful os = 0 /\ count_class Duplicate os = 0
  /\ count_class Failed os = Z.of_nat (List.length os).
Proof.
  unfold count_class. induction 1 as [|o os Ho _ (IH1 & IH2 & IH3)]; [now repeat split|].
  cbn [filter List.length]. rewrite Ho. cbn [Class_eqb List.length].
  repeat split; lia.
Qed.

(** X13.  With the schema of [src/models/donorModel.js], which requires
    [latitude] and [longitude], an import stores nothing: the object built
    from a row has no geocoordinates, so every candidate fails validation.
    The collection is left as it was, and a report has [successful = 0],
    [duplicates = 0] and [failed = total]. *)
Theorem import_stores_nothing_when_geocoordinates_are_required
    `{DP : DateParser} `{CM : CaseMapping} (filePath : string) (rows : list Row.t) (st : Store) :
  let s := importIntoCollection donorSchema true filePath (stream_of rows [ParserEnd]) st in
  db s = st
  /\ (forall r, promise s = Resolved r ->
        Report.successful r = 0 /\ Report.duplicates r = 0
        /\ Report.failed r = Report.total r
        /\ Report.total r = Z.of_nat (List.length (candidates rows)))
  /\ (candidates rows <> [] -> exists r, promise s = Resolved r).
Proof.
  intros s. subst s. unfold importIntoCollection.
  rewrite import_after_rows. cbn [fold_left dispatch].
  assert (Hc : candidates rows = [] \/ candidates rows <> [])
    by (destruct (candidates rows); [left|right]; congruence).
  destruct Hc as [Hc|Hc].
  - rewrite on_end_no_candidate by exact Hc. cbn [promise reject db].
    repeat split; try discriminate. intros Hne. contradiction.
  - rewrite on_end_candidates by exact Hc. cbn [promise donors errors db resolve].
    unfold candidates in *.
    destruct (create_all_geo_required (filter row_valid rows) st) as [Hst Hall].
    destruct (count_class_all_failed _ Hall) as (H1 & H2 & H3).
    split; [exact Hst|]. split.
    + intros r [= <-].
      cbn [Report.total Report.successful Report.duplicates Report.failed].
      rewrite H1, H2, H3, create_all_length. now repeat split.
    + intros _. eexists. reflexivity.
Qed.

(** X12.  With the schema that declares no geocoordinates: after the import
    of a stream of rows, the email of every candidate that passes the
    validation of that schema is the email of a stored document, for the
    candidate was stored or a document with that email was there. *)
Theorem valid_candidate_email_is_stored `{DP : DateParser} `{CM : CaseMapping}
    (filePath : string) (rows : list Row.t) (st : Store) (d : DonorData.t) :
  In d (candidates rows) ->
  invalid_paths donorSchema_without_geo d = [] ->
  exists doc,
    In doc (docs (db (importIntoCollection donorSchema_without_geo true filePath
                        (stream_of rows [ParserEnd]) st)))
    /\ Some (Doc.email doc) = DonorData.email d.
Proof.
  intros Hin Hv. unfold importIntoCollection.
  rewrite import_after_rows. cbn [fold_left dispatch].
  rewrite on_end_candidates by (cbn [donors]; intros He; rewrite He in Hin; destruct Hin).
  cbn [db donors].
  destruct (create_all_email_present donorSchema_without_geo (candidates rows) st d Hin Hv)
    as (doc & Hdoc & He).
  exists doc. split; [exact Hdoc|]. rewrite He.
  unfold candidates in Hin. apply in_map_iff in Hin as (row & <- & _). reflexivity.
Qed.

Lemma store_ok_empty : store_ok empty_store.
Proof. repeat split; constructor. Qed.

Lemma import_only_appends_witness :
  store_ok empty_store
  /\ store_ok (db (@importIntoCollection date_only_parser ascii_case_mapping donorSchema_without_geo true
                     "donors.csv" (stream_of sample_rows [ParserEnd]) empty_store)).
Proof.
  split; [exact store_ok_empty|].
  exact (proj1 (@import_only_appends date_only_parser ascii_case_mapping donorSchema_without_geo true
                  "donors.csv" (stream_of sample_rows [ParserEnd]) empty_store
                  store_ok_empty)).
Defined.

Lemma collection_grows_by_successful_witness :
  exists r,
    promise (@importIntoCollection date_only_parser ascii_case_mapping donorSchema_without_geo true
               "donors.csv" (stream_of sample_rows [ParserEnd]) empty_store)
    = Resolved r
    /\ Report.successful r = 1
    /\ Z.of_nat (List.length
                   (docs (db (@importIntoCollection date_only_parser ascii_case_mapping
                                donorSchema_without_geo true "donors.csv"
                                (stream_of sample_rows [ParserEnd]) empty_store))))
       = Z.of_nat (List.length (docs empty_store)) + Report.successful r.
Proof.
  eexists. split; [vm_compute; reflexivity|]. split; [reflexivity|].
  apply (@collection_grows_by_successful date_only_parser ascii_case_mapping donorSchema_without_geo
           "donors.csv" sample_rows empty_store).
  vm_compute. reflexivity.
Defined.

Lemma valid_candidate_email_is_stored_witness :
  In (@transform date_only_parser ascii_case_mapping sample_ann_again) (@candidates date_only_parser ascii_case_mapping sample_rows)
  /\ invalid_paths donorSchema_without_geo (@transform date_only_parser ascii_case_mapping sample_ann_again) = []
  /\ exists doc,
       In doc (docs (db (@importIntoCollection date_only_parser ascii_case_mapping donorSchema_without_geo
                           true "donors.csv" (stream_of sample_rows [ParserEnd])
                           empty_store)))
       /\ Some (Doc.email doc) = Some "ann@example.org".
Proof.
  assert (Hin : In (@transform date_only_parser ascii_case_mapping sample_ann_again)
                   (@candidates date_only_parser ascii_case_mapping sample_rows))
    by (vm_compute; right; left; reflexivity).
  assert (Hv : invalid_paths donorSchema_without_geo
                 (@transform date_only_parser ascii_case_mapping sample_ann_again) = []) by reflexivity.
  split; [exact Hin|]. split; [exact Hv|].
  exact (@valid_candidate_email_is_stored date_only_parser ascii_case_mapping
           "donors.csv" sample_rows empty_store _ Hin Hv).
Defined.

(* ================================================================== *)
(** ** Queries by blood group and over time *)

Lemma upper_lower_char (c : ascii) : upper_char (lower_char c) = upper_char c.
Proof. destruct c as [[] [] [] [] [] [] [] []]; reflexivity. Qed.

Lemma toUpperCase_toLowerCase (s : string) : toUpperCase (toLowerCase s) = toUpperCase s.
Proof.
  induction s as [|c s IH]; [reflexivity|].
  unfold toUpperCase, toLowerCase in *. cbn [map_string].
  now rewrite upper_lower_char, IH.
Qed.

Lemma same_letters_same_upper (a b : string) :
  toLowerCase a = toLowerCase b -> toUpperCase a = toUpperCase b.
Proof.
  intros H. rewrite <- (toUpperCase_toLowerCase a), <- (toUpperCase_toLowerCase b).
  now rewrite H.
Qed.

(** X14.  [getDonorsByBloodGroup] returns the stored records whose blood
    group is the argument in upper case.  The argument may be given in any
    case, but a record whose stored blood group holds a lower-case letter is
    never returned, whatever the argument. *)
Theorem getDonorsByBloodGroup_matches_upper_case (st : Store) (bloodGroup : string) :
  exists result,
    getDonorsByBloodGroup None st bloodGroup = Returned result
    /\ (forall d, In d result <->
                  In d (docs st) /\ Doc.blood_group d = toUpperCase bloodGroup)
    /\ (forall d, In d result -> no_char is_lower (Doc.blood_group d) = true)
    /\ (forall other, toLowerCase other = toLowerCase bloodGroup ->
                      getDonorsByBloodGroup None st other = Returned result).
Proof.
  unfold getDonorsByBloodGroup, Donor_find. eexists. split; [reflexivity|].
  assert (Hin : forall d,
             In d (filter (matches_all [BloodGroupIs (toUpperCase bloodGroup)]) (docs st))
             <-> In d (docs st) /\ Doc.blood_group d = toUpperCase bloodGroup).
  { intros d. rewrite filter_In. cbn [matches_all forallb matches].
    rewrite andb_true_r, String.eqb_eq. reflexivity. }
  split; [exact Hin|]. split.
  - intros d Hd. apply Hin in Hd as [_ ->]. apply toUpperCase_no_lower.
  - intros other Hsame. now rewrite (same_letters_same_upper _ _ Hsame).
Qed.

(** X15.  Without the eligibility flag, [getAllDonors] with a non-empty
    blood-group filter returns what [getDonorsByBloodGroup] returns for it;
    with an empty or absent one it returns the whole collection, where
    [getDonorsByBloodGroup] of the empty string looks for records with an
    empty blood group. *)
Theorem getAllDonors_and_getDonorsByBloodGroup (tz : tzinfo) (now : Z) (st : Store)
    (bloodGroup : string) (flag : JsValue) :
  flag <> JString "true" ->
  (bloodGroup <> "" ->
   getAllDonors tz now None st {| f_blood_group := Some bloodGroup; f_isEligible := flag |}
   = getDonorsByBloodGroup None st bloodGroup)
  /\ getAllDonors tz now None st {| f_blood_group := Some ""; f_isEligible := flag |}
     = Returned (docs st)
  /\ getAllDonors tz now None st {| f_blood_group := None; f_isEligible := flag |}
     = Returned (docs st)
  /\ getDonorsByBloodGroup None st ""
     = Returned (filter (fun d => String.eqb (Doc.blood_group d) "") (docs st)).
Proof.
  intros Hflag.
  assert (Hf : strict_eq_string flag "true" = false).
  { destruct flag as [|b|s]; try reflexivity. cbn.
    destruct (String.eqb_spec s "true"); [congruence|reflexivity]. }
  assert (Hall : forall l : list Doc.t, filter (fun _ => true) l = l).
  { induction l as [|x l IH]; [reflexivity|]. cbn. now rewrite IH. }
  split; [|split; [|split]].
  - intros Hne. rewrite getAllDonors_result.
    unfold getDonorsByBloodGroup, Donor_find. f_equal. apply filter_ext. intros d.
    unfold build_query, matches_all. cbn [f_blood_group f_isEligible truthy from_option].
    rewrite Hf. destruct (String.eqb_spec bloodGroup ""); [contradiction|]. reflexivity.
  - rewrite getAllDonors_result. f_equal.
    unfold build_query. cbn [f_blood_group f_isEligible truthy String.eqb negb app].
    rewrite Hf. apply Hall.
  - rewrite getAllDonors_result. f_equal.
    unfold build_query. cbn [f_blood_group f_isEligible truthy app].
    rewrite Hf. apply Hall.
  - unfold getDonorsByBloodGroup, Donor_find. f_equal. apply filter_ext. intros d.
    cbn. now rewrite andb_true_r.
Qed.

Lemma getAllDonors_and_getDonorsByBloodGroup_witness :
  JUndefined <> JString "true"
  /\ getAllDonors utc_zone sample_now None sample_store
       {| f_blood_group := Some "o-"; f_isEligible := JUndefined |}
     = getDonorsByBloodGroup None sample_store "o-"
  /\ getDonorsByBloodGroup None sample_store "o-" = Returned [sample_doc_raj].
Proof.
  assert (Hflag : JUndefined <> JString "true") by discriminate.
  split; [exact Hflag|]. split; [|reflexivity].
  apply (getAllDonors_and_getDonorsByBloodGroup utc_zone sample_now sample_store "o-"
           JUndefined Hflag).
  discriminate.
Defined.

Lemma ninetyDaysAgo_fixed_zone (offset now : Z) :
  ninetyDaysAgo (fixed_zone offset) now = now - 90 * msPerDay.
Proof. rewrite ninetyDaysAgo_eq. cbn. lia. Qed.

(** X16.  In a zone of fixed offset, eligibility only grows with time: a
    record that [getAllDonors] returns at one instant, under some filters, is
    returned under the same filters at every later instant, as long as the
    collection is the same. *)
Theorem listed_donors_stay_listed (offset now later : Z) (st : Store) (filters : Filters) :
  now <= later ->
  exists result result',
    getAllDonors (fixed_zone offset) now None st filters = Returned result
    /\ getAllDonors (fixed_zone offset) later None st filters = Returned result'
    /\ (forall d, In d result -> In d result').
Proof.
  intros Hle. rewrite !getAllDonors_result. do 2 eexists.
  split; [reflexivity|]. split; [reflexivity|].
  intros d. rewrite !filter_In. intros [Hd Hm]. split; [exact Hd|].
  destruct filters as [bg flag]. rewrite blood_group_query in *.
  apply andb_true_iff in Hm as [Hbg He]. rewrite Hbg. cbn [andb].
  destruct (strict_eq_string flag "true"); [|reflexivity].
  destruct (Doc.last_donation_date d) as [t|]; [|reflexivity].
  rewrite ninetyDaysAgo_fixed_zone in *. apply Z.leb_le in He. apply Z.leb_le. lia.
Qed.

Lemma listed_donors_stay_listed_witness :
  1758628800000 <= 1775908800000
  /\ getAllDonors (fixed_zone 19800000) 1758628800000 None sample_store
       {| f_blood_group := None; f_isEligible := JString "true" |}
     = Returned [sample_doc_ann]
  /\ getAllDonors (fixed_zone 19800000) 1775908800000 None sample_store
       {| f_blood_group := None; f_isEligible := JString "true" |}
     = Returned [sample_doc_ann; sample_doc_raj].
Proof.
  assert (Hle : 1758628800000 <= 1775908800000) by lia.
  split; [exact Hle|].
  destruct (listed_donors_stay_listed 19800000 1758628800000 1775908800000 sample_store
              {| f_blood_group := None; f_isEligible := JString "true" |} Hle)
    as (l & l' & _ & _ & _).
  split; vm_compute; reflexivity.
Defined.

(* ================================================================== *)
(** ** Creating, fetching, updating and deleting one record *)

(** X17.  [createDonor] on a collection with unique identifiers and emails:
    when it throws, the collection is as it was; when it returns, the
    collection is the old one followed by the returned document, whose
    identifier and email no older document has; either way identifiers and
    emails stay unique. *)
Theorem createDonor_keeps_uniqueness (sch : Schema) (st : Store) (donorData : DonorData.t) :
  store_ok st ->
  store_ok (fst (createDonor sch st donorData))
  /\ match snd (createDonor sch st donorData) with
     | Thrown _ => fst (createDonor sch st donorData) = st
     | Returned doc =>
         docs (fst (createDonor sch st donorData)) = (docs st ++ [doc])%list
         /\ Doc._id doc = next_id st
         /\ (forall x, In x (docs st) ->
                       Doc._id x <> Doc._id doc /\ Doc.email x <> Doc.email doc)
     end.
Proof.
  intros Hok. unfold createDonor.
  destruct (Donor_create sch st donorData) as [st' [doc|e]] eqn:Ec.
  - cbn [fst snd]. split; [eapply Donor_create_store_ok; eauto|].
    apply Donor_create_inserted in Ec as (_ & Hdoc & -> & Hnew).
    cbn [docs]. split; [reflexivity|]. split; [now rewrite Hdoc|].
    intros x Hx. split; [|now apply Hnew].
    destruct Hok as (_ & _ & Hlt). rewrite Forall_forall in Hlt. apply Hlt in Hx.
    rewrite Hdoc. cbn [to_doc Doc._id]. lia.
  - apply Donor_create_failure in Ec. subst st'.
    destruct (is_duplicate_key e); cbn [fst snd]; now split.
Qed.

Lemma createDonor_keeps_uniqueness_witness :
  store_ok sample_store
  /\ store_ok (fst (createDonor donorSchema sample_store sample_data_ann_upper))
  /\ fst (createDonor donorSchema sample_store sample_data_ann) = sample_store.
Proof.
  assert (Hok : store_ok sample_store).
  { repeat split.
    - repeat constructor; cbn; intuition discriminate.
    - repeat constructor; cbn; intuition discriminate.
    - repeat constructor. }
  split; [exact Hok|].
  split; [exact (proj1 (createDonor_keeps_uniqueness donorSchema sample_store
                           sample_data_ann_upper Hok))|reflexivity].
Defined.

Section ByIdRoundTrips.

Variable castObjectId : string -> option N.

Lemma find_after (p : Doc.t -> bool) (l : list Doc.t) (d : Doc.t) :
  (forall x, In x l -> p x = false) -> p d = true -> find p (l ++ [d]) = Some d.
Proof.
  intros Hno Hd. induction l as [|x l IH]; cbn [app find].
  - now rewrite Hd.
  - rewrite Hno by now left. apply IH. intros y Hy. apply Hno. now right.
Qed.

(** X18.  A record that [createDonor] returned is the record that
    [getDonorById] returns for its identifier, and that the controller sends
    with status 200. *)
Theorem created_donor_can_be_fetched (sch : Schema) (st st' : Store)
    (donorData : DonorData.t) (doc : Doc.t) (donorId : string) :
  store_ok st ->
  createDonor sch st donorData = (st', Returned doc) ->
  castObjectId donorId = Some (Doc._id doc) ->
  getDonorById castObjectId st' donorId = Returned doc
  /\ Controller.getDonorById castObjectId st' donorId
     = {| status := 200; body := DonorBody doc |}.
Proof.
  intros (_ & _ & Hlt) Hc Hcast.
  assert (Hcreate : Donor_create sch st donorData = (st', inl doc)).
  { unfold createDonor in Hc.
    destruct (Donor_create sch st donorData) as [st1 [doc1|e]].
    - now injection Hc as -> ->.
    - destruct (is_duplicate_key e); discriminate. }
  apply Donor_create_inserted in Hcreate as (_ & Hdoc & Hst' & _).
  assert (Hdocs : docs st' = (docs st ++ [doc])%list) by (now rewrite Hst').
  assert (Hnew : forall x, In x (docs st) -> Doc._id x <> Doc._id doc).
  { intros x Hx. rewrite Forall_forall in Hlt. apply Hlt in Hx.
    rewrite Hdoc. cbn [to_doc Doc._id]. lia. }
  assert (Hfind : find (fun d => N.eqb (Doc._id d) (Doc._id doc)) (docs st') = Some doc).
  { rewrite Hdocs. apply find_after; [|apply N.eqb_refl].
    intros x Hx. apply N.eqb_neq. now apply Hnew. }
  unfold getDonorById, Controller.getDonorById, Donor_findById.
  rewrite Hcast, Hfind. now split.
Qed.

Lemma find_filter_other (oid oid' : N) (l : list Doc.t) :
  oid' <> oid ->
  find (fun d => N.eqb (Doc._id d) oid')
       (filter (fun x => negb (N.eqb (Doc._id x) oid)) l)
  = find (fun d => N.eqb (Doc._id d) oid') l.
Proof.
  intros Hne. induction l as [|x l IH]; [reflexivity|]. cbn [filter find].
  destruct (N.eqb_spec (Doc._id x) oid) as [He|He]; cbn [negb find].
  - destruct (N.eqb_spec (Doc._id x) oid'); [congruence|exact IH].
  - now rewrite IH.
Qed.

Lemma find_filter_same (oid : N) (l : list Doc.t) :
  find (fun d => N.eqb (Doc._id d) oid)
       (filter (fun x => negb (N.eqb (Doc._id x) oid)) l) = None.
Proof.
  induction l as [|x l IH]; [reflexivity|]. cbn [filter].
  destruct (N.eqb_spec (Doc._id x) oid) as [He|He]; cbn [negb find]; [exact IH|].
  destruct (N.eqb_spec (Doc._id x) oid); [contradiction|exact IH].
Qed.

Lemma filter_keeps_distinct {K : Type} (key : Doc.t -> K) (keep : Doc.t -> bool)
    (ds : list Doc.t) :
  NoDup (map key ds) -> NoDup (map key (filter keep ds)).
Proof.
  induction ds as [|d ds IH]; cbn [map filter]; [auto|].
  intros Hnd. apply NoDup_cons_iff in Hnd as [Hd Hnd].
  destruct (keep d); cbn [map]; [|now apply IH].
  constructor; [|now apply IH]. intros Hin. apply Hd.
  apply in_map_iff in Hin as (y & Hy & Hin). apply filter_In in Hin as [Hin _].
  apply in_map_iff. now exists y.
Qed.

Lemma deleteDonor_returned (st st' : Store) (donorId : string) (d : Doc.t) :
  deleteDonor castObjectId st donorId = (st', Returned d) ->
  castObjectId donorId = Some (Doc._id d)
  /\ In d (docs st)
  /\ st' = {| docs := filter (fun x => negb (N.eqb (Doc._id x) (Doc._id d))) (docs st);
              next_id := next_id st |}.
Proof.
  unfold deleteDonor, Donor_findByIdAndDelete.
  destruct (castObjectId donorId) as [oid|]; [|cbn; discriminate].
  destruct (find (fun d0 => N.eqb (Doc._id d0) oid) (docs st)) as [d0|] eqn:Ef;
    [|cbn; discriminate].
  intros [= <- <-]. apply find_some in Ef as [Hin He]. apply N.eqb_eq in He.
  subst oid. now repeat split.
Qed.

(** X19.  After [deleteDonor] has returned a record, no stored record has its
    identifier: fetching or deleting that identifier again fails with 'Donor
    not found'.  Every other identifier fetches what it fetched before, and
    identifiers and emails that were unique stay unique. *)
Theorem deleted_donor_is_gone (st st' : Store) (donorId : string) (d : Doc.t) :
  deleteDonor castObjectId st donorId = (st', Returned d) ->
  In d (docs st)
  /\ (forall x, In x (docs st') <-> In x (docs st) /\ Doc._id x <> Doc._id d)
  /\ getDonorById castObjectId st' donorId = Thrown (new_Error "Donor not found")
  /\ deleteDonor castObjectId st' donorId = (st', Thrown (new_Error "Donor not found"))
  /\ (forall other oid, castObjectId other = Some oid -> oid <> Doc._id d ->
        getDonorById castObjectId st' other = getDonorById castObjectId st other)
  /\ (store_ok st -> store_ok st').
Proof.
  intros Hdel. apply deleteDonor_returned in Hdel as (Hcast & Hin & ->).
  split; [exact Hin|]. split; [|split; [|split; [|split]]].
  - intros x. cbn [docs]. rewrite filter_In, negb_true_iff, N.eqb_neq. reflexivity.
  - unfold getDonorById, Donor_findById. rewrite Hcast. cbn [docs].
    now rewrite find_filter_same.
  - unfold deleteDonor, Donor_findByIdAndDelete. rewrite Hcast. cbn [docs].
    now rewrite find_filter_same.
  - intros other oid Hother Hne. unfold getDonorById, Donor_findById.
    rewrite Hother. cbn [docs]. now rewrite find_filter_other.
  - intros (Hid & Hem & Hlt). unfold store_ok. cbn [docs next_id].
    split; [now apply filter_keeps_distinct|]. split; [now apply filter_keeps_distinct|].
    rewrite Forall_forall in *. intros x Hx. apply filter_In in Hx as [Hx _]. now apply Hlt.
Qed.

Lemma replace_by_id_ids (oid : N) (d' : Doc.t) (l : list Doc.t) :
  Doc._id d' = oid -> map Doc._id (replace_by_id oid d' l) = map Doc._id l.
Proof.
  intros Hid. induction l as [|x l IH]; [reflexivity|]. cbn [replace_by_id].
  destruct (N.eqb_spec (Doc._id x) oid); cbn [map]; congruence.
Qed.

Lemma replace_by_id_find (oid : N) (d' d : Doc.t) (l : list Doc.t) :
  Doc._id d' = oid ->
  find (fun x => N.eqb (Doc._id x) oid) l = Some d ->
  find (fun x => N.eqb (Doc._id x) oid) (replace_by_id oid d' l) = Some d'.
Proof.
  intros Hid. induction l as [|x l IH]; [discriminate|]. cbn [replace_by_id find].
  destruct (N.eqb_spec (Doc._id x) oid) as [He|He]; cbn [find].
  - intros _. rewrite Hid, N.eqb_refl. reflexivity.
  - destruct (N.eqb_spec (Doc._id x) oid); [contradiction|exact IH].
Qed.

Lemma replace_by_id_in (oid : N) (d' : Doc.t) (l : list Doc.t) (x : Doc.t) :
  In x (replace_by_id oid d' l) -> x = d' \/ In x l.
Proof.
  induction l as [|y l IH]; [intros []|]. cbn [replace_by_id].
  destruct (N.eqb (Doc._id y) oid).
  - intros [<-|Hin]; [now left|right; now right].
  - intros [<-|Hin]; [right; now left|]. destruct (IH Hin); [now left|right; now right].
Qed.

Lemma replace_by_id_others (oid : N) (d' : Doc.t) (l : list Doc.t) (x : Doc.t) :
  Doc._id d' = oid -> NoDup (map Doc._id l) -> Doc._id x <> oid ->
  (In x (replace_by_id oid d' l) <-> In x l).
Proof.
  intros Hid. induction l as [|y l IH]; [reflexivity|]. cbn [replace_by_id map].
  intros Hnd Hx. apply NoDup_cons_iff in Hnd as [Hy Hnd].
  destruct (N.eqb_spec (Doc._id y) oid) as [He|He]; cbn [In].
  - split; intros [<-|Hin]; try congruence; now right.
  - rewrite (IH Hnd Hx). reflexivity.
Qed.

Lemma replace_by_id_emails (oid : N) (d' : Doc.t) (l : list Doc.t) :
  NoDup (map Doc._id l) -> NoDup (map Doc.email l) ->
  (forall x, In x l -> Doc._id x <> oid -> Doc.email x <> Doc.email d') ->
  NoDup (map Doc.email (replace_by_id oid d' l)).
Proof.
  induction l as [|y l IH]; [constructor|]. cbn [replace_by_id map].
  intros Hid Hem Hother.
  apply NoDup_cons_iff in Hid as [Hy Hid]. apply NoDup_cons_iff in Hem as [Hye Hem].
  destruct (N.eqb_spec (Doc._id y) oid) as [He|He]; cbn [map].
  - constructor; [|exact Hem]. intros Hin.
    apply in_map_iff in Hin as (x & Hx & Hin).
    apply (Hother x); [now right| |exact Hx].
    intros Hxo. apply Hy. apply in_map_iff. exists x. split; [congruence|exact Hin].
  - constructor.
    + intros Hin. apply in_map_iff in Hin as (x & Hx & Hin).
      apply replace_by_id_in in Hin as [->|Hin].
      * apply (Hother y); [now left|exact He|now symmetry].
      * apply Hye. apply in_map_iff. now exists x.
    + apply IH; [exact Hid|exact Hem|]. intros x Hx. apply Hother. now right.
Qed.

(** X20.  [updateDonor] on a collection with unique identifiers and emails:
    when it throws, the collection is as it was; when it returns, the record
    returned is the stored record of that identifier with the paths of the
    update replaced, it is what [getDonorById] now returns, every other record
    and the number of records are as before, and identifiers and emails are
    still unique. *)
Theorem updateDonor_replaces_one_record (sch : Schema) (st : Store) (donorId : string)
    (updateData : DonorData.t) :
  store_ok st ->
  match snd (updateDonor castObjectId sch st donorId updateData) with
  | Thrown _ => fst (updateDonor castObjectId sch st donorId updateData) = st
  | Returned doc =>
      let st' := fst (updateDonor castObjectId sch st donorId updateData) in
      (exists old, In old (docs st)
                   /\ castObjectId donorId = Some (Doc._id old)
                   /\ doc = apply_update sch updateData old)
      /\ getDonorById castObjectId st' donorId = Returned doc
      /\ (forall x, Doc._id x <> Doc._id doc -> (In x (docs st') <-> In x (docs st)))
      /\ List.length (docs st') = List.length (docs st)
      /\ store_ok st'
  end.
Proof.
  intros (Hid & Hem & Hlt). unfold updateDonor, Donor_findByIdAndUpdate.
  destruct (castObjectId donorId) as [oid|] eqn:Hcast; [|reflexivity].
  destruct (uncastable_paths updateData) as [|q qs]; [|reflexivity].
  destruct (invalid_update_paths updateData) as [|p ps]; [|reflexivity].
  destruct (find (fun d => N.eqb (Doc._id d) oid) (docs st)) as [old|] eqn:Ef;
    [|reflexivity].
  pose proof (find_some _ _ Ef) as [Hin He]. apply N.eqb_eq in He.
  destruct (existsb _ (docs st)) eqn:Ex; [reflexivity|].
  cbn [snd fst docs next_id].
  assert (Hnew : Doc._id (apply_update sch updateData old) = oid) by exact He.
  split; [exists old; subst oid; now repeat split|].
  split; [|split; [|split]].
  - unfold getDonorById, Donor_findById. rewrite Hcast. cbn [docs].
    now rewrite (replace_by_id_find oid _ old _ Hnew Ef).
  - intros x Hx. apply replace_by_id_others; [exact Hnew|exact Hid|congruence].
  - rewrite <- (length_map Doc._id), replace_by_id_ids, length_map by exact Hnew.
    reflexivity.
  - unfold store_ok. cbn [docs next_id].
    split; [now rewrite replace_by_id_ids|]. split.
    + apply replace_by_id_emails; [exact Hid|exact Hem|].
      intros x Hx Hxo Heq. rewrite <- not_true_iff_false in Ex. apply Ex.
      apply existsb_exists. exists x. split; [exact Hx|].
      apply andb_true_iff. split; [now apply negb_true_iff, N.eqb_neq|].
      now apply String.eqb_eq.
    + rewrite Forall_forall in *. intros x Hx.
      apply replace_by_id_in in Hx as [->|Hx]; [|now apply Hlt].
      rewrite Hnew, <- He. now apply Hlt.
Qed.

Lemma replace_by_id_self (oid : N) (d : Doc.t) (l : list Doc.t) :
  find (fun x => N.eqb (Doc._id x) oid) l = Some d -> replace_by_id oid d l = l.
Proof.
  induction l as [|x l IH]; [reflexivity|]. cbn [find replace_by_id].
  destruct (N.eqb (Doc._id x) oid); [now intros [= ->]|]. intros Hf. now rewrite IH.
Qed.

Lemma apply_no_update (sch : Schema) (d : Doc.t) : apply_update sch no_update d = d.
Proof. destruct d. reflexivity. Qed.

(** X21.  An update that sets no path is a fetch: on a collection with unique
    identifiers and emails, [updateDonor] with it returns the record that
    [getDonorById] returns and leaves the collection as it was. *)
Theorem empty_update_is_a_fetch (sch : Schema) (st : Store) (donorId : string) (d : Doc.t) :
  store_ok st ->
  getDonorById castObjectId st donorId = Returned d ->
  updateDonor castObjectId sch st donorId no_update = (st, Returned d).
Proof.
  intros (Hid & Hem & _). unfold getDonorById, updateDonor, Donor_findById,
    Donor_findByIdAndUpdate.
  destruct (castObjectId donorId) as [oid|]; [|cbn; discriminate].
  destruct (find (fun d0 => N.eqb (Doc._id d0) oid) (docs st)) as [d0|] eqn:Ef;
    [|cbn; discriminate].
  intros [= ->]. cbn [uncastable_paths invalid_update_paths no_update].
  rewrite apply_no_update.
  pose proof (find_some _ _ Ef) as [Hin He]. apply N.eqb_eq in He.
  assert (Ex : existsb (fun x => negb (N.eqb (Doc._id x) oid)
                                 && String.eqb (Doc.email x) (Doc.email d)) (docs st)
               = false).
  { apply not_true_iff_false. intros Ex. apply existsb_exists in Ex as (x & Hx & Hb).
    apply andb_true_iff in Hb as [Hne Heq]. apply negb_true_iff, N.eqb_neq in Hne.
    apply String.eqb_eq in Heq. apply Hne. rewrite <- He.
    clear Ef Hid. induction (docs st) as [|y l IH]; [destruct Hx|].
    cbn [map] in Hem. apply NoDup_cons_iff in Hem as [Hy Hem].
    destruct Hx as [->|Hx], Hin as [->|Hin]; auto.
    - exfalso. apply Hy. apply in_map_iff. exists d. split; [now symmetry|exact Hin].
    - exfalso. apply Hy. apply in_map_iff. now exists x. }
  cbn [DonorData.name DonorData.age DonorData.blood_group DonorData.contact_number
       DonorData.email DonorData.address DonorData.last_donation_date option_map
       updated_string cast_number app].
  rewrite Ex, (replace_by_id_self oid d _ Ef). destruct st. reflexivity.
Qed.

(** X22.  The controller behind [GET /:id] answers 200 with the record
    exactly when the service returns it, and 404 with 'Donor not found'
    exactly when the service fails with that error; when the identifier is
    not well formed, where the service fails with 'Invalid donor ID format',
    it answers 500.  It answers with no other status. *)
Theorem controller_getDonorById_statuses (st : Store) (id : string) :
  let response := Controller.getDonorById castObjectId st id in
  (forall d, getDonorById castObjectId st id = Returned d <->
             response = {| status := 200; body := DonorBody d |})
  /\ (getDonorById castObjectId st id = Thrown (new_Error "Donor not found") <->
      response = {| status := 404; body := MessageBody "Donor not found" None |})
  /\ (getDonorById castObjectId st id = Thrown (new_Error "Invalid donor ID format") ->
      status response = 500)
  /\ (castObjectId id = None -> status response = 500)
  /\ (status response = 200 \/ status response = 404 \/ status response = 500).
Proof.
  intros response. subst response.
  unfold Controller.getDonorById, getDonorById, Donor_findById.
  destruct (castObjectId id) as [oid|].
  - destruct (find (fun d => N.eqb (Doc._id d) oid) (docs st)) as [d0|].
    + repeat split; try discriminate; try (intros [= ->]; reflexivity); auto.
    + cbn. repeat split; try discriminate; auto.
  - cbn. repeat split; try discriminate; auto.
Qed.

Lemma uncastable_paths_nil (u : DonorData.t) :
  uncastable_paths u = [] <-> castable u.
Proof.
  unfold uncastable_paths, castable, cast_number.
  destruct (DonorData.age u) as [[z|b|]|], (DonorData.last_donation_date u) as [[t|]|];
    cbn; split; try discriminate; try tauto; repeat split; discriminate.
Qed.

Lemma updated_string_nil (path : string) (v : option string) :
  updated_string path v = [] <-> v <> Some "".
Proof.
  unfold updated_string, required_string, truthy.
  destruct v as [x|]; [|split; [discriminate|reflexivity]].
  destruct (String.eqb_spec x ""); cbn; split; congruence.
Qed.

Lemma paths_nil (l l' : list string) : (l ++ l')%list = [] <-> l = [] /\ l' = [].
Proof.
  split; [apply app_eq_nil|]. now intros [-> ->].
Qed.

Lemma invalid_update_paths_nil (u : DonorData.t) :
  invalid_update_paths u = [] <-> ~ empties_a_required_string u.
Proof.
  unfold invalid_update_paths, empties_a_required_string.
  rewrite !paths_nil, !updated_string_nil. split.
  - intros (Hn & Hb & Hc & He & Ha) [(x & Hx & Ht)|[H|[H|[H|H]]]]; try contradiction.
    rewrite Hx in Hn. cbn in Hn. congruence.
  - intros Hno. repeat split; try (intros H; apply Hno; tauto).
    destruct (DonorData.name u) as [x|] eqn:Hx; [|discriminate].
    cbn. intros [= Ht]. apply Hno. left. now exists x.
Qed.

(** X23.  How [updateDonor] fails, the collection being left as it was each
    time.  It fails with 'Invalid donor ID format' for an identifier that is
    not well formed, whatever the update, and also, the identifier being well
    formed, for an update whose [age] is [NaN] or whose date is invalid: the
    service tells a cast error by its name, not by its path.  For an update
    that can be cast it fails with Mongoose's validation error, thrown again
    as it is, when the update sets [name] to white space or another required
    string to the empty string; with 'Donor not found' when the update empties
    no required string and no record has the identifier; and with 'Email
    already exists' when such an update sets the email of another record. *)
Theorem updateDonor_failures (sch : Schema) (st : Store) (donorId : string)
    (updateData : DonorData.t) :
  (castObjectId donorId = None ->
   updateDonor castObjectId sch st donorId updateData
   = (st, Thrown (new_Error "Invalid donor ID format")))
  /\ (forall oid, castObjectId donorId = Some oid ->
      (DonorData.age updateData = Some NaN
       \/ DonorData.last_donation_date updateData = Some InvalidDate ->
       updateDonor castObjectId sch st donorId updateData
       = (st, Thrown (new_Error "Invalid donor ID format")))
      /\ (castable updateData -> empties_a_required_string updateData ->
          exists e, updateDonor castObjectId sch st donorId updateData = (st, Thrown e)
                    /\ err_name e = "ValidationError"
                    /\ is_duplicate_key e = false)
      /\ (castable updateData -> ~ empties_a_required_string updateData ->
          (forall d, In d (docs st) -> Doc._id d <> oid) ->
          updateDonor castObjectId sch st donorId updateData
          = (st, Thrown (new_Error "Donor not found")))
      /\ (castable updateData -> ~ empties_a_required_string updateData ->
          forall d other, In d (docs st) -> Doc._id d = oid ->
                          In other (docs st) -> Doc._id other <> oid ->
                          DonorData.email updateData = Some (Doc.email other) ->
          updateDonor castObjectId sch st donorId updateData
          = (st, Thrown (new_Error "Email already exists")))).
Proof.
  unfold updateDonor, Donor_findByIdAndUpdate. split.
  - intros ->. reflexivity.
  - intros oid ->. split; [|split; [|split]].
    + intros Hbad.
      destruct (uncastable_paths updateData) as [|q qs] eqn:Eu; [|reflexivity].
      apply uncastable_paths_nil in Eu as [Ha Hd]. destruct Hbad; contradiction.
    + intros Hc He. apply uncastable_paths_nil in Hc. rewrite Hc.
      destruct (invalid_update_paths updateData) as [|p ps] eqn:Ei.
      * apply invalid_update_paths_nil in Ei. contradiction.
      * eexists. split; [reflexivity|]. now split.
    + intros Hc Hs Hno. apply uncastable_paths_nil in Hc.
      apply invalid_update_paths_nil in Hs. rewrite Hc, Hs.
      destruct (find (fun d => N.eqb (Doc._id d) oid) (docs st)) as [d|] eqn:Ef;
        [|reflexivity].
      apply find_some in Ef as [Hin He]. apply N.eqb_eq in He. now apply Hno in Hin.
    + intros Hc Hs d other Hd Hdid Hother Hoid Hemail. apply uncastable_paths_nil in Hc.
      apply invalid_update_paths_nil in Hs. rewrite Hc, Hs.
      destruct (find (fun d => N.eqb (Doc._id d) oid) (docs st)) as [d0|] eqn:Ef.
      * assert (Ex : existsb (fun x => negb (N.eqb (Doc._id x) oid)
                       && String.eqb (Doc.email x)
                                     (Doc.email (apply_update sch updateData d0)))
                       (docs st) = true).
        { apply existsb_exists. exists other. split; [exact Hother|].
          apply andb_true_iff. split; [now apply negb_true_iff, N.eqb_neq|].
          apply String.eqb_eq. cbn [apply_update Doc.email]. now rewrite Hemail. }
        rewrite Ex. reflexivity.
      * apply (find_none _ _ Ef) in Hd. apply N.eqb_neq in Hd. contradiction.
Qed.

End ByIdRoundTrips.

Lemma store_ok_sample : store_ok sample_store.
Proof.
  repeat split.
  - repeat constructor; cbn; intuition discriminate.
  - repeat constructor; cbn; intuition discriminate.
  - repeat constructor.
Qed.

Lemma created_donor_can_be_fetched_witness :
  store_ok empty_store
  /\ createDonor donorSchema empty_store sample_data_ann
     = ({| docs := [sample_doc_ann]; next_id := 1 |}, Returned sample_doc_ann)
  /\ castObjectId_hex24 "000000000000000000000000" = Some (Doc._id sample_doc_ann)
  /\ getDonorById castObjectId_hex24 {| docs := [sample_doc_ann]; next_id := 1 |}
       "000000000000000000000000"
     = Returned sample_doc_ann.
Proof.
  assert (H0 : store_ok empty_store) by (repeat split; constructor).
  assert (Hc : createDonor donorSchema empty_store sample_data_ann
               = ({| docs := [sample_doc_ann]; next_id := 1 |}, Returned sample_doc_ann))
    by reflexivity.
  assert (Hid : castObjectId_hex24 "000000000000000000000000"
                = Some (Doc._id sample_doc_ann)) by reflexivity.
  split; [exact H0|]. split; [exact Hc|]. split; [exact Hid|].
  exact (proj1 (created_donor_can_be_fetched castObjectId_hex24 donorSchema empty_store _
                  sample_data_ann sample_doc_ann _ H0 Hc Hid)).
Defined.

Lemma deleted_donor_is_gone_witness :
  deleteDonor castObjectId_hex24 sample_store "000000000000000000000000"
  = ({| docs := [sample_doc_raj]; next_id := 2 |}, Returned sample_doc_ann)
  /\ getDonorById castObjectId_hex24 {| docs := [sample_doc_raj]; next_id := 2 |}
       "000000000000000000000000"
     = Thrown (new_Error "Donor not found").
Proof.
  assert (Hd : deleteDonor castObjectId_hex24 sample_store "000000000000000000000000"
               = ({| docs := [sample_doc_raj]; next_id := 2 |}, Returned sample_doc_ann))
    by reflexivity.
  split; [exact Hd|].
  destruct (deleted_donor_is_gone castObjectId_hex24 sample_store _ _ _ Hd)
    as (_ & _ & Hget & _).
  exact Hget.
Defined.

Lemma updateDonor_replaces_one_record_witness :
  store_ok sample_store
  /\ snd (updateDonor castObjectId_hex24 donorSchema sample_store
            "000000000000000000000001"
            (DonorData.mk None (Some (Int 53)) None None None None None None None))
     = Returned (Doc.mk 1 "Raj" 53 "O-" "0755556667" "raj@example.org" "Jaffna"
                        (Some (sample_now - 10 * msPerDay)) (Some (9 # 1)) (Some (80 # 1)))
  /\ store_ok (fst (updateDonor castObjectId_hex24 donorSchema sample_store
                      "000000000000000000000001"
                      (DonorData.mk None (Some (Int 53)) None None None None None None None))).
Proof.
  split; [exact store_ok_sample|].
  pose proof (updateDonor_replaces_one_record castObjectId_hex24 donorSchema sample_store
                "000000000000000000000001"
                (DonorData.mk None (Some (Int 53)) None None None None None None None)
                store_ok_sample) as H.
  assert (Hs : snd (updateDonor castObjectId_hex24 donorSchema sample_store
                      "000000000000000000000001"
                      (DonorData.mk None (Some (Int 53)) None None None None None None None))
               = Returned (Doc.mk 1 "Raj" 53 "O-" "0755556667" "raj@example.org" "Jaffna"
                                  (Some (sample_now - 10 * msPerDay))
                                  (Some (9 # 1)) (Some (80 # 1))))
    by reflexivity.
  rewrite Hs in H. destruct H as (_ & _ & _ & _ & Hok).
  split; [exact Hs|exact Hok].
Defined.

Lemma empty_update_is_a_fetch_witness :
  store_ok sample_store
  /\ getDonorById castObjectId_hex24 sample_store "000000000000000000000001"
     = Returned sample_doc_raj
  /\ updateDonor castObjectId_hex24 donorSchema sample_store "000000000000000000000001"
       no_update
     = (sample_store, Returned sample_doc_raj).
Proof.
  assert (Hg : getDonorById castObjectId_hex24 sample_store "000000000000000000000001"
               = Returned sample_doc_raj) by reflexivity.
  split; [exact store_ok_sample|]. split; [exact Hg|].
  exact (empty_update_is_a_fetch castObjectId_hex24 donorSchema sample_store _ _
           store_ok_sample Hg).
Defined.

(* ================================================================== *)
(** ** Statistics and the list controller *)

Lemma accumulate_raw_total (g : string) (a : Number) (acc : list (string * (Z * Number))) :
  raw_total (accumulate g a acc) = raw_total acc + 1.
Proof.
  unfold raw_total. induction acc as [|[k [c sm]] r IH]; [reflexivity|].
  cbn [accumulate]. destruct (String.eqb k g); cbn [map fold_right fst snd] in *; lia.
Qed.

Lemma group_stage_raw_total (ds : list Doc.t) :
  raw_total (group_stage ds) = Z.of_nat (List.length ds).
Proof.
  unfold group_stage.
  assert (H : forall acc,
             raw_total (fold_left (fun acc d =>
                          accumulate (Doc.blood_group d) (Doc.age d) acc) ds acc)
             = raw_total acc + Z.of_nat (List.length ds)).
  { induction ds as [|d ds IH]; intros acc; cbn [fold_left List.length]; [lia|].
    rewrite IH, accumulate_raw_total. lia. }
  rewrite H. reflexivity.
Qed.

Lemma sum_permutation (l l' : list Z) :
  Permutation l l' -> fold_right Z.add 0 l = fold_right Z.add 0 l'.
Proof. induction 1; cbn [fold_right]; lia. Qed.

(** X24.  The counts of the groups add up to [total]: every stored record is
    counted in exactly one group.  An empty collection gives no group and a
    total of 0. *)
Theorem statistics_counts_add_up (st : Store) :
  exists stats,
    getDonorStatistics None None st = Returned stats
    /\ total_count (Statistics.byBloodGroup stats) = Statistics.total stats
    /\ (docs st = [] <-> Statistics.byBloodGroup stats = [])
    /\ (Statistics.byBloodGroup stats = [] <-> Statistics.total stats = 0).
Proof.
  eexists. split; [reflexivity|].
  cbn [Statistics.byBloodGroup Statistics.total].
  assert (Htotal : total_count (sort_stage (map finish_group (group_stage (docs st))))
                   = Z.of_nat (List.length (docs st))).
  { unfold total_count.
    rewrite <- (sum_permutation _ _
                  (Permutation_map Group.count (sort_stage_perm _))).
    rewrite map_map, <- group_stage_raw_total. unfold raw_total. f_equal.
    apply map_ext. intros [k [c sm]]. reflexivity. }
  assert (Hempty : sort_stage (map finish_group (group_stage (docs st))) = []
                   <-> docs st = []).
  { split.
    - intros He. rewrite He in Htotal. cbn in Htotal.
      destruct (docs st); [reflexivity|cbn [List.length] in Htotal; lia].
    - intros ->. reflexivity. }
  split; [exact Htotal|]. split; [now symmetry|].
  rewrite Hempty. destruct (docs st); cbn [List.length]; split; intros; try reflexivity;
    try discriminate; lia.
Qed.

(** X25.  The controller behind [GET /] answers 200 with the whole
    collection, in the order of the collection: what the service's
    [getAllDonors] returns when it is given no filter.  It reads nothing of
    the request, so no filter reaches it; when the store call fails it
    answers 500. *)
Theorem controller_getAllDonors_is_the_unfiltered_list (tz : tzinfo) (now : Z) (st : Store) :
  Controller.getAllDonors None st = {| status := 200; body := DonorsBody (docs st) |}
  /\ getAllDonors tz now None st {| f_blood_group := None; f_isEligible := JUndefined |}
     = Returned (docs st)
  /\ (forall e, status (Controller.getAllDonors (Some e) st) = 500)
  /\ (forall filters result,
        getAllDonors tz now None st filters = Returned result ->
        forall d, In d result -> In d (docs st)).
Proof.
  assert (Hall : forall l : list Doc.t, filter (matches_all []) l = l).
  { induction l as [|x l IH]; [reflexivity|]. cbn [filter matches_all forallb].
    now rewrite IH. }
  split; [|split; [|split]].
  - unfold Controller.getAllDonors, Donor_find. now rewrite Hall.
  - rewrite getAllDonors_result. f_equal. apply Hall.
  - reflexivity.
  - intros filters result. rewrite getAllDonors_result. intros [= <-] d Hd.
    now apply filter_In in Hd.
Qed.
